(** * SynapsClient (verify.js): a model of the session lifecycle controller

    The development embeds [src/index.ts] -- the class [SynapsClient] -- as
    functions over an explicit world made of the client object and the part
    of the host page the class touches (nodes it creates and attaches, inline
    styles, listeners, timers, installed provider proxies).  Methods that can
    throw run in a state monad in which the world survives the exception, as
    a JavaScript object keeps the assignments made before a [throw]. *)

From Stdlib Require Import Ascii String.
From stdpp Require Import base gmap strings list pretty.


(** ** JavaScript values

    The values the class receives through its untyped entry points
    ([options] is [any], message payloads are untyped).  Numbers are the
    integers, which is what [tier] is documented to be; they print in plain
    decimal. *)

Inductive JsVal : Type :=
  | VUndefined
  | VNull
  | VBool (b : bool)
  | VNum (n : Z)
  | VStr (s : string).

#[global] Instance JsVal_eq_dec : EqDecision JsVal.
Proof. solve_decision. Defined.

(** [ToBoolean]: what [if (v)], [!v] and [v || w] test. *)
Definition truthy (v : JsVal) : bool :=
  match v with
  | VUndefined | VNull => false
  | VBool b => b
  | VNum n => negb (n =? 0)%Z
  | VStr s => negb (String.eqb s "")
  end.

(** [ToString]: what a template literal does to an interpolated value. *)
Definition ToString (v : JsVal) : string :=
  match v with
  | VUndefined => "undefined"
  | VNull => "null"
  | VBool true => "true"
  | VBool false => "false"
  | VNum n => pretty n
  | VStr s => s
  end.

(** [a === b] on primitives. *)
Definition strict_eq (a b : JsVal) : bool := bool_decide (a = b).

(** [a || b]. *)
Definition or_else (a b : JsVal) : JsVal := if truthy a then a else b.

(** [[x, y].includes(v)] for string literals [x], [y]. *)
Definition includes (l : list string) (v : JsVal) : bool :=
  existsb (λ s, strict_eq v (VStr s)) l.

(** [interface Color]; a property that is not there reads [VUndefined]. *)
Record Colors : Type := { primary : JsVal; secondary : JsVal }.

Definition no_colors : Colors := {| primary := VUndefined; secondary := VUndefined |}.

(** The [options] argument of [init], when it is neither [null] nor
    [undefined].  [colors = None] stands for a [colors] property that is
    falsy or carries no [primary]/[secondary] (both read as [{}]). *)
Module Opt.
Record t : Type := {
  element_id : JsVal;
  colors : option Colors;
  type : JsVal;
  lang : JsVal;
  tier : JsVal
}.
End Opt.

(** ** The host page *)

(** Nodes: the three fixed elements of a document, the host's element that
    carries a given [id] attribute, and the elements made by
    [document.createElement], numbered in creation order. *)
Inductive Node : Type :=
  | NHtml
  | NHead
  | NBody
  | NHost (id : string)
  | NNew (n : nat).

#[global] Instance Node_eq_dec : EqDecision Node.
Proof. solve_decision. Defined.

Definition Node_code (n : Node) : unit + unit + unit + string + nat :=
  match n with
  | NHtml => inl (inl (inl (inl tt)))
  | NHead => inl (inl (inl (inr tt)))
  | NBody => inl (inl (inr tt))
  | NHost s => inl (inr s)
  | NNew k => inr k
  end.

Definition Node_uncode (x : unit + unit + unit + string + nat) : Node :=
  match x with
  | inl (inl (inl (inl _))) => NHtml
  | inl (inl (inl (inr _))) => NHead
  | inl (inl (inr _)) => NBody
  | inl (inr s) => NHost s
  | inr k => NNew k
  end.

#[global] Instance Node_countable : Countable Node.
Proof. apply (inj_countable' Node_code Node_uncode). by intros []. Defined.

(** Exceptions: the [Error] the class throws itself, and the two the
    platform raises under it ([removeChild] of a node that is not a child;
    a property read on [null]/[undefined]). *)
Inductive Exn : Type :=
  | Error (msg : string)
  | NotFoundError
  | TypeError.

#[global] Instance Exn_eq_dec : EqDecision Exn.
Proof. solve_decision. Defined.

(** Calls that leave the class, in the order they are made. *)
Inductive Effect : Type :=
  | EAppend (parent child : Node)
  | ERemove (parent child : Node)
  | ESetStyle (n : Node) (prop val : string)
  | ERemoveStyle (n : Node) (prop : string)
  | EInstall (handle : nat) (url : string)
  | EUninstall (handle : nat)
  | ECallback (name : string) (cb : nat)
  | ESetTimeout.

#[global] Instance Effect_eq_dec : EqDecision Effect.
Proof. solve_decision. Defined.

(** The two closures the class registers on [window] for ['message'].  The
    first carries its captured [eventInited] variable. *)
Inductive Listener : Type :=
  | LReady (eventInited : bool)
  | LDispatch.

#[global] Instance Listener_eq_dec : EqDecision Listener.
Proof. solve_decision. Defined.

(** The fields of [SynapsClient].  [None] is [undefined]/[null]; callbacks
    and uninstallers are opaque host functions, named by a number. *)
Record Client : Type := {
  baseURL : JsVal;
  sessionID : JsVal;
  service : JsVal;
  elementID : JsVal;
  colors : option Colors;
  type : JsVal;
  lang : JsVal;
  tier : JsVal;
  callbacks : gmap string nat;
  isOpen : bool;
  alreadyInit : bool;
  iframe : option Node;
  loaderElement : option Node;
  loader : option Node;
  providerProxyUninstaller : option nat
}.

(** What the class reads and writes outside itself. *)
Record Page : Type := {
  parent : gmap Node Node;              (* child |-> parentNode *)
  attrs : gmap (Node * string) string;  (* attributes and properties *)
  style : gmap (Node * string) string;  (* inline style declarations *)
  hostIds : gset string;                (* ids document.getElementById finds *)
  nextNode : nat;
  msgListeners : list Listener;         (* window, 'message' *)
  clickListeners : nat;                 (* document, 'click' *)
  timers : nat;                         (* pending _initEmbed retries *)
  nextHandle : nat;
  activeProxies : list nat;             (* installed and not uninstalled *)
  trace : list Effect;
  reported : list Exn                   (* exceptions that left a listener *)
}.

Record World : Type := { this : Client; page : Page }.

(** ** Field updates

    [set_f v r] is [r] after the assignment [r.f = v]. *)

Definition set_elementID (v : JsVal) (c : Client) : Client :=
  {| baseURL := baseURL c; sessionID := sessionID c; service := service c;
     elementID := v; colors := colors c; type := type c; lang := lang c;
     tier := tier c; callbacks := callbacks c; isOpen := isOpen c;
     alreadyInit := alreadyInit c; iframe := iframe c;
     loaderElement := loaderElement c; loader := loader c;
     providerProxyUninstaller := providerProxyUninstaller c |}.

Definition set_colors (v : option Colors) (c : Client) : Client :=
  {| baseURL := baseURL c; sessionID := sessionID c; service := service c;
     elementID := elementID c; colors := v; type := type c; lang := lang c;
     tier := tier c; callbacks := callbacks c; isOpen := isOpen c;
     alreadyInit := alreadyInit c; iframe := iframe c;
     loaderElement := loaderElement c; loader := loader c;
     providerProxyUninstaller := providerProxyUninstaller c |}.

Definition set_type (v : JsVal) (c : Client) : Client :=
  {| baseURL := baseURL c; sessionID := sessionID c; service := service c;
     elementID := elementID c; colors := colors c; type := v; lang := lang c;
     tier := tier c; callbacks := callbacks c; isOpen := isOpen c;
     alreadyInit := alreadyInit c; iframe := iframe c;
     loaderElement := loaderElement c; loader := loader c;
     providerProxyUninstaller := providerProxyUninstaller c |}.

Definition set_lang (v : JsVal) (c : Client) : Client :=
  {| baseURL := baseURL c; sessionID := sessionID c; service := service c;
     elementID := elementID c; colors := colors c; type := type c; lang := v;
     tier := tier c; callbacks := callbacks c; isOpen := isOpen c;
     alreadyInit := alreadyInit c; iframe := iframe c;
     loaderElement := loaderElement c; loader := loader c;
     providerProxyUninstaller := providerProxyUninstaller c |}.

Definition set_tier (v : JsVal) (c : Client) : Client :=
  {| baseURL := baseURL c; sessionID := sessionID c; service := service c;
     elementID := elementID c; colors := colors c; type := type c;
     lang := lang c; tier := v; callbacks := callbacks c; isOpen := isOpen c;
     alreadyInit := alreadyInit c; iframe := iframe c;
     loaderElement := loaderElement c; loader := loader c;
     providerProxyUninstaller := providerProxyUninstaller c |}.

Definition set_callbacks (v : gmap string nat) (c : Client) : Client :=
  {| baseURL := baseURL c; sessionID := sessionID c; service := service c;
     elementID := elementID c; colors := colors c; type := type c;
     lang := lang c; tier := tier c; callbacks := v; isOpen := isOpen c;
     alreadyInit := alreadyInit c; iframe := iframe c;
     loaderElement := loaderElement c; loader := loader c;
     providerProxyUninstaller := providerProxyUninstaller c |}.

Definition set_isOpen (v : bool) (c : Client) : Client :=
  {| baseURL := baseURL c; sessionID := sessionID c; service := service c;
     elementID := elementID c; colors := colors c; type := type c;
     lang := lang c; tier := tier c; callbacks := callbacks c; isOpen := v;
     alreadyInit := alreadyInit c; iframe := iframe c;
     loaderElement := loaderElement c; loader := loader c;
     providerProxyUninstaller := providerProxyUninstaller c |}.

Definition set_alreadyInit (v : bool) (c : Client) : Client :=
  {| baseURL := baseURL c; sessionID := sessionID c; service := service c;
     elementID := elementID c; colors := colors c; type := type c;
     lang := lang c; tier := tier c; callbacks := callbacks c;
     isOpen := isOpen c; alreadyInit := v; iframe := iframe c;
     loaderElement := loaderElement c; loader := loader c;
     providerProxyUninstaller := providerProxyUninstaller c |}.

Definition set_iframe (v : option Node) (c : Client) : Client :=
  {| baseURL := baseURL c; sessionID := sessionID c; service := service c;
     elementID := elementID c; colors := colors c; type := type c;
     lang := lang c; tier := tier c; callbacks := callbacks c;
     isOpen := isOpen c; alreadyInit := alreadyInit c; iframe := v;
     loaderElement := loaderElement c; loader := loader c;
     providerProxyUninstaller := providerProxyUninstaller c |}.

Definition set_loaderElement (v : option Node) (c : Client) : Client :=
  {| baseURL := baseURL c; sessionID := sessionID c; service := service c;
     elementID := elementID c; colors := colors c; type := type c;
     lang := lang c; tier := tier c; callbacks := callbacks c;
     isOpen := isOpen c; alreadyInit := alreadyInit c; iframe := iframe c;
     loaderElement := v; loader := loader c;
     providerProxyUninstaller := providerProxyUninstaller c |}.

Definition set_loader (v : option Node) (c : Client) : Client :=
  {| baseURL := baseURL c; sessionID := sessionID c; service := service c;
     elementID := elementID c; colors := colors c; type := type c;
     lang := lang c; tier := tier c; callbacks := callbacks c;
     isOpen := isOpen c; alreadyInit := alreadyInit c; iframe := iframe c;
     loaderElement := loaderElement c; loader := v;
     providerProxyUninstaller := providerProxyUninstaller c |}.

Definition set_providerProxyUninstaller (v : option nat) (c : Client) : Client :=
  {| baseURL := baseURL c; sessionID := sessionID c; service := service c;
     elementID := elementID c; colors := colors c; type := type c;
     lang := lang c; tier := tier c; callbacks := callbacks c;
     isOpen := isOpen c; alreadyInit := alreadyInit c; iframe := iframe c;
     loaderElement := loaderElement c; loader := loader c;
     providerProxyUninstaller := v |}.

Definition set_parent (v : gmap Node Node) (p : Page) : Page :=
  {| parent := v; attrs := attrs p; style := style p; hostIds := hostIds p;
     nextNode := nextNode p; msgListeners := msgListeners p;
     clickListeners := clickListeners p; timers := timers p;
     nextHandle := nextHandle p; activeProxies := activeProxies p;
     trace := trace p; reported := reported p |}.

Definition set_attrs (v : gmap (Node * string) string) (p : Page) : Page :=
  {| parent := parent p; attrs := v; style := style p; hostIds := hostIds p;
     nextNode := nextNode p; msgListeners := msgListeners p;
     clickListeners := clickListeners p; timers := timers p;
     nextHandle := nextHandle p; activeProxies := activeProxies p;
     trace := trace p; reported := reported p |}.

Definition set_style (v : gmap (Node * string) string) (p : Page) : Page :=
  {| parent := parent p; attrs := attrs p; style := v; hostIds := hostIds p;
     nextNode := nextNode p; msgListeners := msgListeners p;
     clickListeners := clickListeners p; timers := timers p;
     nextHandle := nextHandle p; activeProxies := activeProxies p;
     trace := trace p; reported := reported p |}.

Definition set_nextNode (v : nat) (p : Page) : Page :=
  {| parent := parent p; attrs := attrs p; style := style p;
     hostIds := hostIds p; nextNode := v; msgListeners := msgListeners p;
     clickListeners := clickListeners p; timers := timers p;
     nextHandle := nextHandle p; activeProxies := activeProxies p;
     trace := trace p; reported := reported p |}.

Definition set_msgListeners (v : list Listener) (p : Page) : Page :=
  {| parent := parent p; attrs := attrs p; style := style p;
     hostIds := hostIds p; nextNode := nextNode p; msgListeners := v;
     clickListeners := clickListeners p; timers := timers p;
     nextHandle := nextHandle p; activeProxies := activeProxies p;
     trace := trace p; reported := reported p |}.

Definition set_clickListeners (v : nat) (p : Page) : Page :=
  {| parent := parent p; attrs := attrs p; style := style p;
     hostIds := hostIds p; nextNode := nextNode p;
     msgListeners := msgListeners p; clickListeners := v; timers := timers p;
     nextHandle := nextHandle p; activeProxies := activeProxies p;
     trace := trace p; reported := reported p |}.

Definition set_timers (v : nat) (p : Page) : Page :=
  {| parent := parent p; attrs := attrs p; style := style p;
     hostIds := hostIds p; nextNode := nextNode p;
     msgListeners := msgListeners p; clickListeners := clickListeners p;
     timers := v; nextHandle := nextHandle p;
     activeProxies := activeProxies p; trace := trace p;
     reported := reported p |}.

Definition set_nextHandle (v : nat) (p : Page) : Page :=
  {| parent := parent p; attrs := attrs p; style := style p;
     hostIds := hostIds p; nextNode := nextNode p;
     msgListeners := msgListeners p; clickListeners := clickListeners p;
     timers := timers p; nextHandle := v; activeProxies := activeProxies p;
     trace := trace p; reported := reported p |}.

Definition set_activeProxies (v : list nat) (p : Page) : Page :=
  {| parent := parent p; attrs := attrs p; style := style p;
     hostIds := hostIds p; nextNode := nextNode p;
     msgListeners := msgListeners p; clickListeners := clickListeners p;
     timers := timers p; nextHandle := nextHandle p; activeProxies := v;
     trace := trace p; reported := reported p |}.

Definition set_trace (v : list Effect) (p : Page) : Page :=
  {| parent := parent p; attrs := attrs p; style := style p;
     hostIds := hostIds p; nextNode := nextNode p;
     msgListeners := msgListeners p; clickListeners := clickListeners p;
     timers := timers p; nextHandle := nextHandle p;
     activeProxies := activeProxies p; trace := v; reported := reported p |}.

Definition set_reported (v : list Exn) (p : Page) : Page :=
  {| parent := parent p; attrs := attrs p; style := style p;
     hostIds := hostIds p; nextNode := nextNode p;
     msgListeners := msgListeners p; clickListeners := clickListeners p;
     timers := timers p; nextHandle := nextHandle p;
     activeProxies := activeProxies p; trace := trace p; reported := v |}.

Definition on_this (f : Client → Client) (w : World) : World :=
  {| this := f (this w); page := page w |}.

Definition on_page (f : Page → Page) (w : World) : World :=
  {| this := this w; page := f (page w) |}.
Definition set_hostIds (v : gset string) (p : Page) : Page :=
  {| parent := parent p; attrs := attrs p; style := style p; hostIds := v;
     nextNode := nextNode p; msgListeners := msgListeners p;
     clickListeners := clickListeners p; timers := timers p;
     nextHandle := nextHandle p; activeProxies := activeProxies p;
     trace := trace p; reported := reported p |}.

(** ** The monad of methods

    A method takes the world to a new world and either a result or the
    exception it threw. *)

Definition M (A : Type) : Type := World → World * (Exn + A).

Definition ret {A : Type} (a : A) : M A := λ w, (w, inr a).

Definition bind {A B : Type} (m : M A) (k : A → M B) : M B := λ w,
  match m w with
  | (w', inr a) => k a w'
  | (w', inl e) => (w', inl e)
  end.

Declare Scope M_scope.
Delimit Scope M_scope with M.
Bind Scope M_scope with M.
Notation "x ← y ; z" := (bind y (λ x, z))
  (at level 20, y at level 100, z at level 200, only parsing) : M_scope.
Notation "x ;; z" := (bind x (λ _, z))
  (at level 100, z at level 200, only parsing, right associativity) : M_scope.
Open Scope M_scope.

(** The empty statement. *)
Definition skip : M unit := ret tt.

Definition throw {A : Type} (e : Exn) : M A := λ w, (w, inl e).

Definition read {A : Type} (f : World → A) : M A := λ w, (w, inr (f w)).

Definition write (f : World → World) : M unit := λ w, (f w, inr tt).

Definition field {A : Type} (f : Client → A) : M A := read (λ w, f (this w)).

Definition assign (f : Client → Client) : M unit := write (on_this f).

Definition emit (e : Effect) : M unit :=
  write (on_page (λ p, set_trace (trace p ++ [e]) p)).

(** An exception that leaves an event listener or a timer callback is
    reported by the platform; the other listeners still run. *)
Definition report {A : Type} (r : World * (Exn + A)) : World :=
  match r with
  | (w, inl e) => on_page (λ p, set_reported (reported p ++ [e]) p) w
  | (w, inr _) => w
  end.

(** ** Platform calls *)

Definition createElement : M Node := λ w,
  let n := nextNode (page w) in (on_page (set_nextNode (S n)) w, inr (NNew n)).

(** [par.appendChild(child)]: the child leaves its former parent. *)
Definition appendChild (par child : Node) : M unit :=
  write (on_page (λ p, set_parent (<[child := par]> (parent p)) p)) ;;
  emit (EAppend par child).

(** [par.removeChild(child)]: a [child] that is not a node is a
    [TypeError]; a node whose parent is not [par] is a [NotFoundError]. *)
Definition removeChild (par : Node) (child : option Node) : M unit :=
  match child with
  | None => throw TypeError
  | Some c =>
      up ← read (λ w, parent (page w) !! c);
      if decide (up = Some par)
      then write (on_page (λ p, set_parent (delete c (parent p)) p)) ;;
           emit (ERemove par c)
      else throw NotFoundError
  end.

Definition setAttribute (n : Node) (name val : string) : M unit :=
  write (on_page (λ p, set_attrs (<[(n, name) := val]> (attrs p)) p)).

Definition removeAttribute (n : Node) (name : string) : M unit :=
  write (on_page (λ p, set_attrs (delete (n, name) (attrs p)) p)).

(** [n.style.prop = val] *)
Definition setStyle (n : Node) (prop val : string) : M unit :=
  write (on_page (λ p, set_style (<[(n, prop) := val]> (style p)) p)) ;;
  emit (ESetStyle n prop val).

(** [n.style.removeProperty(prop)] *)
Definition removeProperty (n : Node) (prop : string) : M unit :=
  write (on_page (λ p, set_style (delete (n, prop) (style p)) p)) ;;
  emit (ERemoveStyle n prop).

Definition getElementById (id : string) : M (option Node) :=
  read (λ w, if decide (id ∈ hostIds (page w)) then Some (NHost id) else None).

(** [iframe.contentWindow]: there is one exactly while the frame is
    attached. *)
Definition contentWindow (n : Node) : M bool :=
  read (λ w, bool_decide (is_Some (parent (page w) !! n))).

Definition addMessageListener (l : Listener) : M unit :=
  write (on_page (λ p, set_msgListeners (msgListeners p ++ [l]) p)).

Definition addClickListener : M unit :=
  write (on_page (λ p, set_clickListeners (S (clickListeners p)) p)).

Definition setTimeout : M unit :=
  write (on_page (λ p, set_timers (S (timers p)) p)) ;; emit ESetTimeout.

(** Modelled from the spec: [installProviderProxyFor], imported from
    [@synaps-io/web3-provider], whose contract is
    [install(targets, remoteWindow, resolvedURL) -> uninstaller].  Each call
    installs a new proxy and returns the function that uninstalls it. *)
Definition installProviderProxyFor (url : string) : M nat := λ w,
  let h := nextHandle (page w) in
  (on_page (λ p, set_trace (trace p ++ [EInstall h url])
                   (set_activeProxies (h :: activeProxies p)
                      (set_nextHandle (S h) p))) w, inr h).

(** Calling the uninstaller that [installProviderProxyFor] returned. *)
Definition uninstaller (h : nat) : M unit :=
  write (on_page (λ p,
    set_activeProxies (filter (λ x, x ≠ h) (activeProxies p)) p)) ;;
  emit (EUninstall h).

(** ** The class *)

Definition dq : string := String "034"%char "".

Definition required_msg : string :=
  dq +:+ "sessionID" +:+ dq +:+ " and " +:+ dq +:+ "service" +:+ dq +:+ " are required.".

Definition type_msg : string :=
  "The type must be either " +:+ dq +:+ "modal" +:+ dq +:+ " or " +:+ dq +:+ "embed" +:+ dq +:+ ".".

Definition styles : string :=
  ".sdk-synaps-loader-modal{position:fixed;left:0;top:0;width:100%;height:100%;z-index:9999}.sdk-synaps-loader-embed{position:relative;left:0;top:0;width:100%;height:100%;z-index:9999}.sdk-synaps-loader-logo{background-image:url(https://storage.googleapis.com/synaps-static-assets/white-loader.svg),url(https://storage.googleapis.com/synaps-static-assets/synaps-logo-white.svg);background-size:75px,25px;background-repeat:no-repeat,no-repeat;background-position:center center,center center;background-color:rgb(0 0 0 / 50%)}.sdk-synaps-container{width:100%;height:100%;border-color:transparent;border-width:0;border-style:none;left:0;top:0;-webkit-tap-highlight-color:transparent}@media(max-width:700px){.sdk-synaps-container{width:98%}}".

Definition _initStyle : M unit :=
  styleSheet ← createElement;
  setAttribute styleSheet "type" "text/css" ;;
  setAttribute styleSheet "innerText" styles ;;
  appendChild NHead styleSheet.

(** The fields the constructor assigns. *)
Definition fields (sessionID service url : JsVal) : Client :=
  {| baseURL :=
       if negb (truthy url)
       then if strict_eq service (VStr "corporate")
            then VStr "https://verify-v3.synaps.io"
            else VStr "https://verify.synaps.io"
       else url;
     sessionID := sessionID; service := service;
     elementID := VNull; colors := None; type := VStr "modal";
     lang := VStr "en"; tier := VNull; callbacks := ∅;
     isOpen := false; alreadyInit := false; iframe := None;
     loaderElement := None; loader := None;
     providerProxyUninstaller := None |}.

(** [new SynapsClient(sessionID, service, url)] on the page [p]. *)
Definition construct (sessionID service url : JsVal) (p : Page) : Exn + World :=
  if negb (truthy sessionID) || negb (truthy service)
  then inl (Error required_msg)
  else inr (fst (_initStyle {| this := fields sessionID service url; page := p |})).

(** [this.colors?.primary], [this.colors?.secondary] *)
Definition color (f : Colors → JsVal) (c : Client) : JsVal :=
  match colors c with Some k => f k | None => VUndefined end.

Definition _formatURL (c : Client) : string :=
  let url := ToString (baseURL c) +:+ "?session_id=" +:+ ToString (sessionID c)
             +:+ "&service=" +:+ ToString (service c)
             +:+ "&type=" +:+ ToString (type c)
             +:+ "&lang=" +:+ ToString (or_else (lang c) (VStr "en")) in
  let url := if truthy (color primary c)
             then url +:+ "&primary_color=" +:+ ToString (color primary c)
             else url in
  let url := if truthy (color secondary c)
             then url +:+ "&secondary=" +:+ ToString (color secondary c)
             else url in
  let url := if truthy (tier c)
             then url +:+ "&tier=" +:+ ToString (tier c)
             else url in
  url.

Definition getFlow : M (option Node) :=
  fr ← field iframe;
  match fr with
  | Some n =>
      src ← field _formatURL;
      setAttribute n "src" src ;;
      setAttribute n "allow" "microphone; camera; midi; encrypted-media; usb" ;;
      setAttribute n "allowtransparency" "true" ;;
      setAttribute n "allowfullscreen" "true" ;;
      setAttribute n "frameborder" "none" ;;
      setAttribute n "border" "0" ;;
      setAttribute n "resize" "none" ;;
      setAttribute n "style" "height:0px;width:0px;position:absolute;"
  | None => skip
  end ;;
  ret fr.

Definition openSession : M unit :=
  opened ← field isOpen;
  if opened then skip else
  l ← createElement;
  assign (set_loader (Some l)) ;;
  assign (set_loaderElement (Some NBody)) ;;
  setAttribute l "class" "sdk-synaps-loader-modal sdk-synaps-loader-logo" ;;
  appendChild NBody l ;;
  src ← field _formatURL;
  setStyle NHtml "overflow" "hidden" ;;
  assign (set_isOpen true) ;;
  fr ← field iframe;
  match fr with
  | Some n =>
      setAttribute n "src" src ;;
      setAttribute n "allow" "microphone; camera; midi; encrypted-media; usb" ;;
      setAttribute n "allowtransparency" "true" ;;
      setAttribute n "allowfullscreen" "true" ;;
      setAttribute n "frameborder" "none" ;;
      setAttribute n "border" "0" ;;
      setAttribute n "resize" "none" ;;
      setAttribute n "style" "z-index: 99999999; overflow: hidden auto; visibility: visible; margin: 0px; padding: 0px; position: fixed; border-color: transparent; border-width: 0; border-style: none; left: 0px; top: 0px; width: 100%; height: 100%; -webkit-tap-highlight-color: transparent;" ;;
      appendChild NBody n
  | None => skip
  end.

Definition closeFlow : M unit :=
  removeProperty NHtml "overflow" ;;
  removeProperty NBody "overflow" ;;
  removeProperty NHtml "margin" ;;
  removeProperty NBody "margin" ;;
  assign (set_isOpen false) ;;
  fr ← field iframe;
  match fr with
  | Some n => removeChild NBody (Some n)
  | None => skip
  end ;;
  un ← field providerProxyUninstaller;
  match un with
  | Some h => uninstaller h ;; assign (set_providerProxyUninstaller None)
  | None => skip
  end.

Definition on (type : string) (callback : nat) : M unit :=
  assign (λ c, set_callbacks (<[type := callback]> (callbacks c)) c).

(** The payload of a message event: [data.type] throws on [null] and
    [undefined]; any other payload has a (possibly undefined) [type]. *)
Inductive MsgData : Type :=
  | DNullish
  | DObject (type : JsVal).

Definition data_type (d : MsgData) : M JsVal :=
  match d with
  | DNullish => throw TypeError
  | DObject t => ret t
  end.

(** The listener [_initEvents] registers. *)
Definition dispatcher (d : MsgData) : M unit :=
  ty ← data_type d;
  if negb (includes ["finish"; "close"] ty) then skip else
  mode ← field type;
  (if strict_eq mode (VStr "modal") then closeFlow else skip) ;;
  cb ← field (λ c, callbacks c !! ToString ty);
  match cb with
  | Some f => emit (ECallback (ToString ty) f)
  | None => skip
  end.

Definition _initEvents : M unit := addMessageListener LDispatch.

Definition _initModal : M unit := addClickListener.

(** One run of [_initEmbed]; the retry it schedules is run by [timer]. *)
Definition _initEmbed : M unit :=
  eid ← field elementID;
  if truthy eid then
    element ← getElementById (ToString eid);
    match element with
    | None => setTimeout
    | Some el =>
        flow ← getFlow;
        match flow with
        | Some n => setAttribute n "class" "sdk-synaps-container" ;;
                    appendChild el n
        | None => skip
        end ;;
        l ← createElement;
        assign (set_loader (Some l)) ;;
        le ← getElementById (ToString eid);
        assign (set_loaderElement le) ;;
        setAttribute l "class" "sdk-synaps-loader-embed sdk-synaps-loader-logo" ;;
        match le with
        | Some e => appendChild e l
        | None => throw TypeError
        end ;;
        assign (set_isOpen true)
    end
  else skip.

(** The captured variable [eventInited] of the listener at position [i]. *)
Definition eventInited (i : nat) (w : World) : bool :=
  match msgListeners (page w) !! i with
  | Some (LReady b) => b
  | _ => false
  end.

(** The listener [_initLoad] registers, standing at position [i]. *)
Definition ready_listener (i : nat) (d : MsgData) : M unit :=
  ty ← data_type d;
  if strict_eq ty (VStr "ready") then
    le ← field loaderElement;
    match le with
    | Some e => l ← field loader; removeChild e l
    | None => skip
    end ;;
    fr ← field iframe;
    match fr with
    | Some n =>
        cw ← contentWindow n;
        if cw then
          url ← field _formatURL;
          h ← installProviderProxyFor url;
          assign (set_providerProxyUninstaller (Some h))
        else skip
    | None => skip
    end ;;
    mode ← field type;
    (if strict_eq mode (VStr "embed") then
       match fr with
       | Some n => removeAttribute n "style"
       | None => skip
       end
     else skip) ;;
    inited ← read (eventInited i);
    if negb inited then
      _initEvents ;;
      write (on_page (λ p, set_msgListeners (<[i := LReady true]> (msgListeners p)) p))
    else skip
  else skip.

Definition _initLoad : M unit :=
  mode ← field type;
  (if strict_eq mode (VStr "modal") then _initModal else _initEmbed) ;;
  addMessageListener (LReady false).

(** [options === null || options === void 0 ? void 0 : options.f] *)
Definition opt (f : Opt.t → JsVal) (options : option Opt.t) : JsVal :=
  match options with Some o => f o | None => VUndefined end.

Definition init (options : option Opt.t) : M unit :=
  inited ← field alreadyInit;
  if inited then skip else
  (if truthy (opt Opt.type options)
      && negb (includes ["modal"; "embed"] (opt Opt.type options))
   then throw (Error type_msg) else skip) ;;
  assign (set_elementID (opt Opt.element_id options)) ;;
  assign (set_colors (Some (default no_colors (options ≫= Opt.colors)))) ;;
  assign (set_type (or_else (opt Opt.type options) (VStr "modal"))) ;;
  assign (set_lang (or_else (opt Opt.lang options) (VStr "en"))) ;;
  assign (set_tier (opt Opt.tier options)) ;;
  fr ← createElement;
  assign (set_iframe (Some fr)) ;;
  eid ← field elementID;
  (if negb (truthy eid) then
     mode ← field type;
     assign (set_elementID (if strict_eq mode (VStr "modal")
                            then VStr "synaps-btn" else VStr "synaps-embed"))
   else skip) ;;
  _initLoad ;;
  assign (set_alreadyInit true).

(** ** Events *)

Definition run_listener (d : MsgData) (w : World) (i : nat) : World :=
  match msgListeners (page w) !! i with
  | Some (LReady _) => report (ready_listener i d w)
  | Some LDispatch => report (dispatcher d w)
  | None => w
  end.

(** A ['message'] event on [window]: the listeners registered when the
    event arrives run in registration order. *)
Definition deliver (d : MsgData) (w : World) : World :=
  foldl (run_listener d) w (seq 0 (length (msgListeners (page w)))).

(** The element a click lands on: its lower-cased [tagName] and the value
    of its [id] attribute, if it has one. *)
Record ClickTarget : Type := { tagName : string; idAttr : option string }.

(** The listener [_initModal] registers on [document]. *)
Definition click_listener (t : ClickTarget) : M unit :=
  eid ← field elementID;
  opened ← field isOpen;
  if includes ["button"; "a"] (VStr (tagName t))
     && strict_eq (match idAttr t with Some v => VStr v | None => VUndefined end) eid
     && negb opened
  then openSession else skip.

Definition click (t : ClickTarget) (w : World) : World :=
  Nat.iter (clickListeners (page w)) (λ w, report (click_listener t w)) w.

(** One pending [setTimeout(() => this._initEmbed(), 500)] fires. *)
Definition timer (w : World) : World :=
  match timers (page w) with
  | O => w
  | S k => report (_initEmbed (on_page (set_timers k) w))
  end.

(** The host page gains an element with the given [id]. *)
Definition host_add (id : string) (w : World) : World :=
  on_page (λ p, set_hostIds ({[ id ]} ∪ hostIds p) p) w.

(** What can happen to a client once it is constructed. *)
Inductive Action : Type :=
  | AInit (options : option Opt.t)
  | AOn (type : string) (callback : nat)
  | AOpenSession
  | ACloseFlow
  | AGetFlow
  | AMessage (d : MsgData)
  | AClick (t : ClickTarget)
  | ATimer
  | AHostAdd (id : string).

(** The world after an action; an exception thrown to the host leaves the
    world as the method left it. *)
Definition exec (w : World) (a : Action) : World :=
  match a with
  | AInit o => fst (init o w)
  | AOn t cb => fst (on t cb w)
  | AOpenSession => fst (openSession w)
  | ACloseFlow => fst (closeFlow w)
  | AGetFlow => fst (getFlow w)
  | AMessage d => deliver d w
  | AClick t => click t w
  | ATimer => timer w
  | AHostAdd id => host_add id w
  end.

(** A page before the script runs: the host's elements and inline styles,
    and nothing of the client's. *)
Definition new_page (ids : gset string) (st : gmap (Node * string) string) : Page :=
  {| parent := ∅; attrs := ∅; style := st; hostIds := ids; nextNode := 0;
     msgListeners := []; clickListeners := 0; timers := 0; nextHandle := 0;
     activeProxies := []; trace := []; reported := [] |}.

Inductive reachable : World → Prop :=
  | reach_new sid svc url ids st w :
      construct sid svc url (new_page ids st) = inr w → reachable w
  | reach_step w a : reachable w → reachable (exec w a).

Definition ready : MsgData := DObject (VStr "ready").
Definition finish : MsgData := DObject (VStr "finish").

(** ** The URL as the specification words it

    An ordered list of query parameters: [session_id], [service], [type],
    [lang] (defaulting to [en]), then [primary_color], [secondary] and
    [tier], each only when its value is truthy. *)

Definition query_parameters (c : Client) : list (string * string) :=
  [("session_id", ToString (sessionID c));
   ("service", ToString (service c));
   ("type", ToString (type c));
   ("lang", if truthy (lang c) then ToString (lang c) else "en")]
  ++ (if truthy (color primary c)
      then [("primary_color", ToString (color primary c))] else [])
  ++ (if truthy (color secondary c)
      then [("secondary", ToString (color secondary c))] else [])
  ++ (if truthy (tier c) then [("tier", ToString (tier c))] else []).

Fixpoint query_string (sep : string) (ps : list (string * string)) : string :=
  match ps with
  | [] => ""
  | (k, v) :: rest => sep +:+ k +:+ "=" +:+ v +:+ query_string "&" rest
  end.

Definition buildURL_spec (c : Client) : string :=
  ToString (baseURL c) +:+ query_string "?" (query_parameters c).

(** [s] ends with [suffix]. *)
Definition ends_with (suffix s : string) : bool :=
  String.eqb
    (substring (String.length s - String.length suffix)%nat (String.length suffix) s)
    suffix
  && (String.length suffix <=? String.length s)%nat.

(** ** Sample sessions *)

Definition sample : World :=
  fst (_initStyle {| this := fields (VStr "abc") (VStr "individual") VUndefined;
                     page := new_page {[ "synaps-embed" ]} ∅ |}).

Definition options_of (mode : string) : option Opt.t :=
  Some {| Opt.element_id := VUndefined; Opt.colors := None;
          Opt.type := VStr mode; Opt.lang := VUndefined;
          Opt.tier := VUndefined |}.

(** The configuration of the specification's URL example. *)
Definition url_example : option Opt.t :=
  Some {| Opt.element_id := VUndefined;
          Opt.colors := Some {| primary := VStr "#fff"; secondary := VUndefined |};
          Opt.type := VStr "modal"; Opt.lang := VStr "fr";
          Opt.tier := VNum 3 |}.

(** ** Predicates of the statements *)

(** Absent, as the guards [!x] and [x || d] see it: undefined, null or
    another falsy value such as the empty string. *)
Definition absent (v : JsVal) : Prop := truthy v = false.

(** The inline declarations [closeFlow] clears. *)
Definition layout_overrides : list (Node * string) :=
  [(NHtml, "overflow"); (NBody, "overflow"); (NHtml, "margin"); (NBody, "margin")].

(** [after] has none of the layout overrides and otherwise the inline
    styles of [before]. *)
Definition layout_restored (before after : World) : Prop :=
  (∀ k, k ∈ layout_overrides → style (page after) !! k = None)
  ∧ (∀ k, k ∉ layout_overrides → style (page after) !! k = style (page before) !! k).

(** ** Sample sessions, continued *)

(** [init()] on the sample client: a modal session. *)
Definition modal_session : World := exec sample (AInit None).

(** ... opened with [openSession()] ... *)
Definition opened_session : World := exec modal_session AOpenSession.

(** ... its frame having signalled [ready] ... *)
Definition active_session : World := exec opened_session (AMessage ready).

(** ... and closed with [closeFlow()]. *)
Definition closed_session : World := exec active_session ACloseFlow.

(** [init({type: 'embed'})] on the sample client, whose page has the mount
    point [synaps-embed]. *)
Definition embed_session : World := exec sample (AInit (options_of "embed")).

(** The display options [init] stores: mount point id, colors, mode,
    language and tier. *)
Definition settings (c : Client) : JsVal * option Colors * JsVal * JsVal * JsVal :=
  (elementID c, colors c, type c, lang c, tier c).

(** The display options a successful first [init(options)] stores. *)
Definition settings_of (options : option Opt.t) : JsVal * option Colors * JsVal * JsVal * JsVal :=
  (if truthy (opt Opt.element_id options) then opt Opt.element_id options
   else if strict_eq (or_else (opt Opt.type options) (VStr "modal")) (VStr "modal")
        then VStr "synaps-btn" else VStr "synaps-embed",
   Some (default no_colors (options ≫= Opt.colors)),
   or_else (opt Opt.type options) (VStr "modal"),
   or_else (opt Opt.lang options) (VStr "en"),
   opt Opt.tier options).

(** Two worlds with the same display options and initialisation flag. *)
Definition same_settings (w w' : World) : Prop :=
  settings (this w') = settings (this w)
  ∧ alreadyInit (this w') = alreadyInit (this w).

(** ** Invariants of a session *)

(** How many dispatchers [_initEvents] has registered. *)
Definition dispatchers (w : World) : nat :=
  length (filter (λ l, l = LDispatch) (msgListeners (page w))).

(** What holds of every world a client can be in (see [reachable_Inv]):
    - an initialised client has its ready listener, and the dispatcher
      exactly when that listener has seen a [ready];
    - nodes not yet created have no parent;
    - the frame and the loader are created nodes, and distinct;
    - until the first [ready], a loader whose element is recorded is
      attached to it;
    - an attached frame comes with a recorded loader element. *)
Record Inv (w : World) : Prop := {
  inv_listeners :
    if alreadyInit (this w)
    then msgListeners (page w) = [LReady false]
         ∨ msgListeners (page w) = [LReady true; LDispatch]
    else msgListeners (page w) = [];
  inv_fresh :
    ∀ k, nextNode (page w) ≤ k → parent (page w) !! NNew k = None;
  inv_frame :
    ∀ n, iframe (this w) = Some n → ∃ k, n = NNew k ∧ k < nextNode (page w);
  inv_loader :
    ∀ e, loaderElement (this w) = Some e →
      ∃ k, loader (this w) = Some (NNew k) ∧ k < nextNode (page w)
           ∧ iframe (this w) ≠ Some (NNew k)
           ∧ (LDispatch ∉ msgListeners (page w) →
              parent (page w) !! NNew k = Some e);
  inv_attached :
    ∀ n, iframe (this w) = Some n → is_Some (parent (page w) !! n) →
         is_Some (loaderElement (this w))
}.

(** ** The ready listener in stages

    The statements of the ready listener, named, for the equation
    [ready_listener_eq]. *)

(** [this.loaderElement.removeChild(this.loader)], when it goes through. *)
Definition ready_detach (e l : Node) (w : World) : World :=
  on_page (λ p, set_trace (trace p ++ [ERemove e l]) p)
    (on_page (λ p, set_parent (delete l (parent p)) p) w).

(** [if (this.iframe?.contentWindow) { ... installProviderProxyFor ... }] *)
Definition ready_install (w : World) : World :=
  match iframe (this w) with
  | Some n =>
      if bool_decide (is_Some (parent (page w) !! n))
      then on_this (set_providerProxyUninstaller (Some (nextHandle (page w))))
             (fst (installProviderProxyFor (_formatURL (this w)) w))
      else w
  | None => w
  end.

(** [if (this.type === 'embed') { this.iframe?.removeAttribute('style') }] *)
Definition ready_reveal (w : World) : World :=
  if strict_eq (type (this w)) (VStr "embed") then
    match iframe (this w) with
    | Some n => on_page (λ p, set_attrs (delete (n, "style") (attrs p)) p) w
    | None => w
    end
  else w.

(** [if (!eventInited) { this._initEvents(); eventInited = true }] *)
Definition ready_register (i : nat) (w : World) : World :=
  if eventInited i w then w
  else on_page (λ p, set_msgListeners (<[i := LReady true]> (msgListeners p)) p)
         (on_page (λ p, set_msgListeners (msgListeners p ++ [LDispatch]) p) w).

Definition ready_rest (i : nat) (w : World) : World :=
  ready_register i (ready_reveal (ready_install w)).

(** The loader recorded with its element is no longer attached to it: a
    [ready] has been handled since the session was last mounted. *)
Definition settled (w : World) : Prop :=
  ∀ e l, loaderElement (this w) = Some e → loader (this w) = Some l →
         parent (page w) !! l ≠ Some e.

(** The callbacks called so far, in order. *)
Definition callback_calls (w : World) : list (string * nat) :=
  omap (λ e, match e with ECallback n c => Some (n, c) | _ => None end)
       (trace (page w)).

(** The outside calls only [closeFlow] makes, in order. *)
Definition close_calls (w : World) : list Effect :=
  omap (λ e, match e with
             | ERemoveStyle _ _ | EUninstall _ => Some e
             | _ => None
             end)
       (trace (page w)).

(** An embed session whose frame signalled [ready], on which the host then
    called [closeFlow()] and [openSession()]. *)
Definition reopened_embed_session : World :=
  foldl exec embed_session [AMessage ready; ACloseFlow; AOpenSession].

(** A modal session with a [finish] callback, opened, whose frame has not
    signalled [ready] yet. *)
Definition loading_session : World :=
  foldl exec modal_session [AOn "finish" 7; AOpenSession].

(** The payload's [type] is ['finish'] or ['close']. *)
Definition is_finish_or_close (d : MsgData) : bool :=
  match d with
  | DObject ty => includes ["finish"; "close"] ty
  | DNullish => false
  end.

(** ** Predicates of the further properties *)

(** The click lands on the opener: a [button] or [a] element whose [id]
    is the client's [elementID]. *)
Definition on_opener (t : ClickTarget) (w : World) : bool :=
  includes ["button"; "a"] (VStr (tagName t))
  && strict_eq (match idAttr t with Some v => VStr v | None => VUndefined end)
       (elementID (this w)).

(** The world with [k] more [TypeError]s reported. *)
Definition report_type_errors (k : nat) (w : World) : World :=
  on_page (λ p, set_reported (reported p ++ replicate k TypeError) p) w.

(** The [style] attribute [getFlow] gives the frame. *)
Definition hidden_style : string := "height:0px;width:0px;position:absolute;".

(** The attributes [getFlow] and [openSession] write on the frame [n]. *)
Definition frame_attributes (n : Node) (src sty : string)
    (m : gmap (Node * string) string) : gmap (Node * string) string :=
  <[(n, "style") := sty]>
    (<[(n, "resize") := "none"]>
       (<[(n, "border") := "0"]>
          (<[(n, "frameborder") := "none"]>
             (<[(n, "allowfullscreen") := "true"]>
                (<[(n, "allowtransparency") := "true"]>
                   (<[(n, "allow") := "microphone; camera; midi; encrypted-media; usb"]>
                      (<[(n, "src") := src]> m))))))).

(** ** [closeFlow] in stages *)

(** The four [removeProperty] calls and [this.isOpen = false]. *)
Definition close_layout (w : World) : World :=
  on_this (set_isOpen false)
    (on_page (λ p,
       set_trace (trace p ++ [ERemoveStyle NHtml "overflow";
                              ERemoveStyle NBody "overflow";
                              ERemoveStyle NHtml "margin";
                              ERemoveStyle NBody "margin"])
         (set_style (delete (NBody, "margin") (delete (NHtml, "margin")
            (delete (NBody, "overflow") (delete (NHtml, "overflow") (style p)))))
            p)) w).

(** [document.body.removeChild(this.iframe)], when it goes through. *)
Definition close_detach (n : Node) (w : World) : World :=
  on_page (λ p, set_trace (trace p ++ [ERemove NBody n])
                  (set_parent (delete n (parent p)) p)) w.

(** [if (this.providerProxyUninstaller) { ... }] *)
Definition close_proxy (w : World) : World :=
  match providerProxyUninstaller (this w) with
  | Some h =>
      on_this (set_providerProxyUninstaller None)
        (on_page (λ p,
           set_trace (trace p ++ [EUninstall h])
             (set_activeProxies (filter (λ x, x ≠ h) (activeProxies p)) p)) w)
  | None => w
  end.

(** ** [_initEmbed] in stages *)

(** The statements of [_initEmbed] once the mount point [el] is found. *)
Definition embed_mount (el : Node) (w : World) : World :=
  let w1 := fst (getFlow w) in
  let w2 := match iframe (this w) with
            | Some n =>
                fst (appendChild el n
                       (fst (setAttribute n "class" "sdk-synaps-container" w1)))
            | None => w1
            end in
  let l := NNew (nextNode (page w2)) in
  on_this (set_isOpen true)
    (fst (appendChild el l
       (fst (setAttribute l "class" "sdk-synaps-loader-embed sdk-synaps-loader-logo"
          (on_this (set_loaderElement (Some el))
             (on_this (set_loader (Some l))
                (on_page (set_nextNode (S (nextNode (page w2)))) w2))))))).

(** An embed session on a page that has no mount point yet. *)
Definition waiting_embed_session : World :=
  exec (fst (_initStyle
               {| this := fields (VStr "abc") (VStr "individual") VUndefined;
                  page := new_page ∅ ∅ |}))
       (AInit (options_of "embed")).

(** ** What a session has registered *)

(** By initialisation state and mode: the frame, the click listeners and
    the pending retry timers. *)
Record Census (w : World) : Prop := {
  census_fresh :
    alreadyInit (this w) = false →
    iframe (this w) = None ∧ type (this w) = VStr "modal"
    ∧ clickListeners (page w) = 0 ∧ timers (page w) = 0;
  census_modal :
    alreadyInit (this w) = true → type (this w) = VStr "modal" →
    is_Some (iframe (this w))
    ∧ clickListeners (page w) = 1 ∧ timers (page w) = 0;
  census_embed :
    alreadyInit (this w) = true → type (this w) ≠ VStr "modal" →
    is_Some (iframe (this w)) ∧ type (this w) = VStr "embed"
    ∧ clickListeners (page w) = 0 ∧ timers (page w) ≤ 1
}.

(** Two worlds with the same frame, click listeners and timers. *)
Definition same_census (w w' : World) : Prop :=
  iframe (this w') = iframe (this w)
  ∧ clickListeners (page w') = clickListeners (page w)
  ∧ timers (page w') = timers (page w).

(** ** Proxies of a modal session *)

(** In a modal session: an attached frame is a child of the body of an
    open session; a held uninstaller is that of the one active proxy,
    installed in the attached frame whose loader is gone; and with no
    uninstaller held no proxy is active. *)
Record ModalProxies (w : World) : Prop := {
  mp_frame :
    ∀ n p, iframe (this w) = Some n → parent (page w) !! n = Some p →
           p = NBody ∧ isOpen (this w) = true;
  mp_held :
    ∀ h, providerProxyUninstaller (this w) = Some h →
         activeProxies (page w) = [h]
         ∧ (∃ n, iframe (this w) = Some n ∧ parent (page w) !! n = Some NBody)
         ∧ settled w;
  mp_none :
    providerProxyUninstaller (this w) = None → activeProxies (page w) = []
}.

(** ** The URL of an attached frame *)

(** An attached frame has the URL of the current configuration as [src]. *)
Definition SrcOk (w : World) : Prop :=
  ∀ n, iframe (this w) = Some n → is_Some (parent (page w) !! n) →
       attrs (page w) !! (n, "src") = Some (_formatURL (this w)).

(** ** The style sheet

    The style sheet the constructor appended: the first node the client
    created, a child of the head element holding the class's style text,
    while the frame and the loader are later nodes. *)
Record Sheet (w : World) : Prop := {
  sheet_parent : parent (page w) !! NNew 0 = Some NHead;
  sheet_type : attrs (page w) !! (NNew 0, "type") = Some "text/css";
  sheet_text : attrs (page w) !! (NNew 0, "innerText") = Some styles;
  sheet_next : 0 < nextNode (page w);
  sheet_frame : iframe (this w) ≠ Some (NNew 0);
  sheet_loader : loader (this w) ≠ Some (NNew 0)
}.

(** ** A host page with a layout of its own *)

(** The overrides read in [after] as they read in [before]. *)
Definition layout_as_before (before after : World) : Prop :=
  ∀ k, k ∈ layout_overrides → style (page after) !! k = style (page before) !! k.

(** Inline declarations of the host: [overflow: scroll] on the html
    element and [margin: 0] on the body. *)
Definition host_styles : gmap (Node * string) string :=
  {[ (NHtml, "overflow") := "scroll"; (NBody, "margin") := "0" ]}.

(** A modal session on a page with these declarations. *)
Definition styled_session : World :=
  exec (fst (_initStyle
               {| this := fields (VStr "abc") (VStr "individual") VUndefined;
                  page := new_page ∅ host_styles |}))
       (AInit None).

(** * Theorems *)

Ltac unfold_prims :=
  unfold removeProperty, setStyle, setAttribute, removeAttribute, appendChild,
    removeChild, createElement, getElementById, contentWindow,
    addMessageListener, addClickListener, setTimeout, installProviderProxyFor,
    uninstaller, emit, assign, field, write, read, throw, skip, ret, bind in *.

(** Name the fields of the world, so that a case split on one reaches
    every later reading of it. *)
Ltac open_world w :=
  let c := fresh "c" in
  let p := fresh "p" in
  destruct w as [c p];
  destruct c as [bu sid svc eid cols mode lg tr cbs op ai fr le lo un];
  simpl in *.

(** Compute field updates down to record literals. *)
Ltac norm_world :=
  cbv beta iota delta
    [on_this on_page this page
     set_elementID set_colors set_type set_lang set_tier set_callbacks
     set_isOpen set_alreadyInit set_iframe set_loaderElement set_loader
     set_providerProxyUninstaller
     set_parent set_attrs set_style set_hostIds set_nextNode set_msgListeners
     set_clickListeners set_timers set_nextHandle set_activeProxies set_trace
     set_reported
     baseURL sessionID service elementID colors type lang tier callbacks
     isOpen alreadyInit iframe loaderElement loader providerProxyUninstaller
     parent attrs style hostIds nextNode msgListeners clickListeners timers
     nextHandle activeProxies trace reported].

(** Methods are unfolded by name only. *)
Arguments closeFlow : simpl never.
Arguments openSession : simpl never.
Arguments getFlow : simpl never.
Arguments _initEmbed : simpl never.
Arguments _initLoad : simpl never.
Arguments init : simpl never.
Arguments dispatcher : simpl never.
Arguments ready_listener : simpl never.
Arguments click_listener : simpl never.

(** ** Construction *)

Lemma construct_sample :
  construct (VStr "abc") (VStr "individual") VUndefined
    (new_page {[ "synaps-embed" ]} ∅) = inr sample.
Proof. reflexivity. Qed.

(** C9. Construction throws exactly when [sessionID] or [service] is absent
    (falsy, as the guard [!sessionID || !service] tests it).  Otherwise,
    with no [url] given, [baseURL] is chosen by [service]: one endpoint for
    ['corporate'], another for every other service, ['individual'] among
    them; with a [url] given it is that [url]. *)
Theorem construct_requires_session_and_service :
  ∀ (sid svc url : JsVal) (p : Page),
    ((∃ e, construct sid svc url p = inl e) ↔ absent sid ∨ absent svc)
    ∧ (construct sid svc url p = inl (Error required_msg)
       ∨ ∃ w, construct sid svc url p = inr w
              ∧ sessionID (this w) = sid ∧ service (this w) = svc
              ∧ baseURL (this w) =
                  (if truthy url then url
                   else if decide (svc = VStr "corporate")
                        then VStr "https://verify-v3.synaps.io"
                        else VStr "https://verify.synaps.io"))
    ∧ VStr "https://verify-v3.synaps.io" ≠ VStr "https://verify.synaps.io".
Proof.
  intros sid svc url p. unfold construct, absent.
  destruct (truthy sid) eqn:Hsid, (truthy svc) eqn:Hsvc; simpl;
    (split; [split; [intros [e He]; try discriminate; auto
                    | intros [H|H]; try discriminate; eauto] |]);
    (split; [| discriminate]); auto.
  right. eexists. split; [reflexivity|]. simpl.
  repeat split. unfold strict_eq.
  destruct (truthy url); simpl; [reflexivity|].
  destruct (decide (svc = VStr "corporate")) as [->|Hne].
  - reflexivity.
  - rewrite bool_decide_eq_false_2 by assumption. reflexivity.
Qed.

(** ** The URL builder *)

Lemma string_app_assoc (a b c : string) : (a +:+ b) +:+ c = a +:+ b +:+ c.
Proof.
  induction a as [|x a IH]; [reflexivity|].
  exact (f_equal (String x) IH).
Qed.

Lemma string_app_nil_r (a : string) : a +:+ "" = a.
Proof.
  induction a as [|x a IH]; [reflexivity|].
  exact (f_equal (String x) IH).
Qed.

Lemma formatURL_spec (c : Client) : _formatURL c = buildURL_spec c.
Proof.
  unfold _formatURL, buildURL_spec, query_parameters, or_else.
  destruct (truthy (lang c)), (truthy (color primary c)),
    (truthy (color secondary c)), (truthy (tier c));
    cbn [query_string app];
    rewrite ?string_app_assoc, ?string_app_nil_r; reflexivity.
Qed.

(** C4, as the code has it.  [_formatURL] is a function of the client's
    fields alone and equals the specification's builder: [baseURL] followed
    by [session_id], [service], [type], [lang] (['en'] when falsy), then
    [primary_color], [secondary] and [tier], each only when truthy, in this
    order.  Values are interpolated as they are, with no percent-encoding:
    for the example configuration the URL ends with
    [&type=modal&lang=fr&primary_color=#fff&tier=3], [secondary] omitted. *)
Theorem formatURL_fixed_order_verbatim :
  (∀ c : Client, _formatURL c = buildURL_spec c)
  ∧ _formatURL (this (exec sample (AInit url_example)))
    = "https://verify.synaps.io?session_id=abc&service=individual&type=modal&lang=fr&primary_color=#fff&tier=3"
  ∧ ends_with "&type=modal&lang=fr&primary_color=#fff&tier=3"
      (_formatURL (this (exec sample (AInit url_example)))) = true.
Proof. split; [exact formatURL_spec|]. split; reflexivity. Qed.

(** C4, counterexample: for the example configuration the URL does not end
    with [&type=modal&lang=fr&primary_color=%23fff&tier=3]. *)
Lemma formatURL_example_not_percent_encoded :
  ends_with "&type=modal&lang=fr&primary_color=%23fff&tier=3"
    (_formatURL (this (exec sample (AInit url_example)))) = false.
Proof. reflexivity. Qed.

(** ** Closing *)

Lemma closeFlow_style (w : World) :
  style (page (fst (closeFlow w))) =
  delete (NBody, "margin") (delete (NHtml, "margin")
    (delete (NBody, "overflow") (delete (NHtml, "overflow") (style (page w))))).
Proof.
  unfold closeFlow. unfold_prims. simpl.
  repeat case_match; simplify_eq/=; reflexivity.
Qed.

Lemma closeFlow_isOpen (w : World) : isOpen (this (fst (closeFlow w))) = false.
Proof.
  unfold closeFlow. unfold_prims. simpl.
  repeat case_match; simplify_eq/=; reflexivity.
Qed.

Lemma deleted_restored (w w' : World) :
  style (page w') =
  delete (NBody, "margin") (delete (NHtml, "margin")
    (delete (NBody, "overflow") (delete (NHtml, "overflow") (style (page w))))) →
  layout_restored w w'.
Proof.
  intros H. unfold layout_restored. rewrite H. split; intros k Hk.
  - unfold layout_overrides in Hk.
    repeat (apply elem_of_cons in Hk as [->|Hk]); [..|by apply elem_of_nil in Hk];
      by simplify_map_eq.
  - rewrite !lookup_delete_ne; [done|..]; intros <-; apply Hk;
      unfold layout_overrides; set_solver.
Qed.

Lemma closeFlow_throws (w : World) (n : Node) :
  iframe (this w) = Some n → parent (page w) !! n ≠ Some NBody →
  snd (closeFlow w) = inl NotFoundError.
Proof.
  intros Hf Hp. unfold closeFlow. unfold_prims. simpl. rewrite Hf. simpl.
  destruct (decide _) as [e|e]; [done|]. reflexivity.
Qed.

(** ** Opening *)

Lemma openSession_open (w : World) :
  isOpen (this w) = true → openSession w = (w, inr tt).
Proof. intros H. unfold openSession. unfold_prims. by rewrite H. Qed.

Lemma openSession_isOpen (w : World) : isOpen (this (fst (openSession w))) = true.
Proof.
  unfold openSession. unfold_prims. destruct (isOpen (this w)) eqn:E; [done|].
  simpl. by case_match.
Qed.

Lemma openSession_total (w : World) : snd (openSession w) = inr tt.
Proof.
  unfold openSession. unfold_prims. destruct (isOpen (this w)) eqn:E; [done|].
  simpl. by case_match.
Qed.

Lemma openSession_trace (w : World) (n : Node) :
  isOpen (this w) = false → iframe (this w) = Some n →
  trace (page (fst (openSession w))) =
  trace (page w) ++ [EAppend NBody (NNew (nextNode (page w)));
                     ESetStyle NHtml "overflow" "hidden";
                     EAppend NBody n].
Proof.
  intros H1 H2. unfold openSession. unfold_prims. rewrite H1. simpl.
  rewrite H2. simpl. by rewrite <- !app_assoc.
Qed.

(** C8. [openSession()] on an open session changes nothing, and a session
    is open once [openSession()] has run, so a second call in a row is a
    no-op.  Starting from a closed, initialised session the two calls
    together make exactly the three outside calls of one attachment: the
    loader appended to the body, [overflow] set on the html element and the
    frame appended to the body. *)
Theorem openSession_idempotent :
  ∀ w : World,
    (isOpen (this w) = true → openSession w = (w, inr tt))
    ∧ openSession (fst (openSession w)) = (fst (openSession w), inr tt)
    ∧ (∀ n, isOpen (this w) = false → iframe (this w) = Some n →
         trace (page (fst (openSession (fst (openSession w))))) =
         trace (page w) ++ [EAppend NBody (NNew (nextNode (page w)));
                            ESetStyle NHtml "overflow" "hidden";
                            EAppend NBody n]).
Proof.
  intros w. split; [apply openSession_open|].
  pose proof (openSession_open _ (openSession_isOpen w)) as Hagain.
  split; [exact Hagain|].
  intros n Hclosed Hframe. rewrite Hagain. simpl.
  by apply openSession_trace.
Qed.

Lemma openSession_idempotent_witness :
  trace (page (fst (openSession (fst (openSession modal_session))))) =
  trace (page modal_session) ++ [EAppend NBody (NNew 2);
                                 ESetStyle NHtml "overflow" "hidden";
                                 EAppend NBody (NNew 1)].
Proof.
  apply (proj2 (proj2 (openSession_idempotent modal_session)) (NNew 1));
    reflexivity.
Defined.

(** C3, on the code.  A first [closeFlow()] on an open session returns;
    [closeFlow()] called again on the session it closed throws the
    [NotFoundError] of [document.body.removeChild]: the frame is no longer
    a child of the body. *)
Theorem closeFlow_again_throws :
  snd (closeFlow active_session) = inr tt
  ∧ isOpen (this closed_session) = false
  ∧ snd (closeFlow closed_session) = inl NotFoundError.
Proof. repeat split; reflexivity. Qed.

(** The dispatcher, statement by statement. *)
Lemma dispatcher_eq (d : MsgData) (w : World) :
  dispatcher d w =
  match d with
  | DNullish => (w, inl TypeError)
  | DObject ty =>
      if includes ["finish"; "close"] ty then
        match (if strict_eq (type (this w)) (VStr "modal")
               then closeFlow w else (w, inr tt)) with
        | (w', inr _) =>
            match callbacks (this w') !! ToString ty with
            | Some f => emit (ECallback (ToString ty) f) w'
            | None => (w', inr tt)
            end
        | (w', inl e) => (w', inl e)
        end
      else (w, inr tt)
  end.
Proof.
  destruct d as [|ty]; [reflexivity|].
  unfold dispatcher, data_type, bind, ret, field, read, skip.
  destruct (includes ["finish"; "close"] ty); [|reflexivity]. simpl.
  destruct (strict_eq (type (this w)) (VStr "modal")).
  - destruct (closeFlow w) as [w' [e|[]]]; [reflexivity|].
    by destruct (callbacks _ !! _).
  - simpl. by destruct (callbacks _ !! _).
Qed.

Lemma includes_finish_close (t : string) :
  t ∈ ["finish"; "close"] → includes ["finish"; "close"] (VStr t) = true.
Proof.
  intros Ht. repeat (apply elem_of_cons in Ht as [->|Ht]); [done..|].
  by apply elem_of_nil in Ht.
Qed.

(** C2, as the code has it.  However it is reached -- called by the host,
    or by the dispatcher on a [finish] or [close] message in modal mode --
    and whether it returns or throws, [closeFlow] leaves [isOpen] false and
    the inline [overflow] and [margin] of the html and body elements
    removed, every other inline declaration being as it was. *)
Theorem close_restores_layout :
  ∀ w : World,
    (isOpen (this (fst (closeFlow w))) = false
     ∧ layout_restored w (fst (closeFlow w)))
    ∧ (∀ t : string,
         type (this w) = VStr "modal" → t ∈ ["finish"; "close"] →
         isOpen (this (fst (dispatcher (DObject (VStr t)) w))) = false
         ∧ layout_restored w (fst (dispatcher (DObject (VStr t)) w))).
Proof.
  intros w. split.
  - split; [apply closeFlow_isOpen|]. apply deleted_restored, closeFlow_style.
  - intros t Hmode Ht.
    assert (fst (dispatcher (DObject (VStr t)) w) = fst (closeFlow w)
            ∨ ∃ cb, fst (dispatcher (DObject (VStr t)) w)
                    = fst (emit (ECallback t cb) (fst (closeFlow w)))) as Hd.
    { rewrite dispatcher_eq, includes_finish_close, Hmode by done. simpl.
      destruct (closeFlow w) as [w' [e|[]]]; simpl; [by left|].
      destruct (callbacks (this w') !! t) as [cb|]; [right; by exists cb|by left]. }
    destruct Hd as [->| [cb ->]].
    + split; [apply closeFlow_isOpen|]. apply deleted_restored, closeFlow_style.
    + unfold emit, write. simpl.
      split; [apply closeFlow_isOpen|]. apply deleted_restored, closeFlow_style.
Qed.

Lemma close_restores_layout_witness :
  isOpen (this (fst (dispatcher finish active_session))) = false
  ∧ layout_restored active_session (fst (dispatcher finish active_session)).
Proof.
  apply (proj2 (close_restores_layout active_session) "finish");
    [reflexivity | set_solver].
Defined.

(** C2, counterexample.  The overrides are removed, not restored.  On a
    page whose host gave the html element [overflow: scroll] and the body
    [margin: 0] inline, [openSession()] sets the html overflow to [hidden]
    and [closeFlow()], which returns, removes both declarations: the page
    does not get back the layout it had before the session was opened. *)
Lemma close_removes_host_layout :
  reachable styled_session
  ∧ isOpen (this styled_session) = false
  ∧ style (page styled_session) !! (NHtml, "overflow") = Some "scroll"
  ∧ style (page styled_session) !! (NBody, "margin") = Some "0"
  ∧ style (page (fst (openSession styled_session))) !! (NHtml, "overflow")
    = Some "hidden"
  ∧ snd (closeFlow (fst (openSession styled_session))) = inr tt
  ∧ isOpen (this (fst (closeFlow (fst (openSession styled_session))))) = false
  ∧ style (page (fst (closeFlow (fst (openSession styled_session)))))
      !! (NHtml, "overflow") = None
  ∧ style (page (fst (closeFlow (fst (openSession styled_session)))))
      !! (NBody, "margin") = None
  ∧ ¬ layout_as_before styled_session
        (fst (closeFlow (fst (openSession styled_session)))).
Proof.
  split.
  { apply reach_step.
    apply (reach_new (VStr "abc") (VStr "individual") VUndefined ∅ host_styles).
    reflexivity. }
  repeat (split; [vm_compute; reflexivity|]).
  intros H.
  assert ((NHtml, "overflow") ∈ layout_overrides) as Hin.
  { unfold layout_overrides. constructor. }
  specialize (H _ Hin). vm_compute in H. discriminate H.
Qed.

Lemma closeFlow_callbacks (w : World) :
  callbacks (this (fst (closeFlow w))) = callbacks (this w).
Proof.
  unfold closeFlow. unfold_prims. simpl.
  repeat case_match; simplify_eq/=; reflexivity.
Qed.

Lemma closeFlow_returns (w : World) :
  snd (closeFlow w) = inr tt →
  (∀ n, iframe (this (fst (closeFlow w))) = Some n →
        parent (page (fst (closeFlow w))) !! n = None)
  ∧ providerProxyUninstaller (this (fst (closeFlow w))) = None
  ∧ (∀ h, providerProxyUninstaller (this w) = Some h →
          h ∉ activeProxies (page (fst (closeFlow w)))).
Proof.
  unfold closeFlow. unfold_prims. simpl.
  destruct (iframe (this w)) as [n|] eqn:Hf; simpl.
  - destruct (decide _) as [Hp|Hp]; simpl; [|discriminate].
    destruct (providerProxyUninstaller (this w)) as [h|] eqn:Hu; simpl;
      rewrite ?Hf, ?Hu; intros _;
      (split; [intros ? [= <-]; apply lookup_delete_eq|]);
      (split; [reflexivity|]); intros h' [= <-].
    rewrite list_elem_of_filter. tauto.
  - destruct (providerProxyUninstaller (this w)) as [h|] eqn:Hu; simpl;
      rewrite ?Hf, ?Hu; intros _; (split; [discriminate|]);
      (split; [reflexivity|]); intros h' [= <-].
    rewrite list_elem_of_filter. tauto.
Qed.

(** C10. In modal mode the dispatcher, on a [finish] or [close] message
    with a callback registered for it, first runs [closeFlow].  If that
    returns, the callback is called in the world [closeFlow] left, as the
    last outside call: [isOpen] is false, the layout overrides are gone,
    the frame has no parent, no uninstaller is held and the one that was
    held has been called.  If [closeFlow] throws, the dispatcher throws
    with it and the callback is not called. *)
Theorem dispatcher_closes_before_callback :
  ∀ (w : World) (t : string) (cb : nat),
    type (this w) = VStr "modal" →
    t ∈ ["finish"; "close"] →
    callbacks (this w) !! t = Some cb →
    match snd (closeFlow w) with
    | inr _ =>
        dispatcher (DObject (VStr t)) w = emit (ECallback t cb) (fst (closeFlow w))
        ∧ trace (page (fst (dispatcher (DObject (VStr t)) w)))
          = trace (page (fst (closeFlow w))) ++ [ECallback t cb]
        ∧ isOpen (this (fst (closeFlow w))) = false
        ∧ layout_restored w (fst (closeFlow w))
        ∧ (∀ n, iframe (this (fst (closeFlow w))) = Some n →
                parent (page (fst (closeFlow w))) !! n = None)
        ∧ providerProxyUninstaller (this (fst (closeFlow w))) = None
        ∧ (∀ h, providerProxyUninstaller (this w) = Some h →
                h ∉ activeProxies (page (fst (closeFlow w))))
    | inl e => dispatcher (DObject (VStr t)) w = (fst (closeFlow w), inl e)
    end.
Proof.
  intros w t cb Hmode Ht Hcb.
  rewrite dispatcher_eq, includes_finish_close, Hmode by done. simpl.
  pose proof (closeFlow_callbacks w) as Hcbs.
  pose proof (closeFlow_returns w) as Hret.
  pose proof (closeFlow_isOpen w) as Hopen.
  pose proof (deleted_restored _ _ (closeFlow_style w)) as Hlay.
  destruct (closeFlow w) as [w' [e|[]]]; simpl in *; [reflexivity|].
  rewrite Hcbs, Hcb. destruct (Hret eq_refl) as (Hfr & Hun & Hact).
  split; [reflexivity|]. split; [reflexivity|]. split; [exact Hopen|].
  split; [exact Hlay|]. split; [exact Hfr|]. split; [exact Hun | exact Hact].
Qed.

Lemma dispatcher_closes_before_callback_witness :
  dispatcher finish (exec active_session (AOn "finish" 7))
  = emit (ECallback "finish" 7)
      (fst (closeFlow (exec active_session (AOn "finish" 7))))
  ∧ isOpen (this (fst (closeFlow (exec active_session (AOn "finish" 7))))) = false.
Proof.
  pose proof (dispatcher_closes_before_callback
                (exec active_session (AOn "finish" 7)) "finish" 7
                eq_refl ltac:(set_solver) eq_refl) as H.
  change (snd (closeFlow (exec active_session (AOn "finish" 7))))
    with (@inr Exn unit tt) in H.
  destruct H as (H1 & _ & H3 & _). split; [exact H1 | exact H3].
Defined.

(** ** Nothing but [init] writes the display options *)

Ltac frame_tac :=
  unfold same_settings, settings; unfold_prims; simpl;
  repeat case_match; simplify_eq/=; done.

Lemma on_settings t cb w : same_settings w (fst (on t cb w)).
Proof. unfold on. frame_tac. Qed.

Lemma openSession_settings w : same_settings w (fst (openSession w)).
Proof. unfold openSession. frame_tac. Qed.

Lemma closeFlow_settings w : same_settings w (fst (closeFlow w)).
Proof. unfold closeFlow. frame_tac. Qed.

Lemma getFlow_settings w : same_settings w (fst (getFlow w)).
Proof. unfold getFlow. frame_tac. Qed.

Lemma initEmbed_settings w : same_settings w (fst (_initEmbed w)).
Proof. unfold _initEmbed, getFlow. frame_tac. Qed.

Lemma dispatcher_settings d w : same_settings w (fst (dispatcher d w)).
Proof.
  rewrite dispatcher_eq. pose proof (closeFlow_settings w) as Hc.
  destruct d as [|ty]; [done|]. destruct (includes _ ty); [|done].
  destruct (strict_eq _ _).
  - destruct (closeFlow w) as [w' [e|[]]]; [done|]. simpl in Hc.
    destruct (callbacks _ !! _); done.
  - destruct (callbacks _ !! _); done.
Qed.

Lemma ready_listener_settings i d w : same_settings w (fst (ready_listener i d w)).
Proof. unfold ready_listener, data_type, _initEvents. frame_tac. Qed.

Lemma click_listener_settings t w : same_settings w (fst (click_listener t w)).
Proof.
  unfold click_listener. unfold_prims. simpl.
  case_match; [apply openSession_settings|done].
Qed.

Lemma report_settings {A} (r : World * (Exn + A)) w :
  same_settings w (fst r) → same_settings w (report r).
Proof. by destruct r as [w' [e|a]]. Qed.

Lemma same_settings_trans w1 w2 w3 :
  same_settings w1 w2 → same_settings w2 w3 → same_settings w1 w3.
Proof. unfold same_settings. intros [-> ->] [-> ->]. done. Qed.

Lemma run_listener_settings d w i : same_settings w (run_listener d w i).
Proof.
  unfold run_listener. repeat case_match; try done.
  - apply report_settings, ready_listener_settings.
  - apply report_settings, dispatcher_settings.
Qed.

Lemma deliver_settings d w : same_settings w (deliver d w).
Proof.
  unfold deliver. generalize (seq 0 (length (msgListeners (page w)))).
  intros l. revert w. induction l as [|i l IH]; intros w; [done|].
  simpl. eapply same_settings_trans; [apply run_listener_settings|apply IH].
Qed.

Lemma click_settings t w : same_settings w (click t w).
Proof.
  unfold click. generalize (clickListeners (page w)). intros n.
  induction n as [|n IH]; [done|]. simpl.
  eapply same_settings_trans; [exact IH|].
  apply report_settings, click_listener_settings.
Qed.

Lemma timer_settings w : same_settings w (timer w).
Proof.
  unfold timer. destruct (timers (page w)) as [|k]; [done|].
  apply report_settings.
  eapply same_settings_trans; [|apply initEmbed_settings]. done.
Qed.

(** ** Initialisation *)

Lemma init_done (o : option Opt.t) (w : World) :
  alreadyInit (this w) = true → init o w = (w, inr tt).
Proof. intros H. unfold init. unfold_prims. by rewrite H. Qed.

Lemma init_rejects (o : option Opt.t) (w : World) :
  alreadyInit (this w) = false →
  truthy (opt Opt.type o) = true →
  includes ["modal"; "embed"] (opt Opt.type o) = false →
  init o w = (w, inl (Error type_msg)).
Proof.
  intros H1 H2 H3. unfold init. unfold_prims. by rewrite H1, H2, H3.
Qed.

Lemma initEmbed_returns (w : World) : snd (_initEmbed w) = inr tt.
Proof.
  unfold _initEmbed, getFlow. unfold_prims.
  destruct (truthy (elementID (this w))); [|reflexivity]. simpl.
  destruct (decide _) as [Hin|Hin]; [|reflexivity]. simpl.
  destruct (iframe (this w)); simpl.
  - destruct (decide _); [reflexivity|done].
  - destruct (decide _); [reflexivity|done].
Qed.

Lemma initLoad_returns (w : World) : snd (_initLoad w) = inr tt.
Proof.
  unfold _initLoad, bind, field, read. simpl.
  destruct (strict_eq _ _).
  - reflexivity.
  - pose proof (initEmbed_returns w) as H.
    destruct (_initEmbed w) as [w' [e|[]]]; [discriminate|reflexivity].
Qed.

Lemma initLoad_settings (w : World) : same_settings w (fst (_initLoad w)).
Proof.
  unfold _initLoad, bind, field, read. simpl.
  destruct (strict_eq _ _).
  - done.
  - pose proof (initEmbed_settings w) as H.
    destruct (_initEmbed w) as [w' [e|[]]]; done.
Qed.

Lemma init_accepts (o : option Opt.t) (w : World) :
  alreadyInit (this w) = false →
  truthy (opt Opt.type o) && negb (includes ["modal"; "embed"] (opt Opt.type o)) = false →
  snd (init o w) = inr tt
  ∧ alreadyInit (this (fst (init o w))) = true
  ∧ settings (this (fst (init o w))) = settings_of o.
Proof.
  intros H1 H2. unfold init. unfold_prims. rewrite H1, H2. simpl.
  unfold settings_of.
  destruct (truthy (opt Opt.element_id o)) eqn:He; simpl;
    match goal with |- context [_initLoad ?W] =>
      pose proof (initLoad_returns W) as Hr;
      pose proof (initLoad_settings W) as [Hs _];
      destruct (_initLoad W) as [w2 [e|[]]]
    end; try discriminate; simpl in *;
    (split; [reflexivity|]); (split; [reflexivity|]);
    unfold settings in *; simpl in *; rewrite Hs; reflexivity.
Qed.

Lemma init_returns_initialised (o : option Opt.t) (w w1 : World) :
  init o w = (w1, inr tt) → alreadyInit (this w1) = true.
Proof.
  intros H. destruct (alreadyInit (this w)) eqn:Hi.
  - rewrite init_done in H by done. by simplify_eq.
  - destruct (truthy (opt Opt.type o)
              && negb (includes ["modal"; "embed"] (opt Opt.type o))) eqn:Hv.
    + apply andb_true_iff in Hv as [Hv1 Hv2]. apply negb_true_iff in Hv2.
      rewrite init_rejects in H by done. discriminate.
    + destruct (init_accepts o w Hi Hv) as (_ & Ha & _). by rewrite H in Ha.
Qed.

Lemma exec_settings (w : World) (a : Action) :
  alreadyInit (this w) = true → same_settings w (exec w a).
Proof.
  intros Hi. destruct a; simpl.
  - by rewrite init_done.
  - apply on_settings.
  - apply openSession_settings.
  - apply closeFlow_settings.
  - apply getFlow_settings.
  - apply deliver_settings.
  - apply click_settings.
  - apply timer_settings.
  - done.
Qed.

Lemma run_settings (acts : list Action) (w : World) :
  alreadyInit (this w) = true → same_settings w (foldl exec w acts).
Proof.
  revert w. induction acts as [|a acts IH]; intros w Hi; [done|]. simpl.
  pose proof (exec_settings w a Hi) as Ha.
  eapply same_settings_trans; [exact Ha|]. apply IH.
  destruct Ha as [_ ->]. exact Hi.
Qed.

(** C6. After an [init] call that returned, whatever happens to the client
    next, every further [init] call returns without changing anything, and
    mount point id, colors, mode, language and tier stay what they were
    after that first call -- for a first call on a fresh client, the values
    taken from its options. *)
Theorem init_idempotent :
  ∀ (w w1 : World) (o : option Opt.t),
    init o w = (w1, inr tt) →
    (alreadyInit (this w) = false → settings (this w1) = settings_of o)
    ∧ ∀ (acts : list Action) (o' : option Opt.t),
        init o' (foldl exec w1 acts) = (foldl exec w1 acts, inr tt)
        ∧ settings (this (foldl exec w1 acts)) = settings (this w1).
Proof.
  intros w w1 o Hinit.
  pose proof (init_returns_initialised _ _ _ Hinit) as Hi. split.
  - intros Hfresh.
    destruct (truthy (opt Opt.type o)
              && negb (includes ["modal"; "embed"] (opt Opt.type o))) eqn:Hv.
    + apply andb_true_iff in Hv as [Hv1 Hv2]. apply negb_true_iff in Hv2.
      rewrite init_rejects in Hinit by done. discriminate.
    + destruct (init_accepts o w Hfresh Hv) as (_ & _ & Hs).
      by rewrite Hinit in Hs.
  - intros acts o'. destruct (run_settings acts w1 Hi) as [Hs Ha].
    split; [|exact Hs]. apply init_done. by rewrite Ha.
Qed.

Lemma init_idempotent_witness :
  init (options_of "modal") (foldl exec embed_session [AOpenSession; AMessage ready])
  = (foldl exec embed_session [AOpenSession; AMessage ready], inr tt)
  ∧ settings (this (foldl exec embed_session [AOpenSession; AMessage ready]))
    = settings (this embed_session).
Proof.
  apply (proj2 (init_idempotent sample embed_session (options_of "embed")
                  ltac:(vm_compute; reflexivity))
           [AOpenSession; AMessage ready] (options_of "modal")).
Defined.

(** C7. On a client that is not yet initialised, [init] with a mode that
    is present (truthy, as the guard [options.type &&] tests it) and is
    neither ['modal'] nor ['embed'] throws the [Error] saying so and leaves
    the world as it was: no field is written and [alreadyInit] stays false.
    An [init] with a valid mode then goes through and stores its options. *)
Theorem init_rejects_unknown_mode :
  ∀ (w : World) (o : Opt.t),
    alreadyInit (this w) = false →
    truthy (Opt.type o) = true →
    Opt.type o ≠ VStr "modal" →
    Opt.type o ≠ VStr "embed" →
    init (Some o) w = (w, inl (Error type_msg))
    ∧ ∀ o' : Opt.t,
        Opt.type o' = VStr "modal" ∨ Opt.type o' = VStr "embed" →
        snd (init (Some o') (fst (init (Some o) w))) = inr tt
        ∧ alreadyInit (this (fst (init (Some o') (fst (init (Some o) w))))) = true
        ∧ settings (this (fst (init (Some o') (fst (init (Some o) w)))))
          = settings_of (Some o').
Proof.
  intros w o Hfresh Htruthy Hm He.
  assert (init (Some o) w = (w, inl (Error type_msg))) as Hrej.
  { apply init_rejects; [done..|]. unfold includes, strict_eq. simpl.
    by rewrite !bool_decide_eq_false_2. }
  split; [exact Hrej|]. intros o' Hvalid. rewrite Hrej. simpl.
  apply init_accepts; [done|]. unfold includes, strict_eq. simpl.
  destruct Hvalid as [-> | ->]; reflexivity.
Qed.

Lemma init_rejects_unknown_mode_witness :
  init (options_of "popup") sample = (sample, inl (Error type_msg)).
Proof.
  apply (init_rejects_unknown_mode sample
           {| Opt.element_id := VUndefined; Opt.colors := None;
              Opt.type := VStr "popup"; Opt.lang := VUndefined;
              Opt.tier := VUndefined |});
    [vm_compute; reflexivity | reflexivity | discriminate | discriminate].
Defined.

(** ** The invariant holds of every reachable world *)

Lemma openSession_Inv (w : World) : Inv w → Inv (fst (openSession w)).
Proof.
  intros [I1 I2 I3 I4 I5]. unfold openSession. unfold_prims.
  destruct (isOpen (this w)); [by constructor|]. simpl.
  destruct (iframe (this w)) as [n|] eqn:Hf; simpl.
  - destruct (I3 n eq_refl) as (kf & -> & Hkf).
    constructor; simpl; rewrite ?Hf.
    + exact I1.
    + intros k Hk. rewrite !lookup_insert_ne by (intros [=]; lia).
      apply I2. lia.
    + intros ? [= <-]. exists kf. split; [done|lia].
    + intros e [= <-]. exists (nextNode (page w)).
      split; [done|]. split; [lia|]. split; [intros [=]; lia|].
      intros _. rewrite lookup_insert_ne by (intros [=]; lia).
      apply lookup_insert_eq.
    + intros _ _ _. by eexists.
  - constructor; simpl; rewrite ?Hf.
    + exact I1.
    + intros k Hk. rewrite !lookup_insert_ne by (intros [=]; lia).
      apply I2. lia.
    + discriminate.
    + intros e [= <-]. exists (nextNode (page w)).
      split; [done|]. split; [lia|]. split; [discriminate|].
      intros _. apply lookup_insert_eq.
    + discriminate.
Qed.

(** The invariant reads seven fields; a step that leaves them alone, or
    detaches the loader while the dispatcher is (or becomes) registered,
    keeps it. *)
Lemma Inv_core (w w' : World) :
  Inv w →
  alreadyInit (this w') = alreadyInit (this w) →
  iframe (this w') = iframe (this w) →
  loaderElement (this w') = loaderElement (this w) →
  loader (this w') = loader (this w) →
  nextNode (page w') = nextNode (page w) →
  (parent (page w') = parent (page w)
   ∨ ∃ k, loader (this w) = Some (NNew k)
          ∧ parent (page w') = delete (NNew k) (parent (page w))
          ∧ LDispatch ∈ msgListeners (page w')) →
  (msgListeners (page w') = msgListeners (page w)
   ∨ msgListeners (page w) = [LReady false]
     ∧ msgListeners (page w') = [LReady true; LDispatch]) →
  Inv w'.
Proof.
  intros [I1 I2 I3 I4 I5] Ha Hf Hle Hl Hn Hp Hm.
  constructor; rewrite ?Ha, ?Hf, ?Hle, ?Hl, ?Hn.
  - destruct (alreadyInit (this w)).
    + destruct Hm as [-> | [_ ->]]; [exact I1 | by right].
    + destruct Hm as [-> | [Hm _]]; [exact I1 | by rewrite Hm in I1].
  - intros k Hk. destruct Hp as [-> | (kl & _ & -> & _)]; [by apply I2|].
    apply lookup_delete_None. right. by apply I2.
  - exact I3.
  - intros e He. destruct (I4 e He) as (k & Hk1 & Hk2 & Hk3 & Hk4).
    exists k. split; [done|]. split; [done|]. split; [done|].
    intros Hnd. destruct Hp as [-> | (kl & _ & _ & Hin)]; [|done].
    apply Hk4. destruct Hm as [<- | [-> _]]; [done|].
    intros Hin. apply list_elem_of_singleton in Hin. discriminate.
  - intros n Hn' Hsome. apply (I5 n Hn').
    destruct Hp as [<- | (kl & Hkl & Hp & _)]; [done|].
    rewrite Hp in Hsome. destruct (decide (NNew kl = n)) as [<-|Hne].
    + rewrite lookup_delete_eq in Hsome. by destruct Hsome.
    + by rewrite lookup_delete_ne in Hsome.
Qed.

Ltac same_core H :=
  apply (Inv_core _ _ H); try reflexivity; left; reflexivity.

Lemma on_Inv t cb (w : World) : Inv w → Inv (fst (on t cb w)).
Proof. intros H. unfold on. unfold_prims. simpl. same_core H. Qed.

Lemma getFlow_Inv (w : World) : Inv w → Inv (fst (getFlow w)).
Proof.
  intros H. unfold getFlow. unfold_prims. simpl.
  destruct (iframe (this w)); simpl; same_core H.
Qed.

Lemma host_add_Inv id (w : World) : Inv w → Inv (host_add id w).
Proof. intros H. unfold host_add. same_core H. Qed.

Lemma report_Inv {A} (r : World * (Exn + A)) : Inv (fst r) → Inv (report r).
Proof. destruct r as [w [e|a]]; simpl; [|done]. intros H. same_core H. Qed.

Lemma closeFlow_Inv (w : World) : Inv w → Inv (fst (closeFlow w)).
Proof.
  intros H. unfold closeFlow. unfold_prims. simpl.
  destruct (iframe (this w)) as [n|] eqn:Hf; simpl.
  - destruct (decide (parent (page w) !! n = Some NBody)) as [Hp|Hp]; simpl;
      [|same_core H].
    assert (Inv (on_page (λ p, set_parent (delete n (parent p)) p) w)) as H'.
    { destruct H as [I1 I2 I3 I4 I5]. constructor; simpl.
      - exact I1.
      - intros k Hk. apply lookup_delete_None. right. by apply I2.
      - exact I3.
      - intros e He. destruct (I4 e He) as (k & Hk1 & Hk2 & Hk3 & Hk4).
        exists k. split; [done|]. split; [done|]. split; [done|].
        intros Hnd. rewrite lookup_delete_ne by congruence. by apply Hk4.
      - intros n' Hn' Hsome. rewrite Hf in Hn'. injection Hn' as <-.
        rewrite lookup_delete_eq in Hsome. by destruct Hsome. }
    destruct (providerProxyUninstaller (this w)); simpl; same_core H'.
  - destruct (providerProxyUninstaller (this w)); simpl; same_core H.
Qed.

Lemma dispatcher_Inv d (w : World) : Inv w → Inv (fst (dispatcher d w)).
Proof.
  intros H. rewrite dispatcher_eq. pose proof (closeFlow_Inv w H) as Hc.
  destruct d as [|ty]; [done|]. destruct (includes _ ty); [|done].
  destruct (strict_eq _ _).
  - destruct (closeFlow w) as [w' [e|[]]]; [done|]. simpl in Hc.
    destruct (callbacks _ !! _); [|done]. unfold_prims. simpl. same_core Hc.
  - destruct (callbacks _ !! _); [|done]. unfold_prims. simpl. same_core H.
Qed.

Lemma click_listener_Inv t (w : World) : Inv w → Inv (fst (click_listener t w)).
Proof.
  intros H. unfold click_listener. unfold_prims. simpl.
  case_match; [by apply openSession_Inv|done].
Qed.

Lemma click_Inv t (w : World) : Inv w → Inv (click t w).
Proof.
  intros H. unfold click. generalize (clickListeners (page w)). intros n.
  induction n as [|n IH]; [done|]. simpl.
  by apply report_Inv, click_listener_Inv.
Qed.

Lemma initEmbed_Inv (w : World) : Inv w → Inv (fst (_initEmbed w)).
Proof.
  intros H. unfold _initEmbed, getFlow. unfold_prims.
  destruct (truthy (elementID (this w))); [|done]. simpl.
  destruct (decide _) as [Hin|Hin]; simpl; [|same_core H].
  set (el := NHost (ToString (elementID (this w)))).
  destruct H as [I1 I2 I3 I4 I5].
  destruct (iframe (this w)) as [n|] eqn:Hf; simpl;
    (destruct (decide _) as [_|Hout]; [|done]); simpl.
  - destruct (I3 n eq_refl) as (kf & -> & Hkf).
    constructor; simpl; rewrite ?Hf.
    + exact I1.
    + intros k Hk. rewrite !lookup_insert_ne by (intros [=]; lia).
      apply I2. lia.
    + intros ? [= <-]. exists kf. split; [done|lia].
    + intros e [= <-]. exists (nextNode (page w)).
      split; [done|]. split; [lia|]. split; [intros [=]; lia|].
      intros _. apply lookup_insert_eq.
    + intros _ _ _. by eexists.
  - constructor; simpl; rewrite ?Hf.
    + exact I1.
    + intros k Hk. rewrite !lookup_insert_ne by (intros [=]; lia).
      apply I2. lia.
    + discriminate.
    + intros e [= <-]. exists (nextNode (page w)).
      split; [done|]. split; [lia|]. split; [discriminate|].
      intros _. apply lookup_insert_eq.
    + discriminate.
Qed.

Lemma timer_Inv (w : World) : Inv w → Inv (timer w).
Proof.
  intros H. unfold timer. destruct (timers (page w)) as [|k]; [done|].
  apply report_Inv, initEmbed_Inv. same_core H.
Qed.

(** Registering the ready listener completes an initialisation. *)
Lemma Inv_register (w w' : World) :
  Inv w →
  alreadyInit (this w) = false →
  alreadyInit (this w') = true →
  msgListeners (page w') = msgListeners (page w) ++ [LReady false] →
  iframe (this w') = iframe (this w) →
  loaderElement (this w') = loaderElement (this w) →
  loader (this w') = loader (this w) →
  nextNode (page w') = nextNode (page w) →
  parent (page w') = parent (page w) →
  Inv w'.
Proof.
  intros [I1 I2 I3 I4 I5] Ha Ha' Hm Hf Hle Hl Hn Hp.
  rewrite Ha in I1.
  constructor; rewrite ?Ha', ?Hf, ?Hle, ?Hl, ?Hn, ?Hp, ?Hm, ?I1; simpl.
  - by left.
  - exact I2.
  - exact I3.
  - intros e He. destruct (I4 e He) as (k & Hk1 & Hk2 & Hk3 & Hk4).
    exists k. split; [done|]. split; [done|]. split; [done|].
    intros _. apply Hk4. rewrite I1. apply not_elem_of_nil.
  - exact I5.
Qed.

Lemma initLoad_Inv (w : World) :
  Inv w → alreadyInit (this w) = false →
  Inv (on_this (set_alreadyInit true) (fst (_initLoad w))).
Proof.
  intros H Ha. unfold _initLoad, _initModal, bind, field, read. simpl.
  destruct (strict_eq _ _).
  - unfold_prims. simpl. by apply (Inv_register _ _ H).
  - pose proof (initEmbed_Inv w H) as He.
    pose proof (initEmbed_returns w) as Hr.
    pose proof (initEmbed_settings w) as [_ Hs].
    destruct (_initEmbed w) as [w' [e|[]]]; [discriminate|]. simpl in *.
    unfold_prims. simpl. apply (Inv_register _ _ He); try done.
    by rewrite Hs.
Qed.

Lemma init_Inv (o : option Opt.t) (w : World) : Inv w → Inv (fst (init o w)).
Proof.
  intros H. destruct (alreadyInit (this w)) eqn:Ha.
  { by rewrite init_done. }
  destruct (truthy (opt Opt.type o)
            && negb (includes ["modal"; "embed"] (opt Opt.type o))) eqn:Hv.
  { apply andb_true_iff in Hv as [Hv1 Hv2]. apply negb_true_iff in Hv2.
    by rewrite init_rejects. }
  unfold init. unfold_prims. rewrite Ha, Hv. simpl.
  assert (∀ f : Client → Client,
    (∀ c, alreadyInit (f c) = alreadyInit c) →
    (∀ c, iframe (f c) = iframe c) →
    (∀ c, loaderElement (f c) = loaderElement c) →
    (∀ c, loader (f c) = loader c) →
    Inv (on_this (set_iframe (Some (NNew (nextNode (page w)))))
           (on_page (set_nextNode (S (nextNode (page w)))) (on_this f w)))) as Hw1.
  { intros f F1 F2 F3 F4. destruct H as [I1 I2 I3 I4 I5].
    constructor; simpl; rewrite ?F1, ?F2, ?F3, ?F4.
    - exact I1.
    - intros k Hk. apply I2. lia.
    - intros ? [= <-]. eexists. split; [done|lia].
    - intros e He. destruct (I4 e He) as (k & Hk1 & Hk2 & Hk3 & Hk4).
      exists k. split; [done|]. split; [lia|]. split; [intros [=]; lia|done].
    - intros ? [= <-] Hsome. rewrite I2 in Hsome by lia. by destruct Hsome. }
  pose (f := λ c : Client,
    set_tier (opt Opt.tier o)
      (set_lang (or_else (opt Opt.lang o) (VStr "en"))
         (set_type (or_else (opt Opt.type o) (VStr "modal"))
            (set_colors (Some (default no_colors (o ≫= Opt.colors)))
               (set_elementID (opt Opt.element_id o) c))))).
  pose proof (Hw1 f (λ _, eq_refl) (λ _, eq_refl) (λ _, eq_refl) (λ _, eq_refl))
    as Hf.
  destruct (truthy (opt Opt.element_id o)) eqn:He; simpl;
    match goal with |- context [_initLoad ?W] =>
      assert (Inv W) as HW;
      [| pose proof (initLoad_returns W) as Hr;
         pose proof (initLoad_Inv W HW Ha) as HI;
         destruct (_initLoad W) as [w2 [e|[]]]; [discriminate | exact HI] ]
    end.
  - exact Hf.
  - apply (Inv_core _ _ Hf); first [reflexivity | left; reflexivity].
Qed.

(** ** The ready listener *)

Lemma ready_listener_eq (i : nat) (d : MsgData) (w : World) :
  ready_listener i d w =
  match d with
  | DNullish => (w, inl TypeError)
  | DObject ty =>
      if strict_eq ty (VStr "ready") then
        match loaderElement (this w) with
        | Some e =>
            match loader (this w) with
            | Some l =>
                if decide (parent (page w) !! l = Some e)
                then (ready_rest i (ready_detach e l w), inr tt)
                else (w, inl NotFoundError)
            | None => (w, inl TypeError)
            end
        | None => (ready_rest i w, inr tt)
        end
      else (w, inr tt)
  end.
Proof.
  destruct d as [|ty]; [reflexivity|].
  unfold ready_listener, data_type, _initEvents, ready_rest, ready_register,
    ready_reveal, ready_install, ready_detach, eventInited.
  unfold_prims.
  destruct w as [c p].
  destruct c as [bu sid svc eid cols mode lg tr cbs op ai fr le lo un].
  simpl.
  destruct (strict_eq ty (VStr "ready")); [|reflexivity].
  destruct le as [e|]; simpl.
  - destruct lo as [l|]; simpl; [|reflexivity].
    destruct (decide _); simpl; [|reflexivity].
    destruct fr as [n|]; simpl;
      [destruct (bool_decide _); simpl|];
      destruct (strict_eq mode (VStr "embed")); simpl;
      destruct (msgListeners p !! i) as [[[]|]|]; reflexivity.
  - destruct fr as [n|]; simpl;
      [destruct (bool_decide _); simpl|];
      destruct (strict_eq mode (VStr "embed")); simpl;
      destruct (msgListeners p !! i) as [[[]|]|]; reflexivity.
Qed.

Lemma ready_rest_core (i : nat) (w : World) :
  alreadyInit (this (ready_rest i w)) = alreadyInit (this w)
  ∧ iframe (this (ready_rest i w)) = iframe (this w)
  ∧ loaderElement (this (ready_rest i w)) = loaderElement (this w)
  ∧ loader (this (ready_rest i w)) = loader (this w)
  ∧ nextNode (page (ready_rest i w)) = nextNode (page w)
  ∧ parent (page (ready_rest i w)) = parent (page w).
Proof.
  unfold ready_rest, ready_register, ready_reveal, ready_install, eventInited.
  unfold_prims. open_world w.
  destruct fr as [n|]; simpl;
    [destruct (bool_decide _); simpl|];
    destruct (strict_eq mode (VStr "embed")); simpl;
    destruct (msgListeners p !! i) as [[[]|]|]; done.
Qed.

Lemma ready_rest_listeners (i : nat) (b : bool) (w : World) :
  msgListeners (page w) = [LReady false]
  ∨ msgListeners (page w) = [LReady true; LDispatch] →
  msgListeners (page w) !! i = Some (LReady b) →
  msgListeners (page (ready_rest i w)) = [LReady true; LDispatch].
Proof.
  intros Hshape Hi.
  assert (i = 0) as ->.
  { destruct Hshape as [Hs|Hs]; rewrite Hs in Hi;
      destruct i as [|[|i]]; simplify_eq/=; done. }
  unfold ready_rest, ready_register, ready_reveal, ready_install, eventInited.
  unfold_prims. open_world w.
  destruct fr as [n|]; simpl;
    [destruct (bool_decide _); simpl|];
    destruct (strict_eq mode (VStr "embed")); simpl;
    destruct Hshape as [Hs|Hs]; rewrite Hs; simpl; rewrite ?Hs; reflexivity.
Qed.

Lemma Inv_listeners_shape (w : World) (i : nat) (l : Listener) :
  Inv w → msgListeners (page w) !! i = Some l →
  msgListeners (page w) = [LReady false]
  ∨ msgListeners (page w) = [LReady true; LDispatch].
Proof.
  intros [I1 _ _ _ _] Hi. destruct (alreadyInit (this w)); [done|].
  by rewrite I1 in Hi.
Qed.

Lemma ready_listener_Inv (i : nat) (b : bool) (d : MsgData) (w : World) :
  Inv w → msgListeners (page w) !! i = Some (LReady b) →
  Inv (fst (ready_listener i d w)).
Proof.
  intros H Hi. rewrite ready_listener_eq.
  pose proof (Inv_listeners_shape _ _ _ H Hi) as Hshape.
  destruct d as [|ty]; [done|].
  destruct (strict_eq ty (VStr "ready")); [|done].
  destruct (loaderElement (this w)) as [e|] eqn:Hle.
  - destruct (inv_loader w H e Hle) as (k & Hk & _). rewrite Hk.
    destruct (decide _) as [Hp|Hp]; [|done]. simpl.
    pose proof (ready_rest_core i (ready_detach e (NNew k) w))
      as (C1 & C2 & C3 & C4 & C5 & C6).
    pose proof (ready_rest_listeners i b (ready_detach e (NNew k) w) Hshape Hi)
      as Hls.
    apply (Inv_core _ _ H); try done.
    + right. exists k. split; [done|]. split; [done|]. rewrite Hls. set_solver.
    + rewrite Hls. destruct Hshape as [Hs|Hs]; [by right | by left].
  - simpl.
    pose proof (ready_rest_core i w) as (C1 & C2 & C3 & C4 & C5 & C6).
    pose proof (ready_rest_listeners i b w Hshape Hi) as Hls.
    apply (Inv_core _ _ H); try done; [by left|].
    rewrite Hls. destruct Hshape as [Hs|Hs]; [by right | by left].
Qed.

Lemma run_listener_Inv (d : MsgData) (w : World) (i : nat) :
  Inv w → Inv (run_listener d w i).
Proof.
  intros H. unfold run_listener.
  destruct (msgListeners (page w) !! i) as [[b|]|] eqn:Hi; [| |done].
  - by eapply report_Inv, ready_listener_Inv.
  - by apply report_Inv, dispatcher_Inv.
Qed.

Lemma deliver_Inv (d : MsgData) (w : World) : Inv w → Inv (deliver d w).
Proof.
  unfold deliver. generalize (seq 0 (length (msgListeners (page w)))).
  intros l. revert w. induction l as [|i l IH]; intros w H; [done|].
  simpl. by apply IH, run_listener_Inv.
Qed.

Lemma exec_Inv (w : World) (a : Action) : Inv w → Inv (exec w a).
Proof.
  intros H. destruct a; simpl.
  - by apply init_Inv.
  - by apply on_Inv.
  - by apply openSession_Inv.
  - by apply closeFlow_Inv.
  - by apply getFlow_Inv.
  - by apply deliver_Inv.
  - by apply click_Inv.
  - by apply timer_Inv.
  - by apply host_add_Inv.
Qed.

Lemma construct_Inv sid svc url ids st (w : World) :
  construct sid svc url (new_page ids st) = inr w → Inv w.
Proof.
  unfold construct. destruct (_ || _); [discriminate|]. intros [= <-].
  unfold _initStyle. unfold_prims. constructor; simpl; try done.
  intros k Hk. rewrite lookup_insert_ne by (intros [=]; lia). done.
Qed.

Theorem reachable_Inv (w : World) : reachable w → Inv w.
Proof.
  induction 1 as [sid svc url ids st w Hc | w a _ IH].
  - by eapply construct_Inv.
  - by apply exec_Inv.
Qed.

(** ** Delivering messages *)

Lemma dispatcher_ignores (d : MsgData) (w : World) :
  is_finish_or_close d = false →
  report (dispatcher d w) =
  match d with
  | DNullish => on_page (λ p, set_reported (reported p ++ [TypeError]) p) w
  | DObject _ => w
  end.
Proof.
  intros Hd. rewrite dispatcher_eq. destruct d as [|ty]; [reflexivity|].
  unfold is_finish_or_close in Hd. by rewrite Hd.
Qed.

Lemma deliver_first (d : MsgData) (w : World) :
  msgListeners (page w) = [LReady false] →
  deliver d w = report (ready_listener 0 d w).
Proof.
  intros Hl. unfold deliver. rewrite Hl. simpl.
  unfold run_listener. by rewrite Hl.
Qed.

Lemma ready_listener_listeners (d : MsgData) (w : World) :
  msgListeners (page w) = [LReady true; LDispatch] →
  msgListeners (page (report (ready_listener 0 d w))) = [LReady true; LDispatch].
Proof.
  intros Hl. rewrite ready_listener_eq.
  destruct d as [|ty]; [done|].
  destruct (strict_eq ty (VStr "ready")); [|done].
  destruct (loaderElement (this w)) as [e|].
  - destruct (loader (this w)) as [l|]; [|done].
    destruct (decide _); [|done]. simpl.
    apply (ready_rest_listeners 0 true); [right; exact Hl|].
    unfold ready_detach. simpl. by rewrite Hl.
  - simpl. apply (ready_rest_listeners 0 true); [by right | by rewrite Hl].
Qed.

Lemma deliver_registered (d : MsgData) (w : World) :
  msgListeners (page w) = [LReady true; LDispatch] →
  deliver d w = report (dispatcher d (report (ready_listener 0 d w))).
Proof.
  intros Hl. pose proof (ready_listener_listeners d w Hl) as Hl'.
  unfold deliver. rewrite Hl. simpl.
  unfold run_listener at 2. rewrite Hl. simpl.
  unfold run_listener. by rewrite Hl'.
Qed.

Lemma ready_rest_proxies (i : nat) (w : World) :
  activeProxies (page (ready_rest i w)) = activeProxies (page (ready_install w))
  ∧ providerProxyUninstaller (this (ready_rest i w))
    = providerProxyUninstaller (this (ready_install w)).
Proof.
  unfold ready_rest, ready_register, ready_reveal, eventInited.
  generalize (ready_install w). intros v. open_world v.
  destruct (strict_eq mode (VStr "embed")); simpl;
    [destruct fr; simpl|];
    destruct (msgListeners p !! i) as [[[]|]|]; done.
Qed.

Lemma ready_install_unattached (w : World) :
  (∀ n, iframe (this w) = Some n → parent (page w) !! n = None) →
  ready_install w = w.
Proof.
  intros Hn. unfold ready_install. destruct (iframe (this w)) as [n|]; [|done].
  rewrite (Hn n eq_refl). by rewrite bool_decide_eq_false_2 by (by intros [? ?]).
Qed.

Lemma ready_install_length (w : World) :
  length (activeProxies (page (ready_install w)))
  ≤ S (length (activeProxies (page w))).
Proof.
  unfold ready_install, installProviderProxyFor.
  destruct (iframe (this w)) as [n|]; [|lia].
  destruct (bool_decide _); simpl; lia.
Qed.

(** A [ready] delivered to an initialised session: afterwards the
    dispatcher is registered, the loader is detached, and at most one more
    proxy is installed. *)
Lemma deliver_ready_first (w : World) :
  Inv w → alreadyInit (this w) = true →
  msgListeners (page (deliver ready w)) = [LReady true; LDispatch]
  ∧ settled (deliver ready w)
  ∧ length (activeProxies (page (deliver ready w)))
    ≤ S (length (activeProxies (page w))).
Proof.
  intros H Ha. pose proof (inv_listeners w H) as Hshape. rewrite Ha in Hshape.
  assert (deliver ready w = report (ready_listener 0 ready w)) as ->.
  { destruct Hshape as [Hs|Hs].
    - by apply deliver_first.
    - rewrite deliver_registered by done.
      by rewrite dispatcher_ignores. }
  assert (∃ b, msgListeners (page w) !! 0 = Some (LReady b)) as [b Hi].
  { destruct Hshape as [Hs|Hs]; rewrite Hs; by eexists. }
  rewrite ready_listener_eq. simpl.
  destruct (loaderElement (this w)) as [e|] eqn:Hle.
  - destruct (inv_loader w H e Hle) as (k & Hk & _ & _ & Hatt). rewrite Hk.
    destruct (decide _) as [Hp|Hp]; simpl.
    + pose proof (ready_rest_core 0 (ready_detach e (NNew k) w))
        as (C1 & C2 & C3 & C4 & C5 & C6).
      pose proof (ready_rest_proxies 0 (ready_detach e (NNew k) w)) as [P1 P2].
      split; [by apply (ready_rest_listeners 0 b)|]. split.
      * unfold settled. rewrite C3, C4, C6. simpl. rewrite Hle, Hk.
        intros e' l' [= <-] [= <-]. by rewrite lookup_delete_eq.
      * rewrite P1. exact (ready_install_length (ready_detach e (NNew k) w)).
    + destruct Hshape as [Hs|Hs].
      { exfalso. apply Hp, Hatt. rewrite Hs. set_solver. }
      split; [done|]. split; [|simpl; lia].
      unfold settled. simpl. rewrite Hle, Hk. by intros e' l' [= <-] [= <-].
  - simpl. pose proof (ready_rest_core 0 w) as (C1 & C2 & C3 & C4 & C5 & C6).
    pose proof (ready_rest_proxies 0 w) as [P1 P2].
    split; [by apply (ready_rest_listeners 0 b)|]. split.
    + unfold settled. rewrite C3, Hle. by intros e' l'.
    + rewrite P1. apply ready_install_length.
Qed.

(** A [ready] delivered when the loader is already detached installs
    nothing and registers nothing. *)
Lemma deliver_ready_settled (w : World) :
  Inv w → msgListeners (page w) = [LReady true; LDispatch] → settled w →
  msgListeners (page (deliver ready w)) = [LReady true; LDispatch]
  ∧ activeProxies (page (deliver ready w)) = activeProxies (page w)
  ∧ providerProxyUninstaller (this (deliver ready w))
    = providerProxyUninstaller (this w).
Proof.
  intros H Hl Hset. rewrite deliver_registered by done.
  rewrite dispatcher_ignores by done.
  split; [by apply ready_listener_listeners|].
  rewrite ready_listener_eq. simpl.
  destruct (loaderElement (this w)) as [e|] eqn:Hle.
  - destruct (loader (this w)) as [l|] eqn:Hlo; [|done].
    destruct (decide _) as [Hp|Hp]; [|done]. by destruct (Hset e l).
  - simpl. pose proof (ready_rest_proxies 0 w) as [-> ->].
    rewrite ready_install_unattached; [done|].
    intros n Hn. destruct (parent (page w) !! n) eqn:Hp; [|done].
    destruct (inv_attached w H n Hn) as [? ?]; [by eexists|congruence].
Qed.

Lemma reachable_run (acts : list Action) (w : World) :
  reachable w → reachable (foldl exec w acts).
Proof.
  revert w. induction acts as [|a acts IH]; intros w H; [done|].
  simpl. apply IH. by constructor.
Qed.

Lemma reachable_sample : reachable sample.
Proof. eapply reach_new. exact construct_sample. Qed.

Lemma reachable_modal_session : reachable modal_session.
Proof. apply reach_step, reachable_sample. Qed.

Lemma reachable_opened_session : reachable opened_session.
Proof. apply reach_step, reachable_modal_session. Qed.

Lemma reachable_active_session : reachable active_session.
Proof. apply reach_step, reachable_opened_session. Qed.

Lemma reachable_embed_session : reachable embed_session.
Proof. apply reach_step, reachable_sample. Qed.

Lemma dispatchers_registered (w : World) :
  msgListeners (page w) = [LReady true; LDispatch] → dispatchers w = 1.
Proof. intros H. unfold dispatchers. rewrite H. reflexivity. Qed.

(** X16. In every reachable initialised session, after a [ready] message
    and after a second one right behind it the dispatcher is registered
    exactly once; the second [ready] installs no proxy and leaves the held
    uninstaller as it is, so the two together install at most one; and if
    no proxy was active before the first, at most one is active after
    each. *)
Theorem ready_twice_registers_once :
  ∀ w : World,
    reachable w → alreadyInit (this w) = true →
    dispatchers (deliver ready w) = 1
    ∧ dispatchers (deliver ready (deliver ready w)) = 1
    ∧ activeProxies (page (deliver ready (deliver ready w)))
      = activeProxies (page (deliver ready w))
    ∧ providerProxyUninstaller (this (deliver ready (deliver ready w)))
      = providerProxyUninstaller (this (deliver ready w))
    ∧ length (activeProxies (page (deliver ready (deliver ready w))))
      ≤ S (length (activeProxies (page w)))
    ∧ (activeProxies (page w) = [] →
       length (activeProxies (page (deliver ready w))) ≤ 1
       ∧ length (activeProxies (page (deliver ready (deliver ready w)))) ≤ 1).
Proof.
  intros w Hreach Ha. pose proof (reachable_Inv w Hreach) as H.
  destruct (deliver_ready_first w H Ha) as (Hl1 & Hset & Hlen).
  pose proof (deliver_Inv ready w H) as H1.
  destruct (deliver_ready_settled _ H1 Hl1 Hset) as (Hl2 & Hact & Hun).
  split; [by apply dispatchers_registered|].
  split; [by apply dispatchers_registered|].
  split; [exact Hact|]. split; [exact Hun|].
  rewrite Hact. split; [exact Hlen|].
  intros Hnone. rewrite Hnone in Hlen. simpl in Hlen. done.
Qed.

Lemma ready_twice_registers_once_witness :
  dispatchers (deliver ready (deliver ready opened_session)) = 1
  ∧ length (activeProxies (page (deliver ready (deliver ready opened_session)))) ≤ 1.
Proof.
  pose proof (ready_twice_registers_once opened_session
                reachable_opened_session
                ltac:(vm_compute; reflexivity)) as (_ & H2 & _ & _ & _ & H6).
  split; [exact H2|]. apply H6. vm_compute. reflexivity.
Defined.

(** C1, on the code.  The claim that at most one proxy is active at any
    time fails on the embed session that was closed and reopened after its
    first [ready].  That session is reachable and initialised, and one
    proxy is still active in it: [closeFlow] threw at
    [document.body.removeChild] before it reached the uninstaller.  A
    [ready] message then installs a second proxy next to the first, and
    both are still active after the second [ready]. *)
Lemma ready_with_two_active_proxies :
  reachable reopened_embed_session
  ∧ alreadyInit (this reopened_embed_session) = true
  ∧ snd (closeFlow (exec embed_session (AMessage ready))) = inl NotFoundError
  ∧ providerProxyUninstaller (this reopened_embed_session) = Some 0
  ∧ activeProxies (page reopened_embed_session) = [0]
  ∧ providerProxyUninstaller (this (deliver ready reopened_embed_session))
    = Some 1
  ∧ activeProxies (page (deliver ready reopened_embed_session)) = [1; 0]
  ∧ activeProxies (page (deliver ready (deliver ready reopened_embed_session)))
    = [1; 0]
  ∧ ¬ length (activeProxies (page (deliver ready reopened_embed_session))) ≤ 1.
Proof.
  split.
  { apply reachable_run, reachable_embed_session. }
  vm_compute. repeat split; try reflexivity. lia.
Qed.

(** ** Finish and close messages *)

Lemma closeFlow_attached (w : World) :
  (∀ n, iframe (this w) = Some n → parent (page w) !! n = Some NBody) →
  snd (closeFlow w) = inr tt.
Proof.
  intros Hatt. unfold closeFlow. unfold_prims. simpl.
  destruct (iframe (this w)) as [n|]; simpl.
  - rewrite (Hatt n eq_refl). simpl.
    by destruct (providerProxyUninstaller (this w)).
  - by destruct (providerProxyUninstaller (this w)).
Qed.

Lemma registered_shape (w : World) :
  Inv w → LDispatch ∈ msgListeners (page w) →
  msgListeners (page w) = [LReady true; LDispatch].
Proof.
  intros [I1 _ _ _ _] Hin. destruct (alreadyInit (this w)).
  - destruct I1 as [Hs|Hs]; [|done]. rewrite Hs in Hin. set_solver.
  - rewrite I1 in Hin. set_solver.
Qed.

Lemma ready_rest_quiet (i : nat) (w : World) :
  callback_calls (ready_rest i w) = callback_calls w
  ∧ close_calls (ready_rest i w) = close_calls w
  ∧ isOpen (this (ready_rest i w)) = isOpen (this w)
  ∧ style (page (ready_rest i w)) = style (page w).
Proof.
  unfold ready_rest, ready_register, ready_reveal, ready_install, eventInited,
    callback_calls, close_calls.
  unfold_prims. open_world w.
  destruct fr as [n|]; simpl;
    [destruct (bool_decide _); simpl|];
    destruct (strict_eq mode (VStr "embed")); simpl;
    destruct (msgListeners p !! i) as [[[]|]|]; simpl;
    rewrite ?omap_app, ?app_nil_r; done.
Qed.

(** The ready listener calls no callback and closes nothing, whatever the
    message. *)
Lemma ready_listener_quiet (d : MsgData) (w : World) :
  Inv w →
  callback_calls (report (ready_listener 0 d w)) = callback_calls w
  ∧ close_calls (report (ready_listener 0 d w)) = close_calls w
  ∧ isOpen (this (report (ready_listener 0 d w))) = isOpen (this w)
  ∧ style (page (report (ready_listener 0 d w))) = style (page w)
  ∧ (∀ n, iframe (this w) = Some n →
          parent (page (report (ready_listener 0 d w))) !! n
          = parent (page w) !! n).
Proof.
  intros H. rewrite ready_listener_eq.
  destruct d as [|ty]; [done|].
  destruct (strict_eq ty (VStr "ready")); [|done].
  destruct (loaderElement (this w)) as [e|] eqn:Hle.
  - destruct (inv_loader w H e Hle) as (k & Hk & _ & Hne & _). rewrite Hk.
    destruct (decide _) as [Hp|Hp]; [|done]. simpl.
    pose proof (ready_rest_quiet 0 (ready_detach e (NNew k) w))
      as (-> & -> & -> & ->).
    pose proof (ready_rest_core 0 (ready_detach e (NNew k) w))
      as (_ & _ & _ & _ & _ & ->).
    unfold callback_calls, close_calls. simpl.
    rewrite !omap_app, !app_nil_r.
    repeat split. intros n Hn. apply lookup_delete_ne. congruence.
  - simpl. pose proof (ready_rest_quiet 0 w) as (-> & -> & -> & ->).
    pose proof (ready_rest_core 0 w) as (_ & _ & _ & _ & _ & ->). done.
Qed.

(** C5, as the code has it.  In a reachable session whose dispatcher is
    registered (a [ready] has been handled) and which holds a callback for
    ['finish'], a [finish] message
    - in modal mode, the frame being attached to the body, runs
      [closeFlow] and then calls the callback;
    - in embed mode only calls the callback;
    and a message whose type is neither ['finish'] nor ['close'] calls no
    callback and closes nothing: [isOpen], the inline styles and the
    frame's parent stay as they are and no call of [closeFlow] is made. *)
Theorem finish_dispatch_by_mode :
  ∀ (w : World) (cb : nat),
    reachable w →
    LDispatch ∈ msgListeners (page w) →
    callbacks (this w) !! "finish" = Some cb →
    (type (this w) = VStr "modal" →
     (∀ n, iframe (this w) = Some n → parent (page w) !! n = Some NBody) →
     closeFlow w = (fst (closeFlow w), inr tt)
     ∧ deliver finish w = fst (emit (ECallback "finish" cb) (fst (closeFlow w))))
    ∧ (type (this w) = VStr "embed" →
       deliver finish w = fst (emit (ECallback "finish" cb) w))
    ∧ (∀ d : MsgData,
         is_finish_or_close d = false →
         callback_calls (deliver d w) = callback_calls w
         ∧ close_calls (deliver d w) = close_calls w
         ∧ isOpen (this (deliver d w)) = isOpen (this w)
         ∧ style (page (deliver d w)) = style (page w)
         ∧ (∀ n, iframe (this w) = Some n →
                 parent (page (deliver d w)) !! n = parent (page w) !! n)).
Proof.
  intros w cb Hreach Hreg Hcb. pose proof (reachable_Inv w Hreach) as H.
  pose proof (registered_shape w H Hreg) as Hl.
  assert (deliver finish w = report (dispatcher finish w)) as Hfin.
  { rewrite deliver_registered by done. by rewrite ready_listener_eq. }
  split; [|split].
  - intros Hmode Hatt. pose proof (closeFlow_attached w Hatt) as Hret.
    pose proof (closeFlow_callbacks w) as Hcbs.
    rewrite Hfin, dispatcher_eq. simpl. rewrite Hmode. simpl.
    destruct (closeFlow w) as [w' [e|[]]]; [discriminate|]. simpl in *.
    by rewrite Hcbs, Hcb.
  - intros Hmode. rewrite Hfin, dispatcher_eq. simpl. rewrite Hmode. simpl.
    by rewrite Hcb.
  - intros d Hd. rewrite deliver_registered by done.
    rewrite dispatcher_ignores by done.
    pose proof (ready_listener_quiet d w H) as Hq.
    destruct d; exact Hq.
Qed.

Lemma finish_dispatch_by_mode_witness :
  deliver finish (exec active_session (AOn "finish" 7))
  = fst (emit (ECallback "finish" 7)
           (fst (closeFlow (exec active_session (AOn "finish" 7))))).
Proof.
  apply (finish_dispatch_by_mode (exec active_session (AOn "finish" 7)) 7
           (reach_step _ _ reachable_active_session)
           ltac:(vm_compute; set_solver) ltac:(vm_compute; reflexivity)).
  - vm_compute. reflexivity.
  - intros n Hn. vm_compute in Hn. injection Hn as <-. vm_compute. reflexivity.
Defined.

(** C5, counterexample.  The modal session that was opened with a callback
    for ['finish'] registered, but whose frame has not signalled [ready],
    has no dispatcher yet: a [finish] message changes nothing -- the
    callback is not called and the session stays open. *)
Lemma finish_before_ready_is_ignored :
  reachable loading_session
  ∧ callbacks (this loading_session) !! "finish" = Some 7
  ∧ type (this loading_session) = VStr "modal"
  ∧ isOpen (this loading_session) = true
  ∧ deliver finish loading_session = loading_session
  ∧ callback_calls (deliver finish loading_session) = []
  ∧ isOpen (this (deliver finish loading_session)) = true.
Proof.
  split.
  { apply reachable_run, reachable_modal_session. }
  vm_compute. repeat split; reflexivity.
Qed.

(** * Further properties of the class *)

(** ** The frame handle *)

Lemma getFlow_eq (w : World) :
  getFlow w =
  match iframe (this w) with
  | Some n =>
      (on_page (λ p, set_attrs
                       (frame_attributes n (_formatURL (this w)) hidden_style
                          (attrs p)) p) w,
       inr (Some n))
  | None => (w, inr None)
  end.
Proof.
  unfold getFlow. unfold_prims. open_world w. by destruct fr.
Qed.

Lemma frame_attributes_again (n : Node) (src sty : string)
    (m : gmap (Node * string) string) :
  frame_attributes n src sty (frame_attributes n src sty m)
  = frame_attributes n src sty m.
Proof.
  unfold frame_attributes at 1.
  repeat (rewrite insert_id;
          [| unfold frame_attributes;
             rewrite ?lookup_insert_ne by (intros [=]);
             apply lookup_insert_eq]).
  reflexivity.
Qed.

(** X2. [getFlow()] never throws.  With a frame it returns the frame after
    giving it the current URL as [src] and the hidden style; it attaches or
    detaches nothing, makes no outside call, writes no field of the client,
    and a second call changes nothing more.  Without a frame (before
    [init]) it returns nothing and leaves the world as it is. *)
Theorem getFlow_prepares_hidden_frame :
  ∀ w : World,
    (∀ n, iframe (this w) = Some n →
       snd (getFlow w) = inr (Some n)
       ∧ attrs (page (fst (getFlow w))) !! (n, "src") = Some (_formatURL (this w))
       ∧ attrs (page (fst (getFlow w))) !! (n, "style") = Some hidden_style
       ∧ this (fst (getFlow w)) = this w
       ∧ parent (page (fst (getFlow w))) = parent (page w)
       ∧ style (page (fst (getFlow w))) = style (page w)
       ∧ trace (page (fst (getFlow w))) = trace (page w)
       ∧ msgListeners (page (fst (getFlow w))) = msgListeners (page w)
       ∧ getFlow (fst (getFlow w)) = getFlow w)
    ∧ (iframe (this w) = None → getFlow w = (w, inr None)).
Proof.
  intros w. rewrite getFlow_eq. split.
  - intros n Hn. rewrite Hn. simpl.
    split; [reflexivity|].
    split; [unfold frame_attributes;
            by rewrite !lookup_insert_ne, lookup_insert_eq by (intros [=])|].
    split; [apply lookup_insert_eq|].
    do 5 (split; [reflexivity|]).
    rewrite getFlow_eq. simpl. rewrite Hn. f_equal.
    unfold on_page. simpl. f_equal. destruct w as [c p]. destruct p.
    unfold set_attrs. simpl. f_equal. apply frame_attributes_again.
  - by intros ->.
Qed.

Lemma getFlow_prepares_hidden_frame_witness :
  snd (getFlow opened_session) = inr (Some (NNew 1))
  ∧ attrs (page (fst (getFlow opened_session))) !! (NNew 1, "style")
    = Some hidden_style.
Proof.
  destruct (proj1 (getFlow_prepares_hidden_frame opened_session) (NNew 1)
              ltac:(vm_compute; reflexivity)) as (H1 & _ & H3 & _).
  split; [exact H1 | exact H3].
Defined.

(** ** When [closeFlow] returns *)

Lemma closeFlow_eq (w : World) :
  closeFlow w =
  match iframe (this w) with
  | Some n =>
      if decide (parent (page w) !! n = Some NBody)
      then (close_proxy (close_detach n (close_layout w)), inr tt)
      else (close_layout w, inl NotFoundError)
  | None => (close_proxy (close_layout w), inr tt)
  end.
Proof.
  unfold closeFlow, close_proxy, close_detach, close_layout. unfold_prims.
  open_world w. destruct p. simpl.
  destruct fr as [n|]; simpl.
  - destruct (decide _); simpl;
      [destruct un; simpl|]; norm_world; by rewrite <- ?app_assoc.
  - destruct un; simpl; norm_world; by rewrite <- ?app_assoc.
Qed.

Lemma closeFlow_returns_iff (w : World) :
  snd (closeFlow w) = inr tt
  ↔ ∀ n, iframe (this w) = Some n → parent (page w) !! n = Some NBody.
Proof.
  rewrite closeFlow_eq. destruct (iframe (this w)) as [n|].
  - destruct (decide (parent (page w) !! n = Some NBody)) as [Hp|Hp]; simpl.
    + split; [by intros _ ? [= <-] | done].
    + split; [done | intros H; by destruct (Hp (H n eq_refl))].
  - simpl. split; [by intros _ ? [=] | done].
Qed.

Lemma closeFlow_thrown (w : World) :
  snd (closeFlow w) ≠ inr tt →
  snd (closeFlow w) = inl NotFoundError
  ∧ isOpen (this (fst (closeFlow w))) = false
  ∧ layout_restored w (fst (closeFlow w))
  ∧ parent (page (fst (closeFlow w))) = parent (page w)
  ∧ providerProxyUninstaller (this (fst (closeFlow w)))
    = providerProxyUninstaller (this w)
  ∧ activeProxies (page (fst (closeFlow w))) = activeProxies (page w)
  ∧ trace (page (fst (closeFlow w)))
    = trace (page w) ++ [ERemoveStyle NHtml "overflow";
                         ERemoveStyle NBody "overflow";
                         ERemoveStyle NHtml "margin";
                         ERemoveStyle NBody "margin"].
Proof.
  pose proof (deleted_restored _ _ (closeFlow_style w)) as Hlay.
  rewrite closeFlow_eq in *.
  unfold close_proxy, close_detach, close_layout in *.
  open_world w.
  destruct fr as [n|].
  - destruct (decide (parent p !! n = Some NBody)) as [Hp|Hp]; simpl in *.
    + done.
    + intros _.
      split; [reflexivity|]. split; [reflexivity|]. split; [exact Hlay|].
      repeat split.
  - simpl in *. done.
Qed.

Lemma closeFlow_returned (w : World) :
  snd (closeFlow w) = inr tt →
  (∀ n, iframe (this w) = Some n →
        parent (page (fst (closeFlow w))) = delete n (parent (page w)))
  ∧ providerProxyUninstaller (this (fst (closeFlow w))) = None
  ∧ activeProxies (page (fst (closeFlow w)))
    = match providerProxyUninstaller (this w) with
      | Some h => filter (λ x, x ≠ h) (activeProxies (page w))
      | None => activeProxies (page w)
      end.
Proof.
  rewrite closeFlow_eq.
  unfold close_proxy, close_detach, close_layout.
  open_world w.
  destruct fr as [n|].
  - destruct (decide (parent p !! n = Some NBody)) as [Hp|Hp]; simpl in *.
    + intros _. split; [intros ? [= <-]|]; destruct un; simpl; done.
    + done.
  - simpl in *.
    intros _. split; [by intros ? [=]|]. destruct un; simpl; done.
Qed.

(** X3. [closeFlow()] returns exactly when there is no frame or the frame
    is a child of the body.  Otherwise it throws [NotFoundError], having
    cleared the layout overrides and [isOpen] and nothing else: the frame
    stays where it is, the held uninstaller is neither called nor dropped
    and the installed proxies stay installed.  When it returns, the frame
    has no parent, no uninstaller is held, and the held one has been
    called. *)
Theorem closeFlow_returns_iff_frame_on_body :
  ∀ w : World,
    (snd (closeFlow w) = inr tt
     ↔ ∀ n, iframe (this w) = Some n → parent (page w) !! n = Some NBody)
    ∧ (snd (closeFlow w) ≠ inr tt →
       snd (closeFlow w) = inl NotFoundError
       ∧ isOpen (this (fst (closeFlow w))) = false
       ∧ layout_restored w (fst (closeFlow w))
       ∧ parent (page (fst (closeFlow w))) = parent (page w)
       ∧ providerProxyUninstaller (this (fst (closeFlow w)))
         = providerProxyUninstaller (this w)
       ∧ activeProxies (page (fst (closeFlow w))) = activeProxies (page w)
       ∧ trace (page (fst (closeFlow w)))
         = trace (page w) ++ [ERemoveStyle NHtml "overflow";
                              ERemoveStyle NBody "overflow";
                              ERemoveStyle NHtml "margin";
                              ERemoveStyle NBody "margin"])
    ∧ (snd (closeFlow w) = inr tt →
       (∀ n, iframe (this w) = Some n →
             parent (page (fst (closeFlow w))) = delete n (parent (page w)))
       ∧ providerProxyUninstaller (this (fst (closeFlow w))) = None
       ∧ activeProxies (page (fst (closeFlow w)))
         = match providerProxyUninstaller (this w) with
           | Some h => filter (λ x, x ≠ h) (activeProxies (page w))
           | None => activeProxies (page w)
           end).
Proof.
  intros w. split; [apply closeFlow_returns_iff|].
  split; [apply closeFlow_thrown | apply closeFlow_returned].
Qed.

Lemma closeFlow_returns_iff_frame_on_body_witness :
  snd (closeFlow (exec embed_session (AMessage ready))) = inl NotFoundError
  ∧ activeProxies (page (fst (closeFlow (exec embed_session (AMessage ready)))))
    = activeProxies (page (exec embed_session (AMessage ready))).
Proof.
  destruct (proj1 (proj2 (closeFlow_returns_iff_frame_on_body
                            (exec embed_session (AMessage ready))))
              ltac:(vm_compute; discriminate))
    as (H1 & _ & _ & _ & _ & H6 & _).
  split; [exact H1 | exact H6].
Defined.

(** ** Clicks *)

Lemma click_listener_eq (t : ClickTarget) (w : World) :
  click_listener t w =
  if on_opener t w && negb (isOpen (this w))
  then openSession w else (w, inr tt).
Proof.
  unfold click_listener, on_opener. unfold_prims. simpl.
  by destruct (_ && _ && _).
Qed.

Lemma report_openSession (w : World) :
  report (openSession w) = fst (openSession w).
Proof.
  pose proof (openSession_total w) as H.
  destruct (openSession w) as [w' [e|[]]]; [discriminate|reflexivity].
Qed.

(** X4. A click on the opener -- a [button] or [a] element whose [id] is
    [elementID] -- opens a closed session on which [_initModal] has
    registered its listener, exactly as [openSession()] does; any other
    click, a click while the session is open, and a click when no listener
    is registered change nothing. *)
Theorem click_opens_closed_session :
  ∀ (w : World) (t : ClickTarget),
    (on_opener t w = true → isOpen (this w) = false →
     0 < clickListeners (page w) →
     click t w = fst (openSession w))
    ∧ (on_opener t w = false ∨ isOpen (this w) = true
       ∨ clickListeners (page w) = 0 →
       click t w = w).
Proof.
  intros w t. unfold click. split.
  - intros Hhit Hclosed Hreg.
    destruct (clickListeners (page w)) as [|n]; [lia|]. clear Hreg.
    induction n as [|n IH].
    + simpl. rewrite click_listener_eq, Hhit, Hclosed. simpl.
      apply report_openSession.
    + change (Nat.iter (S (S n)) ?f w) with (f (Nat.iter (S n) f w)).
      cbv beta. rewrite IH, click_listener_eq, openSession_isOpen.
      by rewrite andb_false_r.
  - intros Hno. generalize (clickListeners (page w)) Hno. intros n Hn.
    destruct Hn as [Hmiss|[Hopen| ->]]; [| |reflexivity].
    + induction n as [|n IH]; [reflexivity|]. simpl. rewrite IH.
      by rewrite click_listener_eq, Hmiss.
    + induction n as [|n IH]; [reflexivity|]. simpl. rewrite IH.
      by rewrite click_listener_eq, Hopen, andb_false_r.
Qed.

Lemma click_opens_closed_session_witness :
  click {| tagName := "button"; idAttr := Some "synaps-btn" |} modal_session
  = fst (openSession modal_session).
Proof.
  apply (proj1 (click_opens_closed_session modal_session
                  {| tagName := "button"; idAttr := Some "synaps-btn" |}));
    vm_compute; [reflexivity | reflexivity | lia].
Defined.

(** ** Messages that are not signals *)

Lemma run_listener_other (ty : JsVal) (w : World) (i : nat) :
  ty ≠ VStr "ready" → ty ≠ VStr "finish" → ty ≠ VStr "close" →
  run_listener (DObject ty) w i = w.
Proof.
  intros Hr Hf Hc. unfold run_listener.
  rewrite ready_listener_eq, dispatcher_eq. unfold includes, strict_eq. simpl.
  rewrite !bool_decide_eq_false_2 by done. simpl.
  by destruct (msgListeners (page w) !! i) as [[]|].
Qed.

Lemma report_type_errors_add (a b : nat) (w : World) :
  report_type_errors a (report_type_errors b w) = report_type_errors (b + a) w.
Proof.
  unfold report_type_errors. destruct w as [c p]. destruct p.
  norm_world. by rewrite replicate_add, app_assoc.
Qed.

Lemma run_listener_nullish (w : World) (i : nat) :
  i < length (msgListeners (page w)) →
  run_listener DNullish w i = report_type_errors 1 w.
Proof.
  intros Hi. unfold run_listener.
  rewrite ready_listener_eq, dispatcher_eq.
  destruct (lookup_lt_is_Some_2 _ _ Hi) as [l ->]. by destruct l.
Qed.

Lemma deliver_nullish_fold (l : list nat) (w : World) :
  (∀ i, i ∈ l → i < length (msgListeners (page w))) →
  foldl (run_listener DNullish) w l = report_type_errors (length l) w.
Proof.
  revert w. induction l as [|i l IH]; intros w Hl; simpl.
  - unfold report_type_errors. destruct w as [c p]. destruct p.
    norm_world. by rewrite app_nil_r.
  - rewrite run_listener_nullish by (apply Hl; set_solver).
    rewrite IH by (intros j Hj; apply Hl; set_solver).
    by rewrite report_type_errors_add.
Qed.

(** X5. A message whose [type] is none of ['ready'], ['finish'] and
    ['close'] -- a payload without a [type] among them -- changes nothing,
    whatever the state of the client.  A [null] or [undefined] payload
    makes every registered listener throw a [TypeError] at [data.type]:
    one is reported per listener and nothing else changes. *)
Theorem other_messages_change_nothing :
  ∀ w : World,
    (∀ ty : JsVal,
       ty ≠ VStr "ready" → ty ≠ VStr "finish" → ty ≠ VStr "close" →
       deliver (DObject ty) w = w)
    ∧ deliver DNullish w
      = report_type_errors (length (msgListeners (page w))) w.
Proof.
  intros w. split.
  - intros ty Hr Hf Hc. unfold deliver.
    generalize (seq 0 (length (msgListeners (page w)))). intros l.
    induction l as [|i l IH]; [reflexivity|]. simpl.
    by rewrite run_listener_other.
  - unfold deliver. rewrite deliver_nullish_fold.
    + by rewrite length_seq.
    + intros i Hi. apply elem_of_seq in Hi. lia.
Qed.

Lemma other_messages_change_nothing_witness :
  deliver (DObject (VStr "resize")) active_session = active_session.
Proof.
  apply (proj1 (other_messages_change_nothing active_session));
    discriminate.
Defined.

(** ** The options [init] stores *)

Lemma includes_modal_embed (v : JsVal) :
  includes ["modal"; "embed"] v = true → v = VStr "modal" ∨ v = VStr "embed".
Proof.
  unfold includes, strict_eq. simpl. intros H.
  apply orb_true_iff in H as [H|H]; [left; by apply bool_decide_eq_true in H|].
  apply orb_true_iff in H as [H|H]; [right; by apply bool_decide_eq_true in H|].
  discriminate.
Qed.

Lemma init_mode (o : option Opt.t) (w : World) :
  alreadyInit (this w) = false →
  snd (init o w) = inr tt →
  type (this (fst (init o w))) = VStr "modal"
  ∨ type (this (fst (init o w))) = VStr "embed".
Proof.
  intros Hfresh Hret.
  destruct (truthy (opt Opt.type o)
            && negb (includes ["modal"; "embed"] (opt Opt.type o))) eqn:Hv.
  { apply andb_true_iff in Hv as [Hv1 Hv2]. apply negb_true_iff in Hv2.
    rewrite init_rejects in Hret by done. discriminate. }
  destruct (init_accepts o w Hfresh Hv) as (_ & _ & Hs).
  unfold settings, settings_of in Hs. injection Hs as _ _ Ht _ _.
  rewrite Ht. unfold or_else.
  destruct (truthy (opt Opt.type o)); simpl in Hv; [|by left].
  by apply negb_false_iff, includes_modal_embed in Hv.
Qed.

(** X6. A first [init(options)] that returns leaves the client with a mode
    that is ['modal'] or ['embed'] (['modal'] when none was given), a
    truthy language (['en'] when none was given), a truthy mount point id
    (by default ['synaps-btn'] in modal mode and ['synaps-embed'] in embed
    mode), a colors object, and the tier as given. *)
Theorem init_stores_valid_settings :
  ∀ (w : World) (o : option Opt.t),
    alreadyInit (this w) = false →
    snd (init o w) = inr tt →
    (type (this (fst (init o w))) = VStr "modal"
     ∨ type (this (fst (init o w))) = VStr "embed")
    ∧ truthy (lang (this (fst (init o w)))) = true
    ∧ truthy (elementID (this (fst (init o w)))) = true
    ∧ (absent (opt Opt.type o) → type (this (fst (init o w))) = VStr "modal")
    ∧ (absent (opt Opt.lang o) → lang (this (fst (init o w))) = VStr "en")
    ∧ (absent (opt Opt.element_id o) →
       elementID (this (fst (init o w)))
       = if decide (type (this (fst (init o w))) = VStr "modal")
         then VStr "synaps-btn" else VStr "synaps-embed")
    ∧ is_Some (colors (this (fst (init o w))))
    ∧ tier (this (fst (init o w))) = opt Opt.tier o.
Proof.
  intros w o Hfresh Hret.
  destruct (truthy (opt Opt.type o)
            && negb (includes ["modal"; "embed"] (opt Opt.type o))) eqn:Hv.
  { apply andb_true_iff in Hv as [Hv1 Hv2]. apply negb_true_iff in Hv2.
    rewrite init_rejects in Hret by done. discriminate. }
  destruct (init_accepts o w Hfresh Hv) as (_ & _ & Hs).
  unfold settings, settings_of in Hs. injection Hs as He Hc Ht Hl Htr.
  rewrite He, Hc, Ht, Hl, Htr. unfold absent, or_else, strict_eq.
  assert (opt Opt.type o = VStr "modal" ∨ opt Opt.type o = VStr "embed"
          ∨ truthy (opt Opt.type o) = false) as Hmode.
  { destruct (truthy (opt Opt.type o)); simpl in Hv; [|by right; right].
    apply negb_false_iff, includes_modal_embed in Hv. tauto. }
  destruct (truthy (opt Opt.lang o)) eqn:Hlt,
    (truthy (opt Opt.element_id o)) eqn:Het;
    destruct Hmode as [Hm|[Hm|Hm]]; rewrite Hm; simpl; rewrite ?Hlt, ?Het;
    split_and!;
    first [done | by left | by right | by eexists | by intros].
Qed.

Lemma init_stores_valid_settings_witness :
  type (this (fst (init None sample))) = VStr "modal"
  ∧ elementID (this (fst (init None sample))) = VStr "synaps-btn".
Proof.
  destruct (init_stores_valid_settings sample None
              ltac:(vm_compute; reflexivity) ltac:(vm_compute; reflexivity))
    as (_ & _ & _ & H4 & _ & H6 & _).
  split; [by apply H4|]. rewrite H6 by reflexivity.
  rewrite (H4 eq_refl). reflexivity.
Defined.

(** ** Mounting the embed frame *)

Lemma initEmbed_eq (w : World) :
  _initEmbed w =
  if truthy (elementID (this w)) then
    if decide (ToString (elementID (this w)) ∈ hostIds (page w))
    then (embed_mount (NHost (ToString (elementID (this w)))) w, inr tt)
    else (fst (setTimeout w), inr tt)
  else (w, inr tt).
Proof.
  unfold _initEmbed, embed_mount. rewrite getFlow_eq.
  unfold getFlow. unfold_prims. open_world w.
  destruct (truthy eid); simpl; [|reflexivity].
  destruct (decide (ToString eid ∈ hostIds p)) as [Hin|Hin]; simpl;
    [|reflexivity].
  destruct fr as [n|]; simpl;
    (destruct (decide (ToString eid ∈ hostIds p)); [reflexivity|done]).
Qed.

Lemma timer_eq (w : World) :
  timer w =
  match timers (page w) with
  | O => w
  | S k => fst (_initEmbed (on_page (set_timers k) w))
  end.
Proof.
  unfold timer. destruct (timers (page w)) as [|k]; [reflexivity|].
  pose proof (initEmbed_returns (on_page (set_timers k) w)) as H.
  destruct (_initEmbed _) as [w' [e|[]]]; [discriminate|reflexivity].
Qed.

(** X7. The retry timer of an embed session never throws and either
    reschedules itself or mounts.  While the page has no element with the
    mount point id, a firing timer leaves exactly one timer pending again
    and changes nothing but that.  Once the element is there, the firing
    timer consumes itself and mounts: the frame, given the current URL and
    the hidden style, and a new loader are appended to the element, in this
    order, and the session is open.  So the first timer to fire after the
    host has added the element mounts the frame. *)
Theorem embed_timer_retries_until_mounted :
  ∀ (w : World) (k : nat),
    timers (page w) = S k →
    truthy (elementID (this w)) = true →
    reported (page (timer w)) = reported (page w)
    ∧ (ToString (elementID (this w)) ∉ hostIds (page w) →
       timers (page (timer w)) = S k
       ∧ this (timer w) = this w
       ∧ parent (page (timer w)) = parent (page w)
       ∧ attrs (page (timer w)) = attrs (page w)
       ∧ trace (page (timer w)) = trace (page w) ++ [ESetTimeout])
    ∧ (∀ n, iframe (this w) = Some n →
       ToString (elementID (this w)) ∈ hostIds (page w) →
       timers (page (timer w)) = k
       ∧ isOpen (this (timer w)) = true
       ∧ parent (page (timer w)) !! n
         = Some (NHost (ToString (elementID (this w))))
       ∧ loaderElement (this (timer w))
         = Some (NHost (ToString (elementID (this w))))
       ∧ loader (this (timer w)) = Some (NNew (nextNode (page w)))
       ∧ parent (page (timer w)) !! NNew (nextNode (page w))
         = Some (NHost (ToString (elementID (this w))))
       ∧ attrs (page (timer w)) !! (n, "src") = Some (_formatURL (this w))
       ∧ attrs (page (timer w)) !! (n, "style") = Some hidden_style
       ∧ trace (page (timer w))
         = trace (page w)
           ++ [EAppend (NHost (ToString (elementID (this w)))) n;
               EAppend (NHost (ToString (elementID (this w))))
                 (NNew (nextNode (page w)))])
    ∧ (∀ n, iframe (this w) = Some n →
       ToString (elementID (this w)) ∉ hostIds (page w) →
       isOpen (this (timer (host_add (ToString (elementID (this w))) (timer w))))
       = true
       ∧ parent (page (timer (host_add (ToString (elementID (this w)))
                                 (timer w)))) !! n
         = Some (NHost (ToString (elementID (this w))))).
Proof.
  assert (∀ (w : World) (k : nat) (n : Node),
    timers (page w) = S k → truthy (elementID (this w)) = true →
    iframe (this w) = Some n →
    ToString (elementID (this w)) ∈ hostIds (page w) →
    reported (page (timer w)) = reported (page w)
    ∧ timers (page (timer w)) = k
    ∧ isOpen (this (timer w)) = true
    ∧ parent (page (timer w)) !! n
      = Some (NHost (ToString (elementID (this w))))
    ∧ loaderElement (this (timer w))
      = Some (NHost (ToString (elementID (this w))))
    ∧ loader (this (timer w)) = Some (NNew (nextNode (page w)))
    ∧ parent (page (timer w)) !! NNew (nextNode (page w))
      = Some (NHost (ToString (elementID (this w))))
    ∧ attrs (page (timer w)) !! (n, "src") = Some (_formatURL (this w))
    ∧ attrs (page (timer w)) !! (n, "style") = Some hidden_style
    ∧ trace (page (timer w))
      = trace (page w)
        ++ [EAppend (NHost (ToString (elementID (this w)))) n;
            EAppend (NHost (ToString (elementID (this w))))
              (NNew (nextNode (page w)))]) as Hmount.
  { intros w k n Ht He Hf Hin. rewrite timer_eq, Ht, initEmbed_eq.
    unfold embed_mount. rewrite getFlow_eq. unfold_prims.
    open_world w. destruct p. simpl in *. subst. rewrite He.
    destruct (decide _) as [_|Hout]; [|done]. simpl.
    split; [reflexivity|]. split; [reflexivity|]. split; [reflexivity|].
    split.
    { rewrite lookup_insert. case_decide; [done|]. apply lookup_insert_eq. }
    split; [reflexivity|]. split; [reflexivity|].
    split; [apply lookup_insert_eq|].
    split.
    { unfold frame_attributes.
      by rewrite !lookup_insert_ne, lookup_insert_eq by (intros [=]). }
    split.
    { unfold frame_attributes. rewrite !lookup_insert.
      repeat (case_decide; simplify_eq); done. }
    by rewrite <- app_assoc. }
  intros w k Ht He.
  assert (ToString (elementID (this w)) ∉ hostIds (page w) →
          timer w = on_page (λ p, set_trace (trace p ++ [ESetTimeout]) p) w)
    as Hretry.
  { intros Hout. rewrite timer_eq, Ht, initEmbed_eq. unfold_prims.
    open_world w. destruct p. simpl in *. subst. rewrite He.
    destruct (decide _) as [Hin|_]; [done|]. reflexivity. }
  split; [|split; [|split]].
  - destruct (decide (ToString (elementID (this w)) ∈ hostIds (page w)))
      as [Hin|Hout].
    + destruct (iframe (this w)) as [n|] eqn:Hf.
      * by destruct (Hmount w k n Ht He Hf Hin) as (? & _).
      * rewrite timer_eq, Ht, initEmbed_eq. unfold embed_mount.
        rewrite getFlow_eq. unfold_prims.
        open_world w. destruct p. simpl in *. subst. rewrite He.
        by destruct (decide _).
    + by rewrite Hretry.
  - intros Hout. rewrite Hretry by done. simpl. done.
  - intros n Hf Hin. by destruct (Hmount w k n Ht He Hf Hin) as (_ & ?).
  - intros n Hf Hout. rewrite Hretry by done.
    set (w1 := host_add _ _).
    assert (ToString (elementID (this w1)) ∈ hostIds (page w1)) as Hin.
    { unfold w1, host_add. simpl. set_solver. }
    destruct (Hmount w1 k n) as (_ & _ & H3 & H4 & _); try done.
Qed.

Lemma waiting_embed_session_unmounted :
  ToString (elementID (this waiting_embed_session))
  ∉ hostIds (page waiting_embed_session).
Proof. apply (bool_decide_unpack _). vm_compute. exact I. Qed.

Lemma embed_timer_retries_until_mounted_witness :
  timers (page (timer waiting_embed_session)) = 1.
Proof.
  apply (proj1 (proj1 (proj2 (embed_timer_retries_until_mounted
    waiting_embed_session 0
    ltac:(vm_compute; reflexivity) ltac:(vm_compute; reflexivity)))
    waiting_embed_session_unmounted)).
Defined.

(** ** Listeners and timers never pile up *)

Lemma same_census_trans (w1 w2 w3 : World) :
  same_census w1 w2 → same_census w2 w3 → same_census w1 w3.
Proof. unfold same_census. intros (-> & -> & ->) (-> & -> & ->). done. Qed.

Lemma on_census t cb (w : World) : same_census w (fst (on t cb w)).
Proof. done. Qed.

Lemma openSession_census (w : World) : same_census w (fst (openSession w)).
Proof.
  unfold openSession. unfold_prims. open_world w.
  destruct op; [done|]. simpl. by destruct fr.
Qed.

Lemma closeFlow_census (w : World) : same_census w (fst (closeFlow w)).
Proof.
  rewrite closeFlow_eq. unfold close_proxy, close_detach, close_layout.
  open_world w. destruct fr as [n|]; [destruct (decide _)|];
    simpl; try done; by destruct un.
Qed.

Lemma getFlow_census (w : World) : same_census w (fst (getFlow w)).
Proof. rewrite getFlow_eq. by destruct (iframe (this w)). Qed.

Lemma dispatcher_census d (w : World) : same_census w (fst (dispatcher d w)).
Proof.
  rewrite dispatcher_eq. pose proof (closeFlow_census w) as Hc.
  destruct d as [|ty]; [done|]. destruct (includes _ ty); [|done].
  destruct (strict_eq _ _).
  - destruct (closeFlow w) as [w' [e|[]]]; [done|]. simpl in Hc.
    by destruct (callbacks _ !! _).
  - by destruct (callbacks _ !! _).
Qed.

Lemma ready_rest_census (i : nat) (w : World) : same_census w (ready_rest i w).
Proof.
  unfold ready_rest, ready_register, ready_reveal, ready_install, eventInited.
  unfold_prims. open_world w.
  destruct fr as [n|]; simpl;
    [destruct (bool_decide _); simpl|];
    destruct (strict_eq mode (VStr "embed")); simpl;
    destruct (msgListeners p !! i) as [[[]|]|]; done.
Qed.

Lemma ready_listener_census i d (w : World) :
  same_census w (fst (ready_listener i d w)).
Proof.
  rewrite ready_listener_eq. destruct d as [|ty]; [done|].
  destruct (strict_eq ty (VStr "ready")); [|done].
  destruct (loaderElement (this w)) as [e|].
  - destruct (loader (this w)) as [l|]; [|done].
    destruct (decide _); [|done]. simpl.
    exact (ready_rest_census i (ready_detach e l w)).
  - apply ready_rest_census.
Qed.

Lemma report_census {A} (r : World * (Exn + A)) (w : World) :
  same_census w (fst r) → same_census w (report r).
Proof. by destruct r as [w' [e|a]]. Qed.

Lemma run_listener_census d (w : World) (i : nat) :
  same_census w (run_listener d w i).
Proof.
  unfold run_listener. destruct (msgListeners (page w) !! i) as [[b|]|]; [| |done].
  - apply report_census, ready_listener_census.
  - apply report_census, dispatcher_census.
Qed.

Lemma deliver_census d (w : World) : same_census w (deliver d w).
Proof.
  unfold deliver. generalize (seq 0 (length (msgListeners (page w)))).
  intros l. revert w. induction l as [|i l IH]; intros w; [done|].
  simpl. eapply same_census_trans; [apply run_listener_census|apply IH].
Qed.

Lemma click_census t (w : World) : same_census w (click t w).
Proof.
  unfold click. generalize (clickListeners (page w)). intros n.
  induction n as [|n IH]; [done|]. simpl.
  eapply same_census_trans; [exact IH|]. apply report_census.
  rewrite click_listener_eq. destruct (_ && _); [|done].
  apply openSession_census.
Qed.

Lemma Census_same (w w' : World) :
  Census w → same_census w w' → same_settings w w' → Census w'.
Proof.
  intros [C1 C2 C3] (Hf & Hc & Ht) [Hs Ha].
  unfold settings in Hs. injection Hs as _ _ Hty _ _.
  constructor; rewrite Ha, Hf, Hc, Ht, Hty; assumption.
Qed.

Lemma initEmbed_census (w : World) :
  iframe (this (fst (_initEmbed w))) = iframe (this w)
  ∧ clickListeners (page (fst (_initEmbed w))) = clickListeners (page w)
  ∧ timers (page (fst (_initEmbed w))) ≤ S (timers (page w)).
Proof.
  rewrite initEmbed_eq. unfold embed_mount. rewrite getFlow_eq. unfold_prims.
  open_world w. destruct (truthy eid); [|simpl; repeat split; lia].
  destruct (decide _); simpl; [|repeat split; lia].
  destruct fr; simpl; repeat split; lia.
Qed.

Lemma initLoad_census (w : World) :
  iframe (this (fst (_initLoad w))) = iframe (this w)
  ∧ (type (this w) = VStr "modal" →
     clickListeners (page (fst (_initLoad w))) = S (clickListeners (page w))
     ∧ timers (page (fst (_initLoad w))) = timers (page w))
  ∧ (type (this w) ≠ VStr "modal" →
     clickListeners (page (fst (_initLoad w))) = clickListeners (page w)
     ∧ timers (page (fst (_initLoad w))) ≤ S (timers (page w))).
Proof.
  unfold _initLoad, _initModal, bind, field, read. simpl.
  unfold strict_eq. destruct (decide (type (this w) = VStr "modal")) as [Hm|Hm].
  - rewrite bool_decide_eq_true_2 by done. unfold_prims. simpl. done.
  - rewrite bool_decide_eq_false_2 by done.
    pose proof (initEmbed_census w) as (H1 & H2 & H3).
    pose proof (initEmbed_returns w) as Hr.
    destruct (_initEmbed w) as [w' [e|[]]]; [discriminate|]. simpl in *.
    unfold_prims. simpl. done.
Qed.

Lemma init_Census (o : option Opt.t) (w : World) :
  Census w → Census (fst (init o w)).
Proof.
  intros HC. destruct (alreadyInit (this w)) eqn:Ha.
  { by rewrite init_done. }
  destruct (truthy (opt Opt.type o)
            && negb (includes ["modal"; "embed"] (opt Opt.type o))) eqn:Hv.
  { apply andb_true_iff in Hv as [Hv1 Hv2]. apply negb_true_iff in Hv2.
    by rewrite init_rejects. }
  destruct (census_fresh w HC Ha) as (_ & _ & Hc0 & Ht0).
  destruct (init_accepts o w Ha Hv) as (Hret & Hinit & _).
  pose proof (init_mode o w Ha Hret) as Hmode.
  assert (is_Some (iframe (this (fst (init o w))))
          ∧ (type (this (fst (init o w))) = VStr "modal" →
             clickListeners (page (fst (init o w))) = 1
             ∧ timers (page (fst (init o w))) = 0)
          ∧ (type (this (fst (init o w))) ≠ VStr "modal" →
             clickListeners (page (fst (init o w))) = 0
             ∧ timers (page (fst (init o w))) ≤ 1)) as (Hf & Hm & He).
  { clear Hret Hinit Hmode. unfold init. unfold_prims. rewrite Ha, Hv. simpl.
    destruct (truthy (opt Opt.element_id o)) eqn:Hid; simpl;
      match goal with |- context [_initLoad ?W] =>
        pose proof (initLoad_returns W) as Hr;
        pose proof (initLoad_census W) as (L1 & L2 & L3);
        pose proof (initLoad_settings W) as [Ls _];
        destruct (_initLoad W) as [w2 [e|[]]]
      end; try discriminate; simpl in *;
      unfold settings in Ls; simpl in Ls; injection Ls as _ _ Lty _ _;
      rewrite Lty, L1, Hc0, Ht0 in *; (split; [by eexists|]); split; assumption. }
  constructor; rewrite Hinit.
  - discriminate.
  - intros _ Hty. split; [done|]. by apply Hm.
  - intros _ Hty. split; [done|]. split; [by destruct Hmode|]. by apply He.
Qed.

Lemma timer_Census (w : World) : Census w → Census (timer w).
Proof.
  intros HC. rewrite timer_eq. destruct (timers (page w)) as [|k] eqn:Ht; [done|].
  pose proof (initEmbed_census (on_page (set_timers k) w)) as (H1 & H2 & H3).
  pose proof (initEmbed_settings (on_page (set_timers k) w)) as [Hs Ha].
  unfold settings in Hs. injection Hs as _ _ Hty _ _. simpl in *.
  destruct HC as [C1 C2 C3].
  constructor; rewrite Ha, H1, H2, Hty.
  - intros Hfresh. destruct (C1 Hfresh) as (_ & _ & _ & ?). lia.
  - intros Hi Hm. destruct (C2 Hi Hm) as (_ & _ & ?). lia.
  - intros Hi Hm. destruct (C3 Hi Hm) as (? & ? & ? & ?).
    split; [done|]. split; [done|]. split; [done|]. lia.
Qed.

Lemma exec_Census (w : World) (a : Action) : Census w → Census (exec w a).
Proof.
  intros HC. destruct a; simpl.
  - by apply init_Census.
  - apply (Census_same w); [done|apply on_census|apply on_settings].
  - apply (Census_same w);
      [done|apply openSession_census|apply openSession_settings].
  - apply (Census_same w); [done|apply closeFlow_census|apply closeFlow_settings].
  - apply (Census_same w); [done|apply getFlow_census|apply getFlow_settings].
  - apply (Census_same w); [done|apply deliver_census|apply deliver_settings].
  - apply (Census_same w); [done|apply click_census|apply click_settings].
  - by apply timer_Census.
  - apply (Census_same w); done.
Qed.

Lemma reachable_Census (w : World) : reachable w → Census w.
Proof.
  induction 1 as [sid svc url ids st w Hc | w a _ IH].
  - unfold construct in Hc. destruct (_ || _); [discriminate|].
    injection Hc as <-. by constructor.
  - by apply exec_Census.
Qed.

(** X8. Whatever happens to a client, it never has more than one ready
    listener, one dispatcher, one click listener or one pending retry
    timer.  Before a successful [init] it has none of them and no frame;
    afterwards it has a frame, the ready listener, the dispatcher exactly
    when a [ready] has been handled, and either -- in modal mode -- one
    click listener and no timer, or -- in embed mode -- no click listener
    and at most one timer. *)
Theorem listeners_and_timers_bounded :
  ∀ w : World,
    reachable w →
    (alreadyInit (this w) = false →
     iframe (this w) = None ∧ msgListeners (page w) = []
     ∧ clickListeners (page w) = 0 ∧ timers (page w) = 0)
    ∧ (alreadyInit (this w) = true →
       is_Some (iframe (this w))
       ∧ (msgListeners (page w) = [LReady false]
          ∨ msgListeners (page w) = [LReady true; LDispatch])
       ∧ (type (this w) = VStr "modal"
          ∧ clickListeners (page w) = 1 ∧ timers (page w) = 0
          ∨ type (this w) = VStr "embed"
            ∧ clickListeners (page w) = 0 ∧ timers (page w) ≤ 1)).
Proof.
  intros w Hreach. pose proof (reachable_Inv w Hreach) as [I1 _ _ _ _].
  pose proof (reachable_Census w Hreach) as [C1 C2 C3].
  split.
  - intros Ha. rewrite Ha in I1. destruct (C1 Ha) as (? & _ & ? & ?). done.
  - intros Ha. rewrite Ha in I1.
    destruct (decide (type (this w) = VStr "modal")) as [Hm|Hm].
    + destruct (C2 Ha Hm) as (? & ? & ?). split; [done|]. split; [done|].
      by left.
    + destruct (C3 Ha Hm) as (? & ? & ? & ?). split; [done|]. split; [done|].
      by right.
Qed.

Lemma listeners_and_timers_bounded_witness :
  is_Some (iframe (this active_session))
  ∧ (msgListeners (page active_session) = [LReady false]
     ∨ msgListeners (page active_session) = [LReady true; LDispatch])
  ∧ (type (this active_session) = VStr "modal"
     ∧ clickListeners (page active_session) = 1
     ∧ timers (page active_session) = 0
     ∨ type (this active_session) = VStr "embed"
       ∧ clickListeners (page active_session) = 0
       ∧ timers (page active_session) ≤ 1).
Proof.
  apply (proj2 (listeners_and_timers_bounded active_session
                  reachable_active_session)).
  vm_compute. reflexivity.
Defined.

(** ** Proxies never pile up in a modal session *)

Lemma ModalProxies_same (w w' : World) :
  ModalProxies w →
  iframe (this w') = iframe (this w) →
  parent (page w') = parent (page w) →
  isOpen (this w') = isOpen (this w) →
  providerProxyUninstaller (this w') = providerProxyUninstaller (this w) →
  activeProxies (page w') = activeProxies (page w) →
  loaderElement (this w') = loaderElement (this w) →
  loader (this w') = loader (this w) →
  ModalProxies w'.
Proof.
  intros [M1 M2 M3] Hf Hp Ho Hu Ha Hle Hl.
  constructor; unfold settled; rewrite ?Hf, ?Hp, ?Ho, ?Hu, ?Ha, ?Hle, ?Hl;
    assumption.
Qed.

Lemma openSession_core (w : World) :
  isOpen (this w) = false →
  iframe (this (fst (openSession w))) = iframe (this w)
  ∧ providerProxyUninstaller (this (fst (openSession w)))
    = providerProxyUninstaller (this w)
  ∧ activeProxies (page (fst (openSession w))) = activeProxies (page w)
  ∧ (∀ n, iframe (this w) = Some n →
          parent (page (fst (openSession w))) !! n = Some NBody).
Proof.
  intros Ho. unfold openSession. unfold_prims. open_world w. subst op. simpl.
  destruct fr as [n|]; simpl; repeat split; try done.
  intros ? [= <-]. apply lookup_insert_eq.
Qed.

Lemma openSession_ModalProxies (w : World) :
  ModalProxies w → ModalProxies (fst (openSession w)).
Proof.
  intros HM. destruct (isOpen (this w)) eqn:Ho.
  { by rewrite openSession_open. }
  destruct (openSession_core w Ho) as (Hf & Hu & Ha & Hp).
  pose proof (openSession_isOpen w) as Ho'.
  assert (providerProxyUninstaller (this w) = None) as Hnone.
  { destruct (providerProxyUninstaller (this w)) as [h|] eqn:Hh; [|done].
    destruct (mp_held w HM h Hh) as (_ & (n & Hn & Hpn) & _).
    destruct (mp_frame w HM n NBody Hn Hpn) as [_ Hopen]. congruence. }
  constructor; rewrite ?Hf, ?Hu, ?Ha, ?Ho', ?Hnone.
  - intros n p Hn Hpn. rewrite (Hp n Hn) in Hpn. by injection Hpn as <-.
  - discriminate.
  - intros _. by apply (mp_none w HM).
Qed.

Lemma closeFlow_ModalProxies (w : World) :
  ModalProxies w → ModalProxies (fst (closeFlow w)).
Proof.
  intros HM.
  pose proof (closeFlow_returns_iff w) as Hiff.
  pose proof (closeFlow_thrown w) as Hthrow.
  pose proof (closeFlow_returned w) as Hret.
  pose proof (closeFlow_census w) as (Hf & _ & _).
  destruct (snd (closeFlow w)) as [e|[]] eqn:Hs.
  - destruct Hthrow as (_ & Ho & _ & Hp & Hu & Ha & _); [done|].
    assert (∀ n, iframe (this w) = Some n → parent (page w) !! n = None) as Hdet.
    { intros n Hn. destruct (parent (page w) !! n) as [q|] eqn:Hq; [|done].
      destruct (mp_frame w HM n q Hn Hq) as [-> _].
      assert (@inl Exn unit e = inr tt) as Hok; [|discriminate].
      apply Hiff. intros n' Hn'. congruence. }
    assert (providerProxyUninstaller (this w) = None) as Hnone.
    { destruct (providerProxyUninstaller (this w)) as [h|] eqn:Hh; [|done].
      destruct (mp_held w HM h Hh) as (_ & (n & Hn & Hpn) & _).
      rewrite (Hdet n Hn) in Hpn. discriminate. }
    constructor; rewrite ?Hf, ?Hp, ?Hu, ?Ha, ?Hnone.
    + intros n p Hn Hpn. rewrite (Hdet n Hn) in Hpn. discriminate.
    + discriminate.
    + intros _. by apply (mp_none w HM).
  - destruct (Hret eq_refl) as (Hp & Hu & Ha).
    constructor; rewrite ?Hf, ?Hu, ?Ha.
    + intros n p Hn Hpn. rewrite (Hp n Hn), lookup_delete_eq in Hpn.
      discriminate.
    + discriminate.
    + intros _. destruct (providerProxyUninstaller (this w)) as [h|] eqn:Hh.
      * destruct (mp_held w HM h Hh) as (-> & _).
        by rewrite filter_cons_False by (by intros ?).
      * by apply (mp_none w HM).
Qed.

Lemma dispatcher_ModalProxies d (w : World) :
  ModalProxies w → ModalProxies (fst (dispatcher d w)).
Proof.
  intros HM. rewrite dispatcher_eq.
  pose proof (closeFlow_ModalProxies w HM) as Hc.
  destruct d as [|ty]; [done|]. destruct (includes _ ty); [|done].
  destruct (strict_eq _ _).
  - destruct (closeFlow w) as [w' [e|[]]]; [done|]. simpl in Hc.
    destruct (callbacks _ !! _); [|done]. by apply (ModalProxies_same w').
  - destruct (callbacks _ !! _); [|done]. by apply (ModalProxies_same w).
Qed.

Lemma ready_install_attached (w : World) (n : Node) :
  iframe (this w) = Some n → is_Some (parent (page w) !! n) →
  providerProxyUninstaller (this (ready_install w)) = Some (nextHandle (page w))
  ∧ activeProxies (page (ready_install w))
    = nextHandle (page w) :: activeProxies (page w).
Proof.
  intros Hn Hp. unfold ready_install. rewrite Hn.
  by rewrite bool_decide_eq_true_2.
Qed.

Lemma ready_rest_ModalProxies (i : nat) (w : World) :
  (∀ n p, iframe (this w) = Some n → parent (page w) !! n = Some p →
          p = NBody ∧ isOpen (this w) = true) →
  providerProxyUninstaller (this w) = None →
  activeProxies (page w) = [] →
  settled w →
  ModalProxies (ready_rest i w).
Proof.
  intros Hfr Hnone Hact Hset.
  pose proof (ready_rest_core i w) as (_ & C2 & C3 & C4 & _ & C6).
  pose proof (ready_rest_proxies i w) as [P1 P2].
  pose proof (ready_rest_quiet i w) as (_ & _ & Q3 & _).
  constructor; unfold settled; rewrite ?C2, ?C3, ?C4, ?C6, ?P1, ?P2, ?Q3.
  - exact Hfr.
  - intros h Hh. destruct (iframe (this w)) as [n|] eqn:Hn.
    + destruct (parent (page w) !! n) as [q|] eqn:Hq.
      * destruct (ready_install_attached w n Hn) as [E1 E2]; [by eexists|].
        rewrite E1 in Hh. injection Hh as <-. rewrite E2, Hact.
        split; [done|]. split; [|exact Hset].
        exists n. split; [done|]. destruct (Hfr n q eq_refl Hq) as [-> _]. done.
      * rewrite ready_install_unattached in Hh; [congruence|].
        intros n' Hn'. congruence.
    + rewrite ready_install_unattached in Hh; [congruence|].
      intros n' Hn'. congruence.
  - intros Hh. destruct (iframe (this w)) as [n|] eqn:Hn.
    + destruct (parent (page w) !! n) as [q|] eqn:Hq.
      * destruct (ready_install_attached w n Hn) as [E1 E2]; [by eexists|].
        congruence.
      * rewrite ready_install_unattached; [done|]. intros n' Hn'. congruence.
    + rewrite ready_install_unattached; [done|]. intros n' Hn'. congruence.
Qed.

Lemma ready_listener_ModalProxies (i : nat) (d : MsgData) (w : World) :
  Inv w → ModalProxies w → ModalProxies (fst (ready_listener i d w)).
Proof.
  intros HI HM. rewrite ready_listener_eq.
  destruct d as [|ty]; [done|].
  destruct (strict_eq ty (VStr "ready")); [|done].
  destruct (loaderElement (this w)) as [e|] eqn:Hle.
  - destruct (inv_loader w HI e Hle) as (k & Hk & _ & Hne & _). rewrite Hk.
    destruct (decide _) as [Hp|Hp]; [|done]. simpl.
    assert (providerProxyUninstaller (this w) = None) as Hnone.
    { destruct (providerProxyUninstaller (this w)) as [h|] eqn:Hh; [|done].
      destruct (mp_held w HM h Hh) as (_ & _ & Hset).
      by destruct (Hset e (NNew k) Hle Hk). }
    apply ready_rest_ModalProxies; unfold ready_detach, settled; simpl.
    + intros n p Hn Hpn. rewrite lookup_delete_ne in Hpn by congruence.
      by apply (mp_frame w HM n p).
    + exact Hnone.
    + by apply (mp_none w HM).
    + rewrite Hle, Hk. intros e' l' [= <-] [= <-]. by rewrite lookup_delete_eq.
  - simpl. pose proof (ready_rest_core i w) as (_ & C2 & C3 & C4 & _ & C6).
    pose proof (ready_rest_proxies i w) as [P1 P2].
    pose proof (ready_rest_quiet i w) as (_ & _ & Q3 & _).
    rewrite ready_install_unattached in P1, P2.
    + by apply (ModalProxies_same w).
    + intros n Hn. destruct (parent (page w) !! n) as [q|] eqn:Hq; [|done].
      destruct (inv_attached w HI n Hn) as [? ?]; [by eexists|congruence].
    + intros n Hn. destruct (parent (page w) !! n) as [q|] eqn:Hq; [|done].
      destruct (inv_attached w HI n Hn) as [? ?]; [by eexists|congruence].
Qed.

Lemma report_ModalProxies {A} (r : World * (Exn + A)) :
  ModalProxies (fst r) → ModalProxies (report r).
Proof.
  destruct r as [w [e|a]]; simpl; [|done]. intros H.
  by apply (ModalProxies_same w).
Qed.

Lemma deliver_ModalProxies d (w : World) :
  Inv w → ModalProxies w → ModalProxies (deliver d w).
Proof.
  unfold deliver. generalize (seq 0 (length (msgListeners (page w)))).
  intros l. revert w. induction l as [|i l IH]; intros w HI HM; [done|].
  simpl. apply IH; [by apply run_listener_Inv|].
  unfold run_listener. destruct (msgListeners (page w) !! i) as [[b|]|]; [| |done].
  - by apply report_ModalProxies, ready_listener_ModalProxies.
  - by apply report_ModalProxies, dispatcher_ModalProxies.
Qed.

Lemma click_ModalProxies t (w : World) :
  ModalProxies w → ModalProxies (click t w).
Proof.
  intros HM. unfold click. generalize (clickListeners (page w)). intros n.
  induction n as [|n IH]; [done|]. simpl. apply report_ModalProxies.
  rewrite click_listener_eq. destruct (_ && _); [|done].
  by apply openSession_ModalProxies.
Qed.

Lemma initLoad_modal_eq (w : World) :
  type (this w) = VStr "modal" →
  _initLoad w =
  (on_page (λ p, set_msgListeners (msgListeners p ++ [LReady false]) p)
     (on_page (λ p, set_clickListeners (S (clickListeners p)) p) w), inr tt).
Proof.
  intros Hm. unfold _initLoad, _initModal. unfold_prims. by rewrite Hm.
Qed.

Lemma init_ModalProxies (o : option Opt.t) (w : World) :
  Inv w → Census w → ModalProxies w →
  type (this (fst (init o w))) = VStr "modal" →
  ModalProxies (fst (init o w)).
Proof.
  intros HI HC HM Hty. destruct (alreadyInit (this w)) eqn:Ha.
  { by rewrite init_done. }
  destruct (truthy (opt Opt.type o)
            && negb (includes ["modal"; "embed"] (opt Opt.type o))) eqn:Hv.
  { apply andb_true_iff in Hv as [Hv1 Hv2]. apply negb_true_iff in Hv2.
    by rewrite init_rejects. }
  destruct (census_fresh w HC Ha) as (Hnofr & _).
  assert (providerProxyUninstaller (this w) = None) as Hnone.
  { destruct (providerProxyUninstaller (this w)) as [h|] eqn:Hh; [|done].
    destruct (mp_held w HM h Hh) as (_ & (n & Hn & _) & _). congruence. }
  pose proof (mp_none w HM Hnone) as Hact.
  pose proof (inv_fresh w HI (nextNode (page w)) (le_n _)) as Hfresh.
  destruct (init_accepts o w Ha Hv) as (_ & _ & Hs).
  unfold settings, settings_of in Hs. injection Hs as _ _ Hmode _ _.
  rewrite Hmode in Hty. clear Hmode.
  unfold init. unfold_prims. rewrite Ha, Hv. simpl.
  destruct (truthy (opt Opt.element_id o)) eqn:Hid; simpl;
    rewrite initLoad_modal_eq by exact Hty; simpl;
    (constructor; unfold settled; simpl; rewrite ?Hnone, ?Hact;
     [ intros n p [= <-]; rewrite Hfresh; discriminate
     | discriminate
     | done ]).
Qed.

Lemma exec_modal_back (w : World) (a : Action) :
  Census w → type (this (exec w a)) = VStr "modal" →
  type (this w) = VStr "modal".
Proof.
  intros HC Hty. destruct (alreadyInit (this w)) eqn:Ha.
  - destruct (exec_settings w a Ha) as [Hs _].
    unfold settings in Hs. injection Hs as _ _ Hsame _ _. congruence.
  - by destruct (census_fresh w HC Ha) as (_ & ? & _).
Qed.

Lemma exec_ModalProxies (w : World) (a : Action) :
  Inv w → Census w → ModalProxies w →
  type (this (exec w a)) = VStr "modal" →
  ModalProxies (exec w a).
Proof.
  intros HI HC HM Hty. pose proof (exec_modal_back w a HC Hty) as Hm.
  destruct a; simpl in *.
  - by apply init_ModalProxies.
  - by apply (ModalProxies_same w).
  - by apply openSession_ModalProxies.
  - by apply closeFlow_ModalProxies.
  - rewrite getFlow_eq. destruct (iframe (this w)); [|done].
    by apply (ModalProxies_same w).
  - by apply deliver_ModalProxies.
  - by apply click_ModalProxies.
  - rewrite timer_eq. destruct (timers (page w)) as [|k] eqn:Ht; [done|].
    exfalso. destruct (alreadyInit (this w)) eqn:Ha.
    + destruct (census_modal w HC Ha Hm) as (_ & _ & ?). lia.
    + destruct (census_fresh w HC Ha) as (_ & _ & _ & ?). lia.
  - by apply (ModalProxies_same w).
Qed.

Lemma reachable_ModalProxies (w : World) :
  reachable w → type (this w) = VStr "modal" → ModalProxies w.
Proof.
  induction 1 as [sid svc url ids st w Hc | w a Hreach IH]; intros Hty.
  - unfold construct in Hc. destruct (_ || _); [discriminate|].
    injection Hc as <-. constructor; simpl; done.
  - pose proof (reachable_Inv w Hreach) as HI.
    pose proof (reachable_Census w Hreach) as HC.
    apply exec_ModalProxies; try done.
    apply IH. by apply (exec_modal_back w a).
Qed.

(** X9. In a modal session, whatever happens, at most one proxy is
    active: the active proxies are exactly the one whose uninstaller the
    client holds, if it holds one, and none otherwise.  A proxy is active
    only while the frame is a child of the body and the session is open,
    and a [closeFlow()] that returns leaves no proxy active. *)
Theorem modal_session_has_at_most_one_proxy :
  ∀ w : World,
    reachable w →
    type (this w) = VStr "modal" →
    activeProxies (page w)
    = match providerProxyUninstaller (this w) with
      | Some h => [h]
      | None => []
      end
    ∧ length (activeProxies (page w)) ≤ 1
    ∧ (activeProxies (page w) ≠ [] →
       isOpen (this w) = true
       ∧ ∃ n, iframe (this w) = Some n ∧ parent (page w) !! n = Some NBody)
    ∧ (snd (closeFlow w) = inr tt →
       activeProxies (page (fst (closeFlow w))) = []).
Proof.
  intros w Hreach Hty. pose proof (reachable_ModalProxies w Hreach Hty) as HM.
  assert (activeProxies (page w)
          = match providerProxyUninstaller (this w) with
            | Some h => [h]
            | None => []
            end) as Hact.
  { destruct (providerProxyUninstaller (this w)) as [h|] eqn:Hh.
    - by destruct (mp_held w HM h Hh).
    - by apply (mp_none w HM). }
  split; [exact Hact|]. split; [|split].
  - rewrite Hact. destruct (providerProxyUninstaller (this w)); simpl; lia.
  - intros Hne. destruct (providerProxyUninstaller (this w)) as [h|] eqn:Hh;
      [|by rewrite Hact in Hne].
    destruct (mp_held w HM h Hh) as (_ & (n & Hn & Hpn) & _).
    destruct (mp_frame w HM n NBody Hn Hpn) as [_ Ho]. split; [done|].
    by exists n.
  - intros Hret.
    pose proof (closeFlow_ModalProxies w HM) as HM'.
    destruct (closeFlow_returned w Hret) as (_ & Hu & _). by apply (mp_none _ HM').
Qed.

Lemma modal_session_has_at_most_one_proxy_witness :
  activeProxies (page active_session)
  = match providerProxyUninstaller (this active_session) with
    | Some h => [h]
    | None => []
    end
  ∧ length (activeProxies (page active_session)) ≤ 1.
Proof.
  destruct (modal_session_has_at_most_one_proxy active_session
              reachable_active_session ltac:(vm_compute; reflexivity))
    as (H1 & H2 & _).
  split; [exact H1 | exact H2].
Defined.

(** ** An attached frame shows the configured URL *)

Lemma frame_attributes_src (n : Node) (src sty : string)
    (m : gmap (Node * string) string) :
  frame_attributes n src sty m !! (n, "src") = Some src.
Proof.
  unfold frame_attributes.
  by rewrite !lookup_insert_ne, lookup_insert_eq by (intros [=]).
Qed.

Lemma on_SrcOk t cb (w : World) : SrcOk w → SrcOk (fst (on t cb w)).
Proof. unfold SrcOk, on. unfold_prims. open_world w. done. Qed.

Lemma getFlow_SrcOk (w : World) : SrcOk (fst (getFlow w)).
Proof.
  rewrite getFlow_eq. unfold SrcOk. open_world w.
  destruct fr as [n|]; simpl; [|done].
  intros ? [= <-] _. apply frame_attributes_src.
Qed.

Lemma openSession_SrcOk (w : World) : SrcOk w → SrcOk (fst (openSession w)).
Proof.
  unfold SrcOk, openSession. unfold_prims. open_world w.
  destruct op; [done|]. simpl. intros _.
  destruct fr as [n|]; simpl; [|done].
  intros ? [= <-] _.
  by rewrite !lookup_insert_ne, lookup_insert_eq by (intros [=]).
Qed.

Lemma closeFlow_SrcOk (w : World) : SrcOk w → SrcOk (fst (closeFlow w)).
Proof.
  rewrite closeFlow_eq. unfold SrcOk, close_proxy, close_detach, close_layout.
  open_world w. intros H.
  destruct fr as [n|]; [destruct (decide _)|]; simpl.
  - destruct un; simpl; intros ? [= <-]; rewrite lookup_delete_eq;
      by intros [? ?].
  - exact H.
  - by destruct un.
Qed.

Lemma dispatcher_SrcOk d (w : World) : SrcOk w → SrcOk (fst (dispatcher d w)).
Proof.
  intros H. rewrite dispatcher_eq. pose proof (closeFlow_SrcOk w H) as Hc.
  destruct d as [|ty]; [done|]. destruct (includes _ ty); [|done].
  destruct (strict_eq _ _).
  - destruct (closeFlow w) as [w' [e|[]]]; [done|]. simpl in Hc.
    destruct (callbacks _ !! _); [|done]. exact Hc.
  - destruct (callbacks _ !! _); [|done]. exact H.
Qed.

Lemma ready_rest_SrcOk (i : nat) (w : World) : SrcOk w → SrcOk (ready_rest i w).
Proof.
  unfold SrcOk, ready_rest, ready_register, ready_reveal, ready_install,
    eventInited.
  unfold_prims. open_world w. intros H.
  destruct fr as [n|]; simpl; [|
    destruct (strict_eq mode (VStr "embed")); simpl;
    destruct (msgListeners p !! i) as [[[]|]|]; done].
  destruct (bool_decide _); simpl;
    destruct (strict_eq mode (VStr "embed")); simpl;
    destruct (msgListeners p !! i) as [[[]|]|]; simpl;
    intros ? [= <-] Hp; rewrite ?lookup_delete_ne by (intros [=]);
    by apply H.
Qed.

Lemma ready_listener_SrcOk i d (w : World) :
  SrcOk w → SrcOk (fst (ready_listener i d w)).
Proof.
  intros H. rewrite ready_listener_eq. destruct d as [|ty]; [done|].
  destruct (strict_eq ty (VStr "ready")); [|done].
  destruct (loaderElement (this w)) as [e|].
  - destruct (loader (this w)) as [l|]; [|done].
    destruct (decide _); [|done]. simpl.
    apply ready_rest_SrcOk. unfold SrcOk, ready_detach. simpl.
    intros n Hn [q Hq]. apply lookup_delete_Some in Hq as [_ Hq].
    apply H; [done|by eexists].
  - by apply ready_rest_SrcOk.
Qed.

Lemma report_SrcOk {A} (r : World * (Exn + A)) : SrcOk (fst r) → SrcOk (report r).
Proof. by destruct r as [w [e|a]]. Qed.

Lemma deliver_SrcOk d (w : World) : SrcOk w → SrcOk (deliver d w).
Proof.
  unfold deliver. generalize (seq 0 (length (msgListeners (page w)))).
  intros l. revert w. induction l as [|i l IH]; intros w H; [done|].
  simpl. apply IH. unfold run_listener.
  destruct (msgListeners (page w) !! i) as [[b|]|]; [| |done].
  - by apply report_SrcOk, ready_listener_SrcOk.
  - by apply report_SrcOk, dispatcher_SrcOk.
Qed.

Lemma click_SrcOk t (w : World) : SrcOk w → SrcOk (click t w).
Proof.
  intros H. unfold click. generalize (clickListeners (page w)). intros n.
  induction n as [|n IH]; [done|]. simpl. apply report_SrcOk.
  rewrite click_listener_eq. destruct (_ && _); [|done].
  by apply openSession_SrcOk.
Qed.

Lemma initEmbed_SrcOk (w : World) : SrcOk w → SrcOk (fst (_initEmbed w)).
Proof.
  rewrite initEmbed_eq. unfold SrcOk, embed_mount. rewrite getFlow_eq.
  unfold_prims. open_world w. intros H.
  destruct (truthy eid); [|done]. destruct (decide _); simpl; [|exact H].
  destruct fr as [n|]; simpl; [|done].
  intros ? [= <-] _. rewrite !lookup_insert_ne by (intros [=]).
  apply frame_attributes_src.
Qed.

Lemma timer_SrcOk (w : World) : SrcOk w → SrcOk (timer w).
Proof.
  intros H. rewrite timer_eq. destruct (timers (page w)) as [|k]; [done|].
  by apply initEmbed_SrcOk.
Qed.

Lemma initLoad_SrcOk (w : World) : SrcOk w → SrcOk (fst (_initLoad w)).
Proof.
  intros H. unfold _initLoad, _initModal, bind, field, read. simpl.
  destruct (strict_eq _ _).
  - exact H.
  - pose proof (initEmbed_SrcOk w H) as HE.
    pose proof (initEmbed_returns w) as Hr.
    destruct (_initEmbed w) as [w' [e|[]]]; [discriminate|exact HE].
Qed.

Lemma init_SrcOk (o : option Opt.t) (w : World) :
  Inv w → SrcOk w → SrcOk (fst (init o w)).
Proof.
  intros HI H. destruct (alreadyInit (this w)) eqn:Ha.
  { by rewrite init_done. }
  destruct (truthy (opt Opt.type o)
            && negb (includes ["modal"; "embed"] (opt Opt.type o))) eqn:Hv.
  { apply andb_true_iff in Hv as [Hv1 Hv2]. apply negb_true_iff in Hv2.
    by rewrite init_rejects. }
  pose proof (inv_fresh w HI (nextNode (page w)) (le_n _)) as Hfresh.
  unfold init. unfold_prims. rewrite Ha, Hv. simpl.
  destruct (truthy (opt Opt.element_id o)) eqn:Hid; simpl;
    match goal with |- context [_initLoad ?W] =>
      assert (SrcOk W) as HW;
      [ unfold SrcOk; simpl; intros ? [= <-]; rewrite Hfresh; by intros [? ?]
      | pose proof (initLoad_SrcOk W HW) as HL;
        pose proof (initLoad_returns W) as Hr;
        destruct (_initLoad W) as [w2 [e|[]]]; [discriminate|exact HL] ]
    end.
Qed.

Lemma exec_SrcOk (w : World) (a : Action) : Inv w → SrcOk w → SrcOk (exec w a).
Proof.
  intros HI H. destruct a; simpl.
  - by apply init_SrcOk.
  - by apply on_SrcOk.
  - by apply openSession_SrcOk.
  - by apply closeFlow_SrcOk.
  - apply getFlow_SrcOk.
  - by apply deliver_SrcOk.
  - by apply click_SrcOk.
  - by apply timer_SrcOk.
  - exact H.
Qed.

(** X10. Whatever happens to a client, a frame that is attached to the
    page carries as [src] the URL [_formatURL] builds from the client's
    current fields. *)
Theorem attached_frame_shows_configured_url :
  ∀ (w : World) (n : Node),
    reachable w →
    iframe (this w) = Some n →
    is_Some (parent (page w) !! n) →
    attrs (page w) !! (n, "src") = Some (_formatURL (this w)).
Proof.
  intros w n Hreach. revert n.
  induction Hreach as [sid svc url ids st w Hc | w a Hreach IH].
  - unfold construct in Hc. destruct (_ || _); [discriminate|].
    injection Hc as <-. discriminate.
  - apply exec_SrcOk; [by apply reachable_Inv | exact IH].
Qed.

Lemma attached_frame_shows_configured_url_witness :
  attrs (page opened_session) !! (NNew 1, "src")
  = Some (_formatURL (this opened_session)).
Proof.
  apply (attached_frame_shows_configured_url opened_session (NNew 1)
           reachable_opened_session).
  - vm_compute. reflexivity.
  - vm_compute. by eexists.
Defined.

(** ** The loader *)

Lemma closeFlow_parent (w : World) (l : Node) :
  iframe (this w) ≠ Some l →
  parent (page (fst (closeFlow w))) !! l = parent (page w) !! l.
Proof.
  intros Hne. rewrite closeFlow_eq.
  unfold close_proxy, close_detach, close_layout. open_world w.
  destruct fr as [n|]; [destruct (decide _)|]; simpl.
  - destruct un; simpl; apply lookup_delete_ne; congruence.
  - reflexivity.
  - by destruct un.
Qed.

(** X11. [closeFlow()] never touches the loader: no node other than the
    frame changes parent, and the fields [loader] and [loaderElement] stay.
    So a session that is opened and closed with no [ready] in between keeps
    the loader [openSession()] appended as a child of the body, while the
    frame is detached and [isOpen] is false again. *)
Theorem closeFlow_leaves_loader :
  ∀ w : World,
    (∀ l, iframe (this w) ≠ Some l →
          parent (page (fst (closeFlow w))) !! l = parent (page w) !! l)
    ∧ loader (this (fst (closeFlow w))) = loader (this w)
    ∧ loaderElement (this (fst (closeFlow w))) = loaderElement (this w)
    ∧ (reachable w → isOpen (this w) = false →
       snd (closeFlow (fst (openSession w))) = inr tt
       ∧ loader (this (fst (closeFlow (fst (openSession w)))))
         = Some (NNew (nextNode (page w)))
       ∧ parent (page (fst (closeFlow (fst (openSession w)))))
           !! NNew (nextNode (page w)) = Some NBody
       ∧ isOpen (this (fst (closeFlow (fst (openSession w))))) = false
       ∧ ∀ n, iframe (this w) = Some n →
              parent (page (fst (closeFlow (fst (openSession w))))) !! n = None).
Proof.
  intros w. split; [apply closeFlow_parent|].
  assert (∀ v, loader (this (fst (closeFlow v))) = loader (this v)
               ∧ loaderElement (this (fst (closeFlow v)))
                 = loaderElement (this v)) as Hfields.
  { intros v. rewrite closeFlow_eq.
    unfold close_proxy, close_detach, close_layout. open_world v.
    destruct fr as [n|]; [destruct (decide _)|]; simpl; try done;
      by destruct un. }
  split; [apply Hfields|]. split; [apply Hfields|].
  intros Hreach Hclosed. pose proof (reachable_Inv w Hreach) as HI.
  destruct (openSession_core w Hclosed) as (Hf & _ & _ & Hp).
  assert (loader (this (fst (openSession w))) = Some (NNew (nextNode (page w)))
          ∧ parent (page (fst (openSession w))) !! NNew (nextNode (page w))
            = Some NBody) as [Hl Hlp].
  { unfold openSession. unfold_prims.
    pose proof (inv_frame w HI) as Hfr.
    open_world w. subst op. simpl.
    destruct fr as [n|]; simpl; (split; [reflexivity|]).
    - destruct (Hfr n eq_refl) as (k & -> & Hk).
      rewrite lookup_insert_ne by (intros [=]; lia). apply lookup_insert_eq.
    - apply lookup_insert_eq. }
  assert (snd (closeFlow (fst (openSession w))) = inr tt) as Hret.
  { apply closeFlow_attached. intros n Hn. rewrite Hf in Hn. by apply Hp. }
  split; [exact Hret|].
  destruct (Hfields (fst (openSession w))) as [-> _].
  split; [exact Hl|]. split.
  - rewrite closeFlow_parent; [exact Hlp|]. rewrite Hf. intros Hn.
    destruct (inv_frame w HI _ Hn) as (k & [= <-] & Hk). lia.
  - split; [apply closeFlow_isOpen|]. intros n Hn.
    destruct (closeFlow_returns _ Hret) as (Hdet & _). apply Hdet.
    pose proof (closeFlow_census (fst (openSession w))) as (-> & _).
    by rewrite Hf.
Qed.

Lemma closeFlow_leaves_loader_witness :
  parent (page (fst (closeFlow (fst (openSession modal_session))))) !! NNew 2
  = Some NBody.
Proof.
  destruct (proj2 (proj2 (proj2 (closeFlow_leaves_loader modal_session)))
              reachable_modal_session ltac:(vm_compute; reflexivity))
    as (_ & _ & H & _).
  exact H.
Defined.

(** ** The first ready *)

Lemma ready_rest_effects (i : nat) (w : World) :
  reported (page (ready_rest i w)) = reported (page w)
  ∧ attrs (page (ready_rest i w))
    = (if strict_eq (type (this w)) (VStr "embed")
       then match iframe (this w) with
            | Some n => delete (n, "style") (attrs (page w))
            | None => attrs (page w)
            end
       else attrs (page w))
  ∧ trace (page (ready_rest i w)) = trace (page (ready_install w)).
Proof.
  unfold ready_rest, ready_register, ready_reveal, ready_install, eventInited.
  unfold_prims. open_world w.
  destruct fr as [n|]; simpl;
    [destruct (bool_decide _); simpl|];
    destruct (strict_eq mode (VStr "embed")); simpl;
    destruct (msgListeners p !! i) as [[[]|]|]; done.
Qed.

Lemma ready_install_trace (w : World) (n : Node) :
  iframe (this w) = Some n → is_Some (parent (page w) !! n) →
  trace (page (ready_install w))
  = trace (page w) ++ [EInstall (nextHandle (page w)) (_formatURL (this w))].
Proof.
  intros Hn Hp. unfold ready_install. rewrite Hn.
  by rewrite bool_decide_eq_true_2.
Qed.

(** X12. The first [ready] an initialised session receives is handled
    without an exception.  It registers the dispatcher; removes the
    recorded loader from its element; if the frame is attached, installs a
    proxy for the current URL and keeps its uninstaller; in embed mode
    removes the frame's [style] attribute, and in modal mode leaves every
    attribute as it is; and it leaves [isOpen] unchanged. *)
Theorem first_ready_activates :
  ∀ w : World,
    reachable w →
    msgListeners (page w) = [LReady false] →
    reported (page (deliver ready w)) = reported (page w)
    ∧ msgListeners (page (deliver ready w)) = [LReady true; LDispatch]
    ∧ isOpen (this (deliver ready w)) = isOpen (this w)
    ∧ (∀ e l, loaderElement (this w) = Some e → loader (this w) = Some l →
              parent (page w) !! l = Some e
              ∧ parent (page (deliver ready w)) !! l = None)
    ∧ (∀ n, iframe (this w) = Some n → is_Some (parent (page w) !! n) →
            providerProxyUninstaller (this (deliver ready w))
            = Some (nextHandle (page w))
            ∧ activeProxies (page (deliver ready w))
              = nextHandle (page w) :: activeProxies (page w)
            ∧ EInstall (nextHandle (page w)) (_formatURL (this w))
              ∈ trace (page (deliver ready w)))
    ∧ attrs (page (deliver ready w))
      = (if decide (type (this w) = VStr "embed")
         then match iframe (this w) with
              | Some n => delete (n, "style") (attrs (page w))
              | None => attrs (page w)
              end
         else attrs (page w)).
Proof.
  intros w Hreach Hl. pose proof (reachable_Inv w Hreach) as HI.
  rewrite deliver_first by exact Hl. rewrite ready_listener_eq. simpl.
  assert (∀ v, type (this v) = type (this w) → iframe (this v) = iframe (this w) →
               attrs (page v) = attrs (page w) →
    attrs (page (ready_rest 0 v))
    = (if decide (type (this w) = VStr "embed")
       then match iframe (this w) with
            | Some n => delete (n, "style") (attrs (page w))
            | None => attrs (page w)
            end
       else attrs (page w))) as Hattrs.
  { intros v Hty Hfr Hat. destruct (ready_rest_effects 0 v) as (_ & -> & _).
    rewrite Hty, Hfr, Hat. unfold strict_eq.
    destruct (decide (type (this w) = VStr "embed")) as [He|He].
    - by rewrite bool_decide_eq_true_2.
    - by rewrite bool_decide_eq_false_2. }
  destruct (loaderElement (this w)) as [e|] eqn:Hle.
  - destruct (inv_loader w HI e Hle) as (k & Hk & _ & Hne & Hatt). rewrite Hk.
    assert (parent (page w) !! NNew k = Some e) as Hp.
    { apply Hatt. rewrite Hl. set_solver. }
    destruct (decide (parent (page w) !! NNew k = Some e)) as [_|Hno];
      [|done]. simpl.
    set (v := ready_detach e (NNew k) w).
    pose proof (ready_rest_core 0 v) as (_ & C2 & _ & _ & _ & C6).
    pose proof (ready_rest_proxies 0 v) as [P1 P2].
    pose proof (ready_rest_quiet 0 v) as (_ & _ & Q3 & _).
    destruct (ready_rest_effects 0 v) as (E1 & _ & E3).
    split; [exact E1|].
    split; [apply (ready_rest_listeners 0 false);
            [left; exact Hl | unfold v, ready_detach; simpl; by rewrite Hl]|].
    split; [exact Q3|]. split; [|split].
    + intros e' l' [= <-] [= <-]. split; [done|]. rewrite C6. unfold v. simpl.
      apply lookup_delete_eq.
    + intros n Hn Hpn.
      assert (is_Some (parent (page v) !! n)) as Hpv.
      { unfold v. simpl. rewrite lookup_delete_ne by congruence. done. }
      destruct (ready_install_attached v n Hn Hpv) as [I1 I2].
      rewrite P1, P2, E3, (ready_install_trace v n Hn Hpv).
      split; [exact I1|]. split; [exact I2|]. set_solver.
    + by apply Hattrs.
  - simpl.
    pose proof (ready_rest_core 0 w) as (_ & C2 & _ & _ & _ & C6).
    pose proof (ready_rest_proxies 0 w) as [P1 P2].
    pose proof (ready_rest_quiet 0 w) as (_ & _ & Q3 & _).
    destruct (ready_rest_effects 0 w) as (E1 & _ & E3).
    split; [exact E1|].
    split; [apply (ready_rest_listeners 0 false); [by left | by rewrite Hl]|].
    split; [exact Q3|]. split; [|split].
    + discriminate.
    + intros n Hn Hpn.
      destruct (inv_attached w HI n Hn Hpn) as [? ?]. congruence.
    + by apply Hattrs.
Qed.

Lemma first_ready_activates_witness :
  reported (page (deliver ready opened_session)) = reported (page opened_session)
  ∧ msgListeners (page (deliver ready opened_session)) = [LReady true; LDispatch].
Proof.
  destruct (first_ready_activates opened_session reachable_opened_session
              ltac:(vm_compute; reflexivity)) as (H1 & H2 & _).
  split; [exact H1 | exact H2].
Defined.

(** ** Signals to a closed modal session *)

Lemma strict_eq_not_ready (t : string) :
  t ∈ ["finish"; "close"] → strict_eq (VStr t) (VStr "ready") = false.
Proof.
  intros Ht. repeat (apply elem_of_cons in Ht as [->|Ht]); [done..|].
  by apply elem_of_nil in Ht.
Qed.

(** An initialised modal session that is closed has its frame detached and
    no proxy. *)
Lemma closed_modal_detached (w : World) :
  Census w → ModalProxies w →
  alreadyInit (this w) = true → type (this w) = VStr "modal" →
  isOpen (this w) = false →
  (∃ n, iframe (this w) = Some n ∧ parent (page w) !! n = None)
  ∧ providerProxyUninstaller (this w) = None
  ∧ activeProxies (page w) = [].
Proof.
  intros HC HM Ha Hty Ho.
  destruct (census_modal w HC Ha Hty) as ([n Hn] & _).
  assert (providerProxyUninstaller (this w) = None) as Hun.
  { destruct (providerProxyUninstaller (this w)) as [h|] eqn:Hh; [|done].
    destruct (mp_held w HM h Hh) as (_ & (n' & Hn' & Hp') & _).
    destruct (mp_frame w HM n' NBody Hn' Hp'). congruence. }
  split; [|split; [exact Hun | by apply (mp_none w HM)]].
  exists n. split; [done|].
  destruct (parent (page w) !! n) as [q|] eqn:Hq; [|done].
  destruct (mp_frame w HM n q Hn Hq). congruence.
Qed.

(** X14. On an initialised modal session that is closed, [closeFlow()]
    throws the [NotFoundError] of [document.body.removeChild], having only
    cleared the layout overrides.  So once the dispatcher is registered, a
    [finish] or [close] message to the closed session ends in that
    exception, which is reported: no callback is called and the page tree
    stays as it is. *)
Theorem signal_after_close_throws :
  ∀ (w : World) (t : string),
    reachable w →
    alreadyInit (this w) = true →
    type (this w) = VStr "modal" →
    isOpen (this w) = false →
    closeFlow w = (close_layout w, inl NotFoundError)
    ∧ (LDispatch ∈ msgListeners (page w) → t ∈ ["finish"; "close"] →
       deliver (DObject (VStr t)) w
       = report (close_layout w, @inl Exn unit NotFoundError)
       ∧ reported (page (deliver (DObject (VStr t)) w))
         = reported (page w) ++ [NotFoundError]
       ∧ callback_calls (deliver (DObject (VStr t)) w) = callback_calls w
       ∧ parent (page (deliver (DObject (VStr t)) w)) = parent (page w)).
Proof.
  intros w t Hreach Ha Hty Ho.
  pose proof (reachable_Inv w Hreach) as HI.
  pose proof (reachable_Census w Hreach) as HC.
  pose proof (reachable_ModalProxies w Hreach Hty) as HM.
  destruct (closed_modal_detached w HC HM Ha Hty Ho) as ((n & Hn & Hp) & _).
  assert (closeFlow w = (close_layout w, inl NotFoundError)) as Hclose.
  { rewrite closeFlow_eq, Hn. destruct (decide _) as [He|He]; [congruence|done]. }
  split; [exact Hclose|]. intros Hreg Ht.
  pose proof (registered_shape w HI Hreg) as Hl.
  assert (deliver (DObject (VStr t)) w
          = report (close_layout w, @inl Exn unit NotFoundError)) as ->.
  { rewrite deliver_registered by done.
    rewrite ready_listener_eq, strict_eq_not_ready by done. simpl.
    rewrite dispatcher_eq, includes_finish_close, Hty by done. simpl.
    by rewrite Hclose. }
  split; [done|]. unfold callback_calls. simpl.
  rewrite omap_app, app_nil_r. done.
Qed.

Lemma reachable_closed_session : reachable closed_session.
Proof. apply reach_step, reachable_active_session. Qed.

Lemma signal_after_close_throws_witness :
  reported (page (deliver finish closed_session))
  = reported (page closed_session) ++ [NotFoundError]
  ∧ callback_calls (deliver finish closed_session) = callback_calls closed_session.
Proof.
  destruct (proj2 (signal_after_close_throws closed_session "finish"
                     reachable_closed_session
                     ltac:(vm_compute; reflexivity) ltac:(vm_compute; reflexivity)
                     ltac:(vm_compute; reflexivity))
              ltac:(vm_compute; set_solver) ltac:(set_solver))
    as (_ & H1 & H2 & _).
  split; [exact H1 | exact H2].
Defined.

(** ** A modal session, cycle after cycle *)

Lemma openSession_effects (w : World) (n : Node) :
  isOpen (this w) = false → iframe (this w) = Some n →
  loaderElement (this (fst (openSession w))) = Some NBody
  ∧ loader (this (fst (openSession w))) = Some (NNew (nextNode (page w)))
  ∧ parent (page (fst (openSession w)))
    = <[n := NBody]> (<[NNew (nextNode (page w)) := NBody]> (parent (page w)))
  ∧ style (page (fst (openSession w)))
    = <[(NHtml, "overflow") := "hidden"]> (style (page w))
  ∧ msgListeners (page (fst (openSession w))) = msgListeners (page w)
  ∧ reported (page (fst (openSession w))) = reported (page w)
  ∧ nextHandle (page (fst (openSession w))) = nextHandle (page w)
  ∧ callbacks (this (fst (openSession w))) = callbacks (this w)
  ∧ type (this (fst (openSession w))) = type (this w)
  ∧ callback_calls (fst (openSession w)) = callback_calls w.
Proof.
  intros Ho Hn. unfold openSession, callback_calls. unfold_prims.
  open_world w. subst op fr. simpl.
  rewrite !omap_app. simpl. rewrite !app_nil_r. done.
Qed.

Lemma ready_rest_fields (i : nat) (w : World) :
  type (this (ready_rest i w)) = type (this w)
  ∧ callbacks (this (ready_rest i w)) = callbacks (this w).
Proof.
  unfold ready_rest, ready_register, ready_reveal, ready_install, eventInited.
  unfold_prims. open_world w.
  destruct fr as [n|]; simpl;
    [destruct (bool_decide _); simpl|];
    destruct (strict_eq mode (VStr "embed")); simpl;
    destruct (msgListeners p !! i) as [[[]|]|]; done.
Qed.

(** X13. A cycle of a modal session -- [openSession()] on the closed,
    initialised session, then the frame's [ready], then a [finish] or
    [close] message -- goes through without an exception, the first time
    and every later time.  After the [ready] the session is open with the
    frame on the body, the new loader detached and exactly one proxy
    active.  After the [finish] or [close] the session is closed, no proxy
    is active and no uninstaller held, the page tree is the one before the
    cycle, the layout overrides are gone with every other inline style as
    before, and the callback registered for the message, if any, has been
    called once. *)
Theorem modal_cycle_leaves_nothing_behind :
  ∀ (w : World) (t : string),
    reachable w →
    alreadyInit (this w) = true →
    type (this w) = VStr "modal" →
    isOpen (this w) = false →
    t ∈ ["finish"; "close"] →
    let w1 := fst (openSession w) in
    let w2 := deliver ready w1 in
    let w3 := deliver (DObject (VStr t)) w2 in
    (isOpen (this w2) = true
     ∧ activeProxies (page w2) = [nextHandle (page w)]
     ∧ (∀ n, iframe (this w) = Some n → parent (page w2) !! n = Some NBody)
     ∧ parent (page w2) !! NNew (nextNode (page w)) = None)
    ∧ reported (page w3) = reported (page w)
    ∧ isOpen (this w3) = false
    ∧ activeProxies (page w3) = []
    ∧ providerProxyUninstaller (this w3) = None
    ∧ parent (page w3) = parent (page w)
    ∧ layout_restored w w3
    ∧ callback_calls w3
      = callback_calls w ++ match callbacks (this w) !! t with
                            | Some cb => [(t, cb)]
                            | None => []
                            end
    ∧ msgListeners (page w3) = [LReady true; LDispatch].
Proof.
  intros w t Hreach Ha Hty Ho Ht. cbv zeta.
  pose proof (reachable_Inv w Hreach) as HI.
  pose proof (reachable_Census w Hreach) as HC.
  pose proof (reachable_ModalProxies w Hreach Hty) as HM.
  destruct (closed_modal_detached w HC HM Ha Hty Ho)
    as ((n & Hn & Hdet) & Hun & Hact).
  destruct (inv_frame w HI n Hn) as (k & -> & Hk).
  assert (parent (page w) !! NNew (nextNode (page w)) = None) as Hfresh.
  { by apply (inv_fresh w HI). }
  destruct (openSession_effects w (NNew k) Ho Hn)
    as (O1 & O2 & O3 & O4 & O5 & O6 & O7 & O8 & O9 & O10).
  destruct (openSession_core w Ho) as (Hf1 & Hu1 & Ha1 & _).
  pose proof (openSession_isOpen w) as Ho1.
  pose proof (reachable_Inv _ (reach_step w AOpenSession Hreach)) as HI1.
  simpl in HI1.
  pose proof (inv_listeners w HI) as Hshape. rewrite Ha, <- O5 in Hshape.
  remember (fst (openSession w)) as w1 eqn:E1. clear E1.
  set (l := NNew (nextNode (page w))) in *.
  (* the ready *)
  assert (deliver ready w1 = ready_rest 0 (ready_detach NBody l w1)) as E2.
  { assert (deliver ready w1 = report (ready_listener 0 ready w1)) as ->.
    { destruct Hshape as [Hs|Hs]; [by apply deliver_first|].
      rewrite deliver_registered by done. by rewrite dispatcher_ignores. }
    rewrite ready_listener_eq. simpl. rewrite O1, O2.
    rewrite decide_True; [done|]. rewrite O3.
    rewrite lookup_insert_ne by (unfold l; intros [=]; lia).
    apply lookup_insert_eq. }
  set (v := ready_detach NBody l w1) in *.
  assert (iframe (this v) = Some (NNew k)) as Hnv by (simpl; congruence).
  assert (parent (page v) = <[NNew k := NBody]> (parent (page w))) as Hpv.
  { unfold v. simpl. rewrite O3.
    rewrite delete_insert_ne by (unfold l; intros [=]; lia).
    by rewrite delete_insert_id. }
  assert (is_Some (parent (page v) !! NNew k)) as Hav.
  { rewrite Hpv, lookup_insert_eq. by eexists. }
  pose proof (ready_rest_core 0 v) as (_ & C2 & _ & _ & _ & C6).
  pose proof (ready_rest_proxies 0 v) as [P1 P2].
  pose proof (ready_rest_quiet 0 v) as (Q1 & _ & Q3 & Q4).
  destruct (ready_rest_effects 0 v) as (R1 & _ & _).
  destruct (ready_rest_fields 0 v) as (F1 & F2).
  destruct (ready_install_attached v (NNew k) Hnv Hav) as [I1 I2].
  assert (msgListeners (page (ready_rest 0 v)) = [LReady true; LDispatch]) as L2.
  { destruct Hshape as [Hs|Hs].
    - apply (ready_rest_listeners 0 false); [by left|].
      unfold v, ready_detach. simpl. by rewrite Hs.
    - apply (ready_rest_listeners 0 true); [by right|].
      unfold v, ready_detach. simpl. by rewrite Hs. }
  assert (callback_calls v = callback_calls w) as CCv.
  { rewrite <- O10. unfold v, callback_calls. simpl.
    by rewrite omap_app, app_nil_r. }
  rewrite E2. clear E2.
  assert (isOpen (this (ready_rest 0 v)) = true) as Ho2 by (by rewrite Q3).
  assert (activeProxies (page (ready_rest 0 v)) = [nextHandle (page w)]) as A2.
  { rewrite P1, I2. simpl. by rewrite O7, Ha1, Hact. }
  assert (providerProxyUninstaller (this (ready_rest 0 v))
          = Some (nextHandle (page w))) as U2.
  { rewrite P2, I1. simpl. by rewrite O7. }
  assert (type (this (ready_rest 0 v)) = VStr "modal") as T2.
  { rewrite F1. simpl. congruence. }
  assert (callbacks (this (ready_rest 0 v)) = callbacks (this w)) as CB2.
  { rewrite F2. simpl. congruence. }
  assert (reported (page (ready_rest 0 v)) = reported (page w)) as R2.
  { rewrite R1. simpl. congruence. }
  assert (style (page (ready_rest 0 v))
          = <[(NHtml, "overflow") := "hidden"]> (style (page w))) as S2.
  { rewrite Q4. simpl. congruence. }
  rewrite CCv in Q1. rewrite Hnv in C2. rewrite Hpv in C6.
  clear P1 P2 Q3 Q4 R1 F1 F2 I1 I2 Hav Hnv Hpv CCv.
  remember (ready_rest 0 v) as w2 eqn:E2. clear E2.
  split.
  { split; [done|]. split; [done|]. split.
    - intros n' Hn'. rewrite Hn in Hn'. injection Hn' as <-.
      rewrite C6. apply lookup_insert_eq.
    - rewrite C6. rewrite lookup_insert_ne by (unfold l; intros [=]; lia). done. }
  (* the finish or close *)
  assert (deliver (DObject (VStr t)) w2
          = report (dispatcher (DObject (VStr t)) w2)) as ->.
  { rewrite deliver_registered by done.
    by rewrite ready_listener_eq, strict_eq_not_ready by done. }
  rewrite dispatcher_eq, includes_finish_close, T2 by done. simpl.
  rewrite closeFlow_eq, C2, decide_True
    by (rewrite C6; apply lookup_insert_eq).
  simpl.
  unfold close_proxy, close_detach, close_layout, callback_calls in *.
  open_world w2. subst. simpl.
  assert (filter (λ x, x ≠ nextHandle (page w)) (activeProxies p) = []) as Hfil.
  { rewrite A2. by rewrite filter_cons_False by (intros H; by apply H). }
  assert (layout_restored w
            {| this := this w;
               page := set_style (delete (NBody, "margin")
                 (delete (NHtml, "margin") (delete (NBody, "overflow")
                    (delete (NHtml, "overflow") (style p))))) p |}) as Hlay.
  { apply deleted_restored. simpl. by rewrite S2, delete_insert_eq. }
  destruct Hlay as [Hlay1 Hlay2].
  destruct (callbacks (this w) !! t) as [cb|]; simpl;
    rewrite ?omap_app, ?Q1, ?Hfil, ?C6, ?delete_insert_id by done; simpl;
    rewrite ?app_nil_r;
    (split; [exact R2|]); (split; [reflexivity|]); (split; [reflexivity|]);
    (split; [reflexivity|]); (split; [reflexivity|]);
    (split; [split; [exact Hlay1 | exact Hlay2]|]);
    (split; [reflexivity | exact L2]).
Qed.

Lemma modal_cycle_leaves_nothing_behind_witness :
  parent (page (deliver finish (deliver ready (fst (openSession closed_session)))))
  = parent (page closed_session)
  ∧ activeProxies
      (page (deliver finish (deliver ready (fst (openSession closed_session)))))
    = [].
Proof.
  destruct (modal_cycle_leaves_nothing_behind closed_session "finish"
              reachable_closed_session
              ltac:(vm_compute; reflexivity) ltac:(vm_compute; reflexivity)
              ltac:(vm_compute; reflexivity) ltac:(set_solver))
    as (_ & _ & _ & H4 & _ & H6 & _).
  split; [exact H6 | exact H4].
Defined.

(** ** The style sheet stays *)

Lemma frame_attributes_other (n : Node) (src sty : string)
    (m : gmap (Node * string) string) (k : Node) (a : string) :
  k ≠ n → frame_attributes n src sty m !! (k, a) = m !! (k, a).
Proof.
  intros Hne. unfold frame_attributes.
  by rewrite !lookup_insert_ne by congruence.
Qed.

Lemma Sheet_same (w w' : World) :
  Sheet w →
  parent (page w') = parent (page w) →
  attrs (page w') = attrs (page w) →
  nextNode (page w') = nextNode (page w) →
  iframe (this w') = iframe (this w) →
  loader (this w') = loader (this w) →
  Sheet w'.
Proof.
  intros [S1 S2 S3 S4 S5 S6] Hp Hat Hn Hf Hl.
  constructor; rewrite ?Hp, ?Hat, ?Hn, ?Hf, ?Hl; assumption.
Qed.

Lemma construct_Sheet sid svc url ids st (w : World) :
  construct sid svc url (new_page ids st) = inr w → Sheet w.
Proof.
  unfold construct. destruct (_ || _); [discriminate|].
  intros [= <-]. constructor; simpl; first [done | lia | by simplify_map_eq].
Qed.

Lemma on_Sheet t cb (w : World) : Sheet w → Sheet (fst (on t cb w)).
Proof. intros H. apply (Sheet_same w); [assumption | reflexivity..]. Qed.

Lemma getFlow_Sheet (w : World) : Sheet w → Sheet (fst (getFlow w)).
Proof.
  intros [S1 S2 S3 S4 S5 S6]. rewrite getFlow_eq.
  destruct (iframe (this w)) as [n|] eqn:Hn;
    [|constructor; simpl; congruence].
  constructor; simpl; rewrite ?frame_attributes_other by congruence;
    congruence.
Qed.

Lemma openSession_Sheet (w : World) : Sheet w → Sheet (fst (openSession w)).
Proof.
  intros [S1 S2 S3 S4 S5 S6]. unfold openSession. unfold_prims.
  open_world w. destruct op; [by constructor|]. simpl.
  destruct fr as [n|]; constructor; simpl;
    rewrite ?lookup_insert_ne by (intros [=]; first [lia | congruence]);
    first [done | lia | intros [=]; lia].
Qed.

Lemma closeFlow_Sheet (w : World) : Sheet w → Sheet (fst (closeFlow w)).
Proof.
  intros [S1 S2 S3 S4 S5 S6]. rewrite closeFlow_eq.
  unfold close_proxy, close_detach, close_layout. open_world w.
  destruct fr as [n|]; [destruct (decide _)|]; simpl;
    try destruct un; constructor; simpl;
    rewrite ?lookup_delete_ne by congruence; done.
Qed.

Lemma dispatcher_Sheet d (w : World) : Sheet w → Sheet (fst (dispatcher d w)).
Proof.
  intros H. rewrite dispatcher_eq. pose proof (closeFlow_Sheet w H) as Hc.
  destruct d as [|ty]; [done|]. destruct (includes _ ty); [|done].
  destruct (strict_eq _ _).
  - destruct (closeFlow w) as [w' [e|[]]]; [done|]. simpl in Hc.
    destruct (callbacks _ !! _); [|done].
      apply (Sheet_same w'); [assumption | reflexivity..].
  - destruct (callbacks _ !! _); [|done].
      apply (Sheet_same w); [assumption | reflexivity..].
Qed.

Lemma ready_rest_Sheet (i : nat) (w : World) : Sheet w → Sheet (ready_rest i w).
Proof.
  intros [S1 S2 S3 S4 S5 S6].
  pose proof (ready_rest_core i w) as (_ & C2 & _ & C4 & C5 & C6).
  destruct (ready_rest_effects i w) as (_ & E2 & _).
  constructor; rewrite ?C2, ?C4, ?C5, ?C6, ?E2; try done.
  - destruct (strict_eq _ _); [|done].
    destruct (iframe (this w)) as [n|]; [|done].
    by rewrite lookup_delete_ne by (intros [=]).
  - destruct (strict_eq _ _); [|done].
    destruct (iframe (this w)) as [n|]; [|done].
    by rewrite lookup_delete_ne by (intros [=]).
Qed.

Lemma ready_listener_Sheet i d (w : World) :
  Sheet w → Sheet (fst (ready_listener i d w)).
Proof.
  intros H. rewrite ready_listener_eq. destruct d as [|ty]; [done|].
  destruct (strict_eq ty (VStr "ready")); [|done].
  destruct (loaderElement (this w)) as [e|].
  - destruct (loader (this w)) as [l|] eqn:Hl; [|done].
    destruct (decide _); [|done]. simpl.
    apply ready_rest_Sheet. destruct H as [S1 S2 S3 S4 S5 S6].
    constructor; unfold ready_detach; simpl; try done.
    rewrite lookup_delete_ne by congruence. done.
  - by apply ready_rest_Sheet.
Qed.

Lemma report_Sheet {A} (r : World * (Exn + A)) : Sheet (fst r) → Sheet (report r).
Proof.
  destruct r as [w [e|a]]; [|done]. intros H.
  apply (Sheet_same w); [assumption | reflexivity..].
Qed.

Lemma deliver_Sheet d (w : World) : Sheet w → Sheet (deliver d w).
Proof.
  unfold deliver. generalize (seq 0 (length (msgListeners (page w)))).
  intros l. revert w. induction l as [|i l IH]; intros w H; [done|].
  simpl. apply IH. unfold run_listener.
  destruct (msgListeners (page w) !! i) as [[b|]|]; [| |done].
  - by apply report_Sheet, ready_listener_Sheet.
  - by apply report_Sheet, dispatcher_Sheet.
Qed.

Lemma click_Sheet t (w : World) : Sheet w → Sheet (click t w).
Proof.
  intros H. unfold click. generalize (clickListeners (page w)). intros n.
  induction n as [|n IH]; [done|]. simpl. apply report_Sheet.
  rewrite click_listener_eq. destruct (_ && _); [|done].
  by apply openSession_Sheet.
Qed.

Lemma initEmbed_Sheet (w : World) : Sheet w → Sheet (fst (_initEmbed w)).
Proof.
  intros H. rewrite initEmbed_eq.
  destruct (truthy _); [|done]. destruct (decide _); simpl;
    [|apply (Sheet_same w); [assumption | reflexivity..]].
  destruct H as [S1 S2 S3 S4 S5 S6].
  unfold embed_mount. rewrite getFlow_eq. unfold_prims. open_world w.
  destruct fr as [n|]; constructor; simpl;
    rewrite ?lookup_insert_ne by (intros [=]; first [lia | congruence]);
    rewrite ?frame_attributes_other by congruence;
    first [done | lia | intros [=]; lia].
Qed.

Lemma timer_Sheet (w : World) : Sheet w → Sheet (timer w).
Proof.
  intros H. rewrite timer_eq. destruct (timers (page w)) as [|k]; [done|].
  apply initEmbed_Sheet. apply (Sheet_same w); [assumption | reflexivity..].
Qed.

Lemma initLoad_Sheet (w : World) : Sheet w → Sheet (fst (_initLoad w)).
Proof.
  intros H. unfold _initLoad, _initModal, bind, field, read. simpl.
  destruct (strict_eq _ _).
  - apply (Sheet_same w); [assumption | reflexivity..].
  - pose proof (initEmbed_Sheet w H) as HE.
    pose proof (initEmbed_returns w) as Hr.
    destruct (_initEmbed w) as [w' [e|[]]]; [discriminate|].
    apply (Sheet_same w'); [assumption | reflexivity..].
Qed.

Lemma init_Sheet (o : option Opt.t) (w : World) :
  Sheet w → Sheet (fst (init o w)).
Proof.
  intros H. destruct (alreadyInit (this w)) eqn:Ha.
  { by rewrite init_done. }
  destruct (truthy (opt Opt.type o)
            && negb (includes ["modal"; "embed"] (opt Opt.type o))) eqn:Hv.
  { apply andb_true_iff in Hv as [Hv1 Hv2]. apply negb_true_iff in Hv2.
    by rewrite init_rejects. }
  destruct H as [S1 S2 S3 S4 S5 S6].
  unfold init. unfold_prims. rewrite Ha, Hv. simpl.
  destruct (truthy (opt Opt.element_id o)) eqn:Hid; simpl;
    match goal with |- context [_initLoad ?W] =>
      assert (Sheet W) as HW;
      [ constructor; simpl; first [done | lia | intros [=]; lia]
      | pose proof (initLoad_Sheet W HW) as HL;
        pose proof (initLoad_returns W) as Hr;
        destruct (_initLoad W) as [w2 [e|[]]]; [discriminate|];
        apply (Sheet_same w2); [assumption | reflexivity..] ]
    end.
Qed.

Lemma exec_Sheet (w : World) (a : Action) : Sheet w → Sheet (exec w a).
Proof.
  intros H. destruct a; simpl.
  - by apply init_Sheet.
  - by apply on_Sheet.
  - by apply openSession_Sheet.
  - by apply closeFlow_Sheet.
  - by apply getFlow_Sheet.
  - by apply deliver_Sheet.
  - by apply click_Sheet.
  - by apply timer_Sheet.
  - apply (Sheet_same w); [assumption | reflexivity..].
Qed.

(** X15. Whatever happens to a client, the style sheet its constructor
    created stays in place: it is a child of the head element and keeps its
    type and its text, and neither the frame nor the loader is that
    node. *)
Theorem style_sheet_stays :
  ∀ w : World,
    reachable w →
    parent (page w) !! NNew 0 = Some NHead
    ∧ attrs (page w) !! (NNew 0, "type") = Some "text/css"
    ∧ attrs (page w) !! (NNew 0, "innerText") = Some styles
    ∧ iframe (this w) ≠ Some (NNew 0)
    ∧ loader (this w) ≠ Some (NNew 0).
Proof.
  intros w Hreach.
  assert (Sheet w) as [S1 S2 S3 S4 S5 S6]; [|done].
  induction Hreach as [sid svc url ids st w Hc | w a Hreach IH].
  - by apply (construct_Sheet sid svc url ids st).
  - by apply exec_Sheet.
Qed.

Lemma style_sheet_stays_witness :
  parent (page closed_session) !! NNew 0 = Some NHead
  ∧ attrs (page closed_session) !! (NNew 0, "innerText") = Some styles.
Proof.
  destruct (style_sheet_stays closed_session
              reachable_closed_session) as (H1 & _ & H3 & _).
  split; [exact H1 | exact H3].
Defined.

(** ** Registering callbacks *)

Ltac callbacks_tac :=
  unfold_prims; simpl; repeat case_match; simplify_eq/=; done.

Lemma openSession_callbacks (w : World) :
  callbacks (this (fst (openSession w))) = callbacks (this w).
Proof. unfold openSession. callbacks_tac. Qed.

Lemma getFlow_callbacks (w : World) :
  callbacks (this (fst (getFlow w))) = callbacks (this w).
Proof. unfold getFlow. callbacks_tac. Qed.

Lemma initEmbed_callbacks (w : World) :
  callbacks (this (fst (_initEmbed w))) = callbacks (this w).
Proof. unfold _initEmbed, getFlow. callbacks_tac. Qed.

Lemma dispatcher_callbacks d (w : World) :
  callbacks (this (fst (dispatcher d w))) = callbacks (this w).
Proof.
  rewrite dispatcher_eq. pose proof (closeFlow_callbacks w) as Hc.
  destruct d as [|ty]; [done|]. destruct (includes _ ty); [|done].
  destruct (strict_eq _ _).
  - destruct (closeFlow w) as [w' [e|[]]]; [done|]. simpl in Hc.
    destruct (callbacks _ !! _) eqn:E; done.
  - destruct (callbacks _ !! _); done.
Qed.

Lemma ready_listener_callbacks i d (w : World) :
  callbacks (this (fst (ready_listener i d w))) = callbacks (this w).
Proof. unfold ready_listener, data_type, _initEvents. callbacks_tac. Qed.

Lemma report_callbacks {A} (r : World * (Exn + A)) :
  callbacks (this (report r)) = callbacks (this (fst r)).
Proof. by destruct r as [w [e|a]]. Qed.

Lemma deliver_callbacks d (w : World) :
  callbacks (this (deliver d w)) = callbacks (this w).
Proof.
  unfold deliver. generalize (seq 0 (length (msgListeners (page w)))).
  intros l. revert w. induction l as [|i l IH]; intros w; [done|].
  simpl. rewrite IH. unfold run_listener.
  destruct (msgListeners (page w) !! i) as [[b|]|]; [| |done].
  - by rewrite report_callbacks, ready_listener_callbacks.
  - by rewrite report_callbacks, dispatcher_callbacks.
Qed.

Lemma click_callbacks t (w : World) :
  callbacks (this (click t w)) = callbacks (this w).
Proof.
  unfold click. generalize (clickListeners (page w)). intros n.
  induction n as [|n IH]; [done|]. simpl. rewrite report_callbacks.
  rewrite click_listener_eq. destruct (_ && _); [|done].
  by rewrite openSession_callbacks.
Qed.

Lemma timer_callbacks (w : World) :
  callbacks (this (timer w)) = callbacks (this w).
Proof.
  rewrite timer_eq. destruct (timers (page w)) as [|k]; [done|].
  by rewrite initEmbed_callbacks.
Qed.

Lemma initLoad_callbacks (w : World) :
  callbacks (this (fst (_initLoad w))) = callbacks (this w).
Proof.
  unfold _initLoad, _initModal, bind, field, read. simpl.
  destruct (strict_eq _ _); [done|].
  pose proof (initEmbed_callbacks w) as HE.
  destruct (_initEmbed w) as [w' [e|[]]]; done.
Qed.

Lemma init_callbacks (o : option Opt.t) (w : World) :
  callbacks (this (fst (init o w))) = callbacks (this w).
Proof.
  destruct (alreadyInit (this w)) eqn:Ha.
  { by rewrite init_done. }
  destruct (truthy (opt Opt.type o)
            && negb (includes ["modal"; "embed"] (opt Opt.type o))) eqn:Hv.
  { apply andb_true_iff in Hv as [Hv1 Hv2]. apply negb_true_iff in Hv2.
    by rewrite init_rejects. }
  unfold init. unfold_prims. rewrite Ha, Hv. simpl.
  destruct (truthy (opt Opt.element_id o)) eqn:Hid; simpl;
    match goal with |- context [_initLoad ?W] =>
      pose proof (initLoad_callbacks W) as HL;
      destruct (_initLoad W) as [w2 [e|[]]]; exact HL
    end.
Qed.

Lemma exec_callbacks (w : World) (a : Action) :
  (∀ t cb, a ≠ AOn t cb) → callbacks (this (exec w a)) = callbacks (this w).
Proof.
  intros Ha. destruct a as [o|s cb| | | |d|t| |id]; simpl.
  - apply init_callbacks.
  - by destruct (Ha s cb).
  - apply openSession_callbacks.
  - apply closeFlow_callbacks.
  - apply getFlow_callbacks.
  - apply deliver_callbacks.
  - apply click_callbacks.
  - apply timer_callbacks.
  - reflexivity.
Qed.

(** X1. [on(type, callback)] returns and writes nothing but the registry
    entry of [type]: the page and every other field of the client stay as
    they are, that entry reads back as [callback], the other entries read
    as before, and a second registration for the same [type] replaces the
    first.  Nothing else writes the registry: the entry stays through
    every later action that is not a call of [on] -- [closeFlow] does not
    clear it.  The dispatcher then calls the callback registered last:
    outside modal mode a message of that type makes this one call and no
    other. *)
Theorem on_last_registration_wins :
  ∀ (w : World) (t t' : string) (c1 c2 : nat),
    snd (on t c1 w) = inr tt
    ∧ page (fst (on t c1 w)) = page w
    ∧ set_callbacks (callbacks (this w)) (this (fst (on t c1 w))) = this w
    ∧ callbacks (this (fst (on t c1 w))) !! t'
      = (if decide (t = t') then Some c1 else callbacks (this w) !! t')
    ∧ fst (on t c2 (fst (on t c1 w))) = fst (on t c2 w)
    ∧ (∀ a : Action, (∀ s cb, a ≠ AOn s cb) →
         callbacks (this (exec (fst (on t c1 w)) a)) !! t = Some c1)
    ∧ (t ∈ ["finish"; "close"] → type (this w) ≠ VStr "modal" →
       dispatcher (DObject (VStr t)) (fst (on t c2 (fst (on t c1 w))))
       = emit (ECallback t c2) (fst (on t c2 w))).
Proof.
  intros w t t' c1 c2.
  split; [reflexivity|]. split; [reflexivity|].
  split; [by destruct w as [[] ?]|].
  split; [apply lookup_insert|]. split; [|split].
  - unfold on. unfold_prims. simpl.
    unfold on_this. simpl. f_equal. unfold set_callbacks. simpl. f_equal.
    apply insert_insert_eq.
  - intros a Ha. rewrite exec_callbacks by done. apply lookup_insert_eq.
  - intros Ht Hmode. unfold on. unfold_prims. simpl.
    rewrite dispatcher_eq, includes_finish_close by done.
    simpl. unfold strict_eq. rewrite bool_decide_eq_false_2 by done. simpl.
    rewrite insert_insert_eq, lookup_insert_eq.
    unfold on_this, set_callbacks. simpl. by rewrite insert_insert_eq.
Qed.

Lemma on_last_registration_wins_witness :
  dispatcher finish (fst (on "finish" 2 (fst (on "finish" 1 embed_session))))
  = emit (ECallback "finish" 2) (fst (on "finish" 2 embed_session)).
Proof.
  apply (proj2 (proj2 (proj2 (proj2 (proj2 (proj2
           (on_last_registration_wins embed_session "finish" "finish" 1 2))))))).
  - set_solver.
  - vm_compute. discriminate.
Defined.
